(** * KneeKlinic mobile client: a shallow embedding of its client-side logic

    The repository is a React Native application written in TypeScript.  The
    parts embedded here are the ones that carry behaviour of their own:

    - the pedometer of [StepCounterScreen] (ProfileScreen.tsx), a two-state
      threshold detector over accelerometer samples;
    - the shared axios client of [services/api.ts] with its request and
      response interceptors over [AsyncStorage];
    - [AuthService] and the [AuthProvider] context (login, signup, OTP
      verification, logout);
    - the form handlers of the login, signup and OTP screens;
    - [toggleExercise] of the exercise plans screen.

    JavaScript numbers are IEEE 754 binary64 values and are modelled by Rocq's
    primitive floats; integer-valued quantities (millisecond clocks, the step
    count) are modelled by [Z].  JavaScript strings are sequences of UTF-16 code
    units.  An asynchronous handler is modelled by state passing over a
    [World] that holds the device storage, the requests put on the network
    and the dialogs shown: the handler taken alone, from the event that
    starts it to its end, with the reply to its request arriving before
    anything else happens.  The forgot-password screen is modelled a second
    time with every handler in two halves, so that what happens between a
    request and its reply is covered. *)

From Stdlib Require Import ZArith NArith Floats Lia Bool.
From Stdlib Require Ascii String DecimalString.
From stdpp Require Import base option list strings gmap fin_maps.

Set Warnings "-inexact-float,-register-all".
Local Open Scope Z_scope.

(** ** JavaScript strings *)

Module Js.

(** A string is a list of UTF-16 code units. *)
Definition char := N.
Definition str := list N.

(** [lit] reads an ASCII literal of this file as a JavaScript string. *)
Definition lit (s : String.string) : str :=
  List.map Ascii.N_of_ascii (String.list_ascii_of_string s).
Arguments lit s%_string.

(** [Boolean(s)]: the empty string is the only falsy string. *)
Definition truthy (s : str) : bool :=
  match s with [] => false | _ :: _ => true end.

(** LineTerminator code points: LF, CR, LS, PS. *)
Definition isLineTerminator (c : char) : bool :=
  ((c =? 10) || (c =? 13) || (c =? 8232) || (c =? 8233))%N.

(** WhiteSpace and LineTerminator code points, the set shared by [\s] and
    by [String.prototype.trim]: TAB, LF, VT, FF, CR, SP, NBSP, U+1680,
    U+2000..U+200A, LS, PS, U+202F, U+205F, U+3000 and the BOM U+FEFF. *)
Definition isWhiteSpace (c : char) : bool :=
  (((9 <=? c) && (c <=? 13)) || (c =? 32) || (c =? 160) || (c =? 5760)
   || ((8192 <=? c) && (c <=? 8202)) || (c =? 8232) || (c =? 8233)
   || (c =? 8239) || (c =? 8287) || (c =? 12288) || (c =? 65279))%N.

Fixpoint trimStart (s : str) : str :=
  match s with
  | c :: t => if isWhiteSpace c then trimStart t else s
  | [] => []
  end.

Definition trimEnd (s : str) : str := rev (trimStart (rev s)).

(** [s.trim()] *)
Definition trim (s : str) : str := trimEnd (trimStart s).

Definition isAsciiUpper (c : char) : bool := ((65 <=? c) && (c <=? 90))%N.
Definition isAsciiLower (c : char) : bool := ((97 <=? c) && (c <=? 122))%N.
Definition isAsciiDigit (c : char) : bool := ((48 <=? c) && (c <=? 57))%N.
Definition isAscii (c : char) : bool := (c <? 128)%N.

(** Decimal digits of an integer, as [Number.prototype.toString] prints an
    integer-valued number. *)
Definition ofZ (z : Z) : str :=
  lit (DecimalString.NilZero.string_of_int (Z.to_int z)).

(** [s.padStart(n, c)] for a one-unit filler [c]. *)
Definition padStart (n : nat) (c : char) (s : str) : str :=
  replicate (n - length s)%nat c ++ s.

End Js.

Abbreviation jsstring := Js.str.

(** ** Regular expressions

    The fragment of the regular expression syntax the screens use: character
    classes with the quantifiers [+] and [*], the assertions [^] and [$], and
    positive lookahead.  No flag is set: a pattern works on code units, and
    [.] excludes the line terminators.  A pattern is written in
    continuation form, each node carrying the rest of the pattern. *)

Module Regex.

Definition cls := Js.char -> bool.

Inductive re :=
| Accept
| AssertStart (k : re)
| AssertEnd (k : re)
| One (c : cls) (k : re)
| Star (c : cls) (k : re)
| Plus (c : cls) (k : re)
| Lookahead (a : re) (k : re).

(** [c*] followed by [k]: [k] is tried after every number of repetitions,
    as the backtracking matcher does. *)
Fixpoint star (c : cls) (k : bool -> jsstring -> bool)
    (atStart : bool) (s : jsstring) : bool :=
  k atStart s
  || match s with
     | ch :: t => c ch && star c k false t
     | [] => false
     end.

(** Does [r] match at the current position?  [s] is the input from that
    position on and [atStart] tells whether it is the start of the input. *)
Fixpoint exec (r : re) (atStart : bool) (s : jsstring) : bool :=
  match r with
  | Accept => true
  | AssertStart k => atStart && exec k atStart s
  | AssertEnd k => match s with [] => exec k atStart s | _ :: _ => false end
  | One c k => match s with ch :: t => c ch && exec k false t | [] => false end
  | Star c k => star c (exec k) atStart s
  | Plus c k =>
      match s with ch :: t => c ch && star c (exec k) false t | [] => false end
  | Lookahead a k => exec a atStart s && exec k atStart s
  end.

Fixpoint scan (r : re) (atStart : bool) (s : jsstring) : bool :=
  exec r atStart s
  || match s with _ :: t => scan r false t | [] => false end.

(** [r.test(s)]: a match starting at some position of [s]. *)
Definition test (r : re) (s : jsstring) : bool := scan r true s.

Definition chr (c : Js.char) : cls := fun ch => (ch =? c)%N.
Definition dot : cls := fun ch => negb (Js.isLineTerminator ch).

End Regex.

(** ** JSON values: request and response bodies *)

Inductive json :=
| JUndefined
| JNull
| JBool (b : bool)
| JNum (n : float)
| JStr (s : jsstring)
| JArr (items : list json)
| JObj (fields : list (jsstring * json)).

Module Json.

(** [Boolean(v)]: zero and NaN are the falsy numbers. *)
Definition truthy (v : json) : bool :=
  match v with
  | JUndefined | JNull => false
  | JBool b => b
  | JNum n => negb (PrimFloat.eqb n 0%float) && PrimFloat.eqb n n
  | JStr s => Js.truthy s
  | JArr _ | JObj _ => true
  end.

Fixpoint lookup (k : jsstring) (fields : list (jsstring * json)) : json :=
  match fields with
  | [] => JUndefined
  | (k', v) :: rest => if decide (k' = k) then v else lookup k rest
  end.

(** [v?.k] *)
Definition get (k : jsstring) (v : json) : json :=
  match v with
  | JObj fields => lookup k fields
  | _ => JUndefined
  end.

(** [a || b] *)
Definition or (a b : json) : json := if truthy a then a else b.

(** [v.k] without the [?]: reading a property of [null] or [undefined]
    throws a TypeError, which is [None] here.  The keys read in this way
    are names of fields, which a string, a number, a boolean or an array
    does not have. *)
Definition prop (k : jsstring) (v : json) : option json :=
  match v with
  | JUndefined | JNull => None
  | _ => Some (get k v)
  end.

End Json.

(** ** JavaScript numbers *)

Module Num.

(** The binary64 value of an integer (exact below 2^53). *)
Definition ofZ (n : Z) : float :=
  SF2Prim (binary_normalize prec emax n 0 false).

(** [a > b] and [a < b] on numbers; both are false when either is NaN. *)
Definition gt (a b : float) : bool := PrimFloat.ltb b a.
Definition lt (a b : float) : bool := PrimFloat.ltb a b.

(** The integer a number with an integer value stands for, read from
    its value [±m·2^e]; [0] for the zeros and for what is not finite. *)
Definition toZ (x : float) : Z :=
  match Prim2SF x with
  | S754_finite negative m e =>
      let n := if negative then Z.neg m else Z.pos m in
      if 0 <=? e then n * 2 ^ e else n / 2 ^ (- e)
  | _ => 0
  end.

End Num.

(** ** Number.prototype.toFixed and parseFloat, after ECMA-262

    The two built-ins the step counter formats its figures with.  They
    are functions of the engine; what is written here follows the
    standard, on the part of their domain where the result is a plain
    decimal, and is [None] elsewhere. *)

Module Number.

(** The integer [n] for which [n / 10^f - x] is as close to zero as
    possible, the larger one of two, for [x = m·2^e]. *)
Definition nearest (m : positive) (e : Z) (fractionDigits : nat) : Z :=
  let p := Z.pos m * 10 ^ Z.of_nat fractionDigits in
  if 0 <=? e then Z.shiftl p e
  else Z.shiftr (2 * p + Z.shiftl 1 (- e)) (- e + 1).

Definition scaledValue (v : spec_float) (fractionDigits : nat) : Z :=
  match v with
  | S754_finite _ m e => nearest m e fractionDigits
  | _ => 0
  end.

(** That integer for the size of [x]. *)
Definition scaled (x : float) (fractionDigits : nat) : Z :=
  scaledValue (Prim2SF x) fractionDigits.

(** The digits of [n], filled with zeros on the left up to
    [fractionDigits + 1] of them, with a point before the last
    [fractionDigits]; the digits alone when [fractionDigits] is 0. *)
Definition fixedText (n : Z) (fractionDigits : nat) : jsstring :=
  let m := Js.ofZ n in
  if (fractionDigits =? 0)%nat then m
  else
    let m := Js.padStart (fractionDigits + 1) 48%N m in
    take (length m - fractionDigits) m ++ Js.lit "."
      ++ drop (length m - fractionDigits) m.

(** [x.toFixed(fractionDigits)].  More than 100 digits throw a
    [RangeError], and a finite [x] of size [10^21] or more is printed in
    exponent form: both are left out. *)
Definition toFixed (x : float) (fractionDigits : nat) : option jsstring :=
  if (100 <? fractionDigits)%nat then None
  else if PrimFloat.ltb (PrimFloat.abs x) 1e21 then
    Some ((if PrimFloat.ltb x 0 then Js.lit "-" else []) ++
          fixedText (scaled x fractionDigits) fractionDigits)
  else if PrimFloat.is_nan x then Some (Js.lit "NaN")
  else if PrimFloat.is_infinity x then
    Some (if PrimFloat.ltb x 0 then Js.lit "-Infinity" else Js.lit "Infinity")
  else None.

Fixpoint digits (acc : Z) (s : jsstring) : option Z :=
  match s with
  | [] => Some acc
  | c :: t =>
      if Js.isAsciiDigit c then digits (10 * acc + (Z.of_N c - 48)) t else None
  end.

Fixpoint beforePoint (s : jsstring) : jsstring :=
  match s with
  | [] => []
  | c :: t => if (c =? 46)%N then [] else c :: beforePoint t
  end.

Fixpoint fromPoint (s : jsstring) : jsstring :=
  match s with
  | [] => []
  | c :: t => if (c =? 46)%N then s else fromPoint t
  end.

(** A text made of digits, or of digits, a point and digits: the integer
    its digits spell without the point, and the number of digits after
    the point. *)
Definition unsigned (s : jsstring) : option (Z * nat) :=
  let whole := beforePoint s in
  let fraction := match fromPoint s with [] => [] | _ :: t => t end in
  match whole, fromPoint s with
  | [], _ | _, [_] => None
  | _, _ => (fun mv => (mv, length fraction)) <$> digits 0 (whole ++ fraction)
  end.

(** The same with a minus sign allowed in front. *)
Definition decimal (text : jsstring) : option (bool * Z * nat) :=
  match text with
  | 45%N :: t => (fun r => (true, r.1, r.2)) <$> unsigned t
  | _ => (fun r => (false, r.1, r.2)) <$> unsigned text
  end.

(** [parseFloat(text)] for a text that is such a decimal: the number
    nearest to its value.  With fewer than 2^53 in the digits and at most
    22 digits after the point, both the integer of the digits and the
    power of ten are numbers, and their quotient as numbers is the
    nearest one.  Texts with white space, an exponent, a tail that is not
    part of the number, or more digits are left out. *)
Definition parseFloat (text : jsstring) : option float :=
  match decimal text with
  | Some (negative, mv, k) =>
      if (mv <? 2 ^ 53) && (k <=? 22)%nat
      then
        let value := (Num.ofZ mv / Num.ofZ (10 ^ Z.of_nat k))%float in
        Some (if negative then (- value)%float else value)
      else None
  | None => None
  end.

End Number.

(** ** Built-ins of the runtime that the embedding leaves abstract

    These are functions of the JavaScript engine, not of the repository: the
    number formatters, the Unicode part of [toLowerCase] and
    [JSON.stringify].  A theorem below holds for all of them, unless it
    asks for the formatters of the standard ([Number.toFixed],
    [Number.parseFloat]) by name. *)

Class Runtime := {
  (** [x.toFixed(digits)] *)
  toFixed : float -> nat -> jsstring;
  (** [parseFloat(s)] *)
  parseFloat : jsstring -> float;
  (** [n.toLocaleString()] *)
  toLocaleString : Z -> jsstring;
  (** [s.toLowerCase()] on a string with a code unit outside ASCII *)
  toLowerCaseUnicode : jsstring -> jsstring;
  (** [String(v)] for a value that is not a string *)
  stringOfValue : json -> jsstring;
  (** [JSON.stringify(v)] *)
  JSON_stringify : json -> jsstring;
}.

(** [s.toLowerCase()]: on ASCII-only strings the letters A..Z move to a..z. *)
Definition toLowerCase `{Runtime} (s : jsstring) : jsstring :=
  if forallb Js.isAscii s
  then List.map (fun c => if Js.isAsciiUpper c then (c + 32)%N else c) s
  else toLowerCaseUnicode s.

(** [String(v)] *)
Definition toString `{Runtime} (v : json) : jsstring :=
  match v with
  | JStr s => s
  | _ => stringOfValue v
  end.

(** ** The world around a handler

    Handlers are [async] functions.  What they share is the device storage
    ([AsyncStorage]), the auth context, and what they leave behind: the
    requests that reached the network and the dialogs and navigations shown
    to the user. *)

Inductive Method := GET | POST | PUT | DELETE.

Inductive Body :=
| NoBody
| JsonBody (j : json)
| FormData (parts : list (jsstring * jsstring)).

(** An axios request configuration, as far as the interceptors read it. *)
Record Request := {
  method : Method;
  url : jsstring;
  data : Body;
  headers : gmap jsstring jsstring;
}.

Record Response := {
  status : Z;
  payload : json;
}.

(** What comes back for a request: an HTTP response of any status, or no
    response at all (timeout, no connectivity). *)
Inductive Reply :=
| Answered (r : Response)
| NoResponse (message : jsstring).

(** [AxiosError]: [response] is absent for a network failure. *)
Record AxiosError := {
  error_message : jsstring;
  error_response : option Response;
}.

(** Values that handlers throw and catch. *)
Inductive Exn :=
| ThrownAxios (e : AxiosError)
| ThrownError (message : jsstring).

Inductive UiEvent :=
| Alert (title message : jsstring)
| Navigate (screen : jsstring) (params : json).

(** The auth context's state cells ([null] is [JNull]). *)
Record AuthState := {
  user : json;
  token : json;
}.

Record World := {
  storage : gmap jsstring jsstring;
  auth : AuthState;
  wire : list Request;
  ui : list UiEvent;
}.

(** The remote backend and the network in front of it: the reply to a
    request may depend on the requests that came before. *)
Class Backend := {
  respond : list Request -> Request -> Reply;
}.

Inductive Outcome (A : Type) :=
| Resolved (a : A)
| Rejected (e : Exn).
Arguments Resolved {A} a.
Arguments Rejected {A} e.

(** A promise-returning computation. *)
Definition Async (A : Type) : Type := World -> Outcome A * World.

Declare Scope async_scope.
Delimit Scope async_scope with async.

Definition ret {A} (a : A) : Async A := fun w => (Resolved a, w).

Definition throw {A} (e : Exn) : Async A := fun w => (Rejected e, w).

(** [await m] followed by the rest of the function. *)
Definition bind {A B} (m : Async A) (k : A -> Async B) : Async B :=
  fun w =>
    match m w with
    | (Resolved a, w') => k a w'
    | (Rejected e, w') => (Rejected e, w')
    end.

(** [try { m } catch (e) { h e }] *)
Definition tryCatch {A} (m : Async A) (h : Exn -> Async A) : Async A :=
  fun w =>
    match m w with
    | (Resolved a, w') => (Resolved a, w')
    | (Rejected e, w') => h e w'
    end.

(** [try { m } finally { f }]: the outcome of [m] stands unless [f] throws. *)
Definition tryFinally {A} (m : Async A) (f : Async unit) : Async A :=
  fun w =>
    match m w with
    | (r, w') =>
        match f w' with
        | (Resolved _, w'') => (r, w'')
        | (Rejected e, w'') => (Rejected e, w'')
        end
    end.

Notation "'await' x <- m ; k" := (bind m (fun x => k))
  (at level 10, x name, m at level 100, k at level 200) : async_scope.
Notation "'perform' m ; k" := (bind m (fun _ => k))
  (at level 10, m at level 100, k at level 200) : async_scope.

(** State changes that cannot fail. *)
Definition modify (f : World -> World) : Async unit := fun w => (Resolved tt, f w).

Definition setStorage (st : gmap jsstring jsstring) (w : World) : World :=
  {| storage := st; auth := auth w; wire := wire w; ui := ui w |}.
Definition setAuth (a : AuthState) (w : World) : World :=
  {| storage := storage w; auth := a; wire := wire w; ui := ui w |}.
Definition pushWire (r : Request) (w : World) : World :=
  {| storage := storage w; auth := auth w; wire := wire w ++ [r]; ui := ui w |}.
Definition pushUi (e : UiEvent) (w : World) : World :=
  {| storage := storage w; auth := auth w; wire := wire w; ui := ui w ++ [e] |}.

Definition alert (title message : jsstring) : Async unit :=
  modify (pushUi (Alert title message)).

(** ** config/constants.ts *)

Module STORAGE_KEYS.
Definition TOKEN : jsstring := Js.lit "@kneeklinic:token".
Definition USER : jsstring := Js.lit "@kneeklinic:user".
Definition HAS_ONBOARDED : jsstring := Js.lit "@kneeklinic:hasOnboarded".
End STORAGE_KEYS.

Module APP_CONFIG.
Definition OTP_LENGTH : nat := 6.
End APP_CONFIG.

(** ** AsyncStorage: a persistent map from string keys to string values *)

Module AsyncStorage.

Definition getItem (key : jsstring) : Async (option jsstring) :=
  fun w => (Resolved (storage w !! key), w).

Definition asString (v : json) : option jsstring :=
  match v with JStr s => Some s | _ => None end.

(** The store holds strings only.  A call that passes another kind of
    value is taken to be rejected by the library with nothing stored. *)
Definition multiSet (pairs : list (jsstring * json)) : Async unit :=
  match mapM (fun kv => pair kv.1 <$> asString kv.2) pairs with
  | Some strings =>
      modify (fun w =>
        setStorage
          (fold_left (fun st kv => <[kv.1 := kv.2]> st) strings (storage w)) w)
  | None => throw (ThrownError (Js.lit "[AsyncStorage] value is not a string"))
  end.

Definition multiRemove (keys : list jsstring) : Async unit :=
  modify (fun w =>
    setStorage (fold_left (fun st k => delete k st) keys (storage w)) w).

End AsyncStorage.

(** ** services/api.ts: the shared axios client *)

Module Api.

Definition Authorization : jsstring := Js.lit "Authorization".
Definition ContentType : jsstring := Js.lit "Content-Type".

Definition setHeaders (h : gmap jsstring jsstring) (config : Request) : Request :=
  {| method := method config; url := url config; data := data config;
     headers := h |}.

Definition isFormData (b : Body) : bool :=
  match b with FormData _ => true | _ => false end.

(** Request interceptor: add the auth token.  [config.headers] is always
    set on the configuration an interceptor receives. *)
Definition requestInterceptor (config : Request) : Async Request :=
  (await token <- AsyncStorage.getItem STORAGE_KEYS.TOKEN;
   let config :=
     match token with
     | Some t =>
         if Js.truthy t
         then setHeaders (<[Authorization := Js.lit "Bearer " ++ t]> (headers config)) config
         else config
     | None => config
     end in
   let config :=
     if isFormData (data config)
     then setHeaders (delete ContentType (headers config)) config
     else config in
   ret config)%async.

(** [error.response?.status] *)
Definition statusOf (error : Exn) : option Z :=
  match error with
  | ThrownAxios e => status <$> error_response e
  | ThrownError _ => None
  end.

(** Response interceptor, success handler. *)
Definition responseFulfilled (response : Response) : Async Response :=
  ret response.

(** Response interceptor, error handler. *)
Definition responseRejected (error : Exn) : Async Response :=
  (perform
     (if decide (statusOf error = Some 401)
      then AsyncStorage.multiRemove [STORAGE_KEYS.TOKEN; STORAGE_KEYS.USER]
      else ret tt);
   throw error)%async.

Section WithBackend.
Context `{Backend}.

(** The adapter: the request goes on the wire, and axios settles the
    promise by its default [validateStatus], resolving for 2xx only. *)
Definition dispatch (config : Request) : Async Response :=
  fun w =>
    let w' := pushWire config w in
    match respond (wire w) config with
    | Answered r =>
        if (200 <=? status r) && (status r <? 300)
        then (Resolved r, w')
        else (Rejected (ThrownAxios
                {| error_message :=
                     Js.lit "Request failed with status code " ++ Js.ofZ (status r);
                   error_response := Some r |}), w')
    | NoResponse m =>
        (Rejected (ThrownAxios {| error_message := m; error_response := None |}), w')
    end.

(** [apiClient.request(config)]: the request interceptor, the adapter,
    then the response interceptor on either outcome. *)
Definition request (config : Request) : Async Response :=
  fun w =>
    match bind (requestInterceptor config) dispatch w with
    | (Resolved r, w') => responseFulfilled r w'
    | (Rejected e, w') => responseRejected e w'
    end.

(** The instance defaults of [axios.create]. *)
Definition defaultHeaders : gmap jsstring jsstring :=
  {[ ContentType := Js.lit "application/json" ]}.

Definition post (path : jsstring) (body : Body) : Async Response :=
  request {| method := POST; url := path; data := body; headers := defaultHeaders |}.

End WithBackend.

Section WithRuntime.
Context `{Runtime}.

Definition fallbackMessage : jsstring := Js.lit "An unexpected error occurred".

(** [handleApiError] *)
Definition handleApiError (error : Exn) : jsstring :=
  match error with
  | ThrownAxios e =>
      let served :=
        match error_response e with
        | Some r => Json.get (Js.lit "message") (payload r)
        | None => JUndefined
        end in
      let message := Json.or served (JStr (error_message e)) in
      toString (Json.or message (JStr fallbackMessage))
  | ThrownError m => if Js.truthy m then m else fallbackMessage
  end.

End WithRuntime.

End Api.

(** [error.message] of a caught value. *)
Definition messageOf (error : Exn) : jsstring :=
  match error with
  | ThrownAxios e => error_message e
  | ThrownError m => m
  end.

(** [a || b] on strings *)
Definition orElse (a b : jsstring) : jsstring := if Js.truthy a then a else b.

(** The TypeError of a property read on [null] or [undefined]; the text
    of its message is the engine's. *)
Definition typeError : Exn :=
  ThrownError (Js.lit "Cannot read properties of undefined").

(** [v.k] inside an [async] function. *)
Definition member (k : jsstring) (v : json) : Async json :=
  match Json.prop k v with
  | Some x => ret x
  | None => throw typeError
  end.

(** ** services/authService.ts *)

Module AuthService.
Section WithEnv.
Context `{Runtime} `{Backend}.

(** The shape shared by the calls that rethrow:
    [try { return (await post(..)).data } catch (e) { throw new Error(handleApiError(e)) }] *)
Definition call (path : jsstring) (body : json) : Async json :=
  tryCatch
    (await response <- Api.post path (JsonBody body); ret (payload response))%async
    (fun error => throw (ThrownError (Api.handleApiError error))).

(** [login] logs [response.data.user._id] and [response.data.user.email]
    inside its [try] before it returns: a reply without a user object
    ends in the [catch]. *)
Definition login (credentials : json) : Async json :=
  tryCatch
    (await response <- Api.post (Js.lit "/auth/login") (JsonBody credentials);
     await user <- member (Js.lit "user") (payload response);
     perform member (Js.lit "_id") user;
     perform member (Js.lit "email") user;
     ret (payload response))%async
    (fun error => throw (ThrownError (Api.handleApiError error))).

Definition signup (data : json) : Async json :=
  call (Js.lit "/auth/signup") data.

Definition verifyOTP (data : json) : Async json :=
  call (Js.lit "/auth/verify-otp") data.

(** [logout] swallows a failure of the request. *)
Definition logout : Async unit :=
  tryCatch
    (perform Api.post (Js.lit "/api/auth/logout") NoBody; ret tt)%async
    (fun _ => ret tt).

End WithEnv.
End AuthService.

(** ** context/AuthContext.tsx *)

Module AuthContext.

Definition isAuthenticated (a : AuthState) : bool :=
  Json.truthy (user a) && Json.truthy (token a).

Definition clearAuthData : Async unit :=
  (perform modify (setAuth {| user := JNull; token := JNull |});
   AsyncStorage.multiRemove [STORAGE_KEYS.TOKEN; STORAGE_KEYS.USER])%async.

Section WithEnv.
Context `{Runtime} `{Backend}.

Definition saveAuthData (userData tokenValue : json) : Async unit :=
  (perform modify (setAuth {| user := userData; token := tokenValue |});
   AsyncStorage.multiSet
     [(STORAGE_KEYS.TOKEN, tokenValue);
      (STORAGE_KEYS.USER, JStr (JSON_stringify userData))])%async.

Definition login (credentials : json) : Async unit :=
  (await response <- AuthService.login credentials;
   saveAuthData (Json.get (Js.lit "user") response)
                (Json.get (Js.lit "token") response))%async.

Definition signup (data : json) : Async json :=
  (perform AuthService.signup data;
   ret (JObj [(Js.lit "email", Json.get (Js.lit "email") data)]))%async.

Definition verifyOTP (data : json) : Async unit :=
  (await response <- AuthService.verifyOTP data;
   await userData <- member (Js.lit "user") response;
   await tokenValue <- member (Js.lit "token") response;
   saveAuthData userData tokenValue)%async.

Definition logout : Async unit :=
  tryFinally (tryCatch AuthService.logout (fun _ => ret tt)) clearAuthData.

End WithEnv.
End AuthContext.

(** ** screens/auth/LoginScreen.tsx *)

Module LoginScreen.

Record Screen := {
  email : jsstring;
  password : jsstring;
  loading : bool;
}.

Definition setLoading (b : bool) (s : Screen) : Screen :=
  {| email := email s; password := password s; loading := b |}.

Section WithEnv.
Context `{Runtime} `{Backend}.

(** The object literal handed to [login]. *)
Definition credentials (s : Screen) : json :=
  JObj [(Js.lit "email", JStr (toLowerCase (Js.trim (email s))));
        (Js.lit "password", JStr (password s))].

Definition handleLogin (s : Screen) : Async Screen :=
  if negb (Js.truthy (Js.trim (email s))) || negb (Js.truthy (Js.trim (password s)))
  then (perform alert (Js.lit "Error") (Js.lit "Please fill in all fields"); ret s)%async
  else
    (perform
       tryCatch (AuthContext.login (credentials s))
         (fun error =>
            alert (Js.lit "Login Failed")
                  (orElse (messageOf error) (Js.lit "Invalid email or password")));
     ret (setLoading false (setLoading true s)))%async.

End WithEnv.
End LoginScreen.

(** ** screens/auth/SignupScreen.tsx *)

Module SignupScreen.

Record Screen := {
  firstName : jsstring;
  lastName : jsstring;
  email : jsstring;
  password : jsstring;
  confirmPassword : jsstring;
  loading : bool;
  errors : gmap jsstring jsstring;
}.

Definition setLoading (b : bool) (s : Screen) : Screen :=
  {| firstName := firstName s; lastName := lastName s; email := email s;
     password := password s; confirmPassword := confirmPassword s;
     loading := b; errors := errors s |}.

Definition setErrors (e : gmap jsstring jsstring) (s : Screen) : Screen :=
  {| firstName := firstName s; lastName := lastName s; email := email s;
     password := password s; confirmPassword := confirmPassword s;
     loading := loading s; errors := e |}.

Import Regex.

Definition notSpaceOrAt : cls :=
  fun ch => negb (Js.isWhiteSpace ch || (ch =? 64)%N).

Definition notAlphanumeric : cls :=
  fun ch => negb (Js.isAsciiUpper ch || Js.isAsciiLower ch || Js.isAsciiDigit ch).

(** [/^[^\s@]+@[^\s@]+\.[^\s@]+$/] *)
Definition emailPattern : re :=
  AssertStart
    (Plus notSpaceOrAt
       (One (chr 64%N)
          (Plus notSpaceOrAt
             (One (chr 46%N)
                (Plus notSpaceOrAt
                   (AssertEnd Accept)))))).

(** [/(?=.*[a-z])(?=.*[A-Z])(?=.*\d)(?=.*[^A-Za-z0-9])/] *)
Definition complexityPattern : re :=
  Lookahead (Star dot (One Js.isAsciiLower Accept))
    (Lookahead (Star dot (One Js.isAsciiUpper Accept))
       (Lookahead (Star dot (One Js.isAsciiDigit Accept))
          (Lookahead (Star dot (One notAlphanumeric Accept))
             Accept))).

(** [/\s/] *)
Definition spacePattern : re := One Js.isWhiteSpace Accept.

(** The five [if] blocks of [validateForm], each adding at most one entry
    to the error object [e]. *)
Definition checkFirstName (s : Screen) (e : gmap jsstring jsstring) :=
  if negb (Js.truthy (Js.trim (firstName s)))
  then <[Js.lit "firstName" := Js.lit "First name is required"]> e else e.

Definition checkLastName (s : Screen) (e : gmap jsstring jsstring) :=
  if negb (Js.truthy (Js.trim (lastName s)))
  then <[Js.lit "lastName" := Js.lit "Last name is required"]> e else e.

Definition checkEmail (s : Screen) (e : gmap jsstring jsstring) :=
  if negb (Js.truthy (Js.trim (email s)))
  then <[Js.lit "email" := Js.lit "Email is required"]> e
  else if negb (test emailPattern (email s))
  then <[Js.lit "email" := Js.lit "Invalid email format"]> e else e.

Definition checkPassword (s : Screen) (e : gmap jsstring jsstring) :=
  if negb (Js.truthy (password s))
  then <[Js.lit "password" := Js.lit "Password is required"]> e
  else if (length (password s) <? 8)%nat
  then <[Js.lit "password" := Js.lit "Password must be at least 8 characters"]> e
  else if negb (test complexityPattern (password s))
  then <[Js.lit "password" :=
           Js.lit "Password must include uppercase, lowercase, number, and special character"]> e
  else if test spacePattern (password s)
  then <[Js.lit "password" := Js.lit "Password cannot contain spaces"]> e else e.

Definition checkConfirmPassword (s : Screen) (e : gmap jsstring jsstring) :=
  if negb (Js.truthy (confirmPassword s))
  then <[Js.lit "confirmPassword" := Js.lit "Please confirm your password"]> e
  else if negb (bool_decide (password s = confirmPassword s))
  then <[Js.lit "confirmPassword" := Js.lit "Passwords do not match"]> e else e.

(** The error object [validateForm] ends with. *)
Definition newErrors (s : Screen) : gmap jsstring jsstring :=
  let e : gmap jsstring jsstring := ∅ in
  let e := checkFirstName s e in
  let e := checkLastName s e in
  let e := checkEmail s e in
  let e := checkPassword s e in
  let e := checkConfirmPassword s e in
  e.

(** [validateForm]: the screen with its errors set, and the verdict
    [Object.keys(newErrors).length === 0]. *)
Definition validateForm (s : Screen) : Screen * bool :=
  (setErrors (newErrors s) s, (size (newErrors s) =? 0)%nat).

Section WithEnv.
Context `{Runtime} `{Backend}.

(** The object literal handed to [signup]. *)
Definition signupData (s : Screen) : json :=
  JObj [(Js.lit "email", JStr (toLowerCase (Js.trim (email s))));
        (Js.lit "password", JStr (password s));
        (Js.lit "confirmPassword", JStr (confirmPassword s));
        (Js.lit "firstName", JStr (Js.trim (firstName s)));
        (Js.lit "lastName", JStr (Js.trim (lastName s)));
        (Js.lit "userType", JStr (Js.lit "patient"))].

Definition handleSignup (s : Screen) : Async Screen :=
  let (s, valid) := validateForm s in
  if negb valid then ret s
  else
    (perform
       tryCatch
         (await result <- AuthContext.signup (signupData s);
          modify (pushUi (Navigate (Js.lit "OTP")
                    (JObj [(Js.lit "email", Json.get (Js.lit "email") result)]))))
         (fun error =>
            alert (Js.lit "Signup Failed")
                  (orElse (messageOf error)
                          (Js.lit "Failed to create account. Please try again.")));
     ret (setLoading false (setLoading true s)))%async.

End WithEnv.
End SignupScreen.

(** ** screens/auth/OTPScreen.tsx *)

Module OTPScreen.

(** [otp] is the array of input cells; [email] is the route parameter. *)
Record Screen := {
  email : jsstring;
  otp : list jsstring;
  loading : bool;
}.

Definition setLoading (b : bool) (s : Screen) : Screen :=
  {| email := email s; otp := otp s; loading := b |}.

Definition setOtp (cells : list jsstring) (s : Screen) : Screen :=
  {| email := email s; otp := cells; loading := loading s |}.

(** [Array(APP_CONFIG.OTP_LENGTH).fill('')] *)
Definition emptyOtp : list jsstring := replicate APP_CONFIG.OTP_LENGTH [].

Section WithEnv.
Context `{Runtime} `{Backend}.

Definition handleVerify (s : Screen) : Async Screen :=
  let otpCode := concat (otp s) in
  if negb (length otpCode =? APP_CONFIG.OTP_LENGTH)%nat
  then
    (perform alert (Js.lit "Error") (Js.lit "Please enter the complete OTP code");
     ret s)%async
  else
    let s := setLoading true s in
    (await s <-
       tryCatch
         (perform AuthContext.verifyOTP
            (JObj [(Js.lit "email", JStr (email s)); (Js.lit "otp", JStr otpCode)]);
          ret s)
         (fun error =>
            perform alert (Js.lit "Verification Failed")
              (orElse (messageOf error) (Js.lit "Invalid OTP. Please try again."));
            ret (setOtp emptyOtp s));
     ret (setLoading false s))%async.

End WithEnv.
End OTPScreen.

(** ** screens/main/ExercisePlansScreen.tsx *)

Module ExercisePlansScreen.

Record Exercise := {
  id : jsstring;
  name : jsstring;
  duration : jsstring;
  description : jsstring;
}.

Record ExercisePlan := {
  exercises : list Exercise;
}.

Record Plans := {
  beginning : ExercisePlan;
  moderate : ExercisePlan;
  severe : ExercisePlan;
}.

Inductive SeverityLevel := Beginning | Moderate | Severe.

Definition levelName (level : SeverityLevel) : jsstring :=
  match level with
  | Beginning => Js.lit "beginning"
  | Moderate => Js.lit "moderate"
  | Severe => Js.lit "severe"
  end.

(** [plans[level]] *)
Definition planOf (plans : Plans) (level : SeverityLevel) : ExercisePlan :=
  match level with
  | Beginning => beginning plans
  | Moderate => moderate plans
  | Severe => severe plans
  end.

(** The state cells [toggleExercise] reads or writes; [lastSaved] is a
    timestamp. *)
Record Screen := {
  selectedPlan : option SeverityLevel;
  plans : option Plans;
  completedExercises : list jsstring;
  saving : bool;
  lastSaved : option Z;
  showSaveSuccess : bool;
}.

Definition setCompletedExercises (l : list jsstring) (s : Screen) : Screen :=
  {| selectedPlan := selectedPlan s; plans := plans s; completedExercises := l;
     saving := saving s; lastSaved := lastSaved s;
     showSaveSuccess := showSaveSuccess s |}.

Definition setSaving (b : bool) (s : Screen) : Screen :=
  {| selectedPlan := selectedPlan s; plans := plans s;
     completedExercises := completedExercises s;
     saving := b; lastSaved := lastSaved s;
     showSaveSuccess := showSaveSuccess s |}.

Definition saved (now : Z) (s : Screen) : Screen :=
  {| selectedPlan := selectedPlan s; plans := plans s;
     completedExercises := completedExercises s;
     saving := saving s; lastSaved := Some now; showSaveSuccess := true |}.

(** [includes] *)
Definition includes (l : list jsstring) (x : jsstring) : bool :=
  bool_decide (x ∈ l).

(** The list [toggleExercise] computes first. *)
Definition newCompleted (completed : list jsstring) (exerciseId : jsstring)
    : list jsstring :=
  if includes completed exerciseId
  then List.filter (fun i => negb (bool_decide (i = exerciseId))) completed
  else completed ++ [exerciseId].

Section WithEnv.
Context `{Backend}.

Definition logBody (level : SeverityLevel) (completed : list jsstring)
    (total : nat) : json :=
  JObj [(Js.lit "severityLevel", JStr (levelName level));
        (Js.lit "completedExercises", JArr (List.map JStr completed));
        (Js.lit "totalExercises", JNum (Num.ofZ (Z.of_nat total)))].

(** [toggleExercise]; [now] is the value of [new Date()] on success.  The
    timer that hides the success banner two seconds later is a later event
    and not part of the handler's run. *)
Definition toggleExercise (now : Z) (exerciseId : jsstring) (s : Screen)
    : Async Screen :=
  match selectedPlan s, plans s with
  | Some level, Some allPlans =>
      let completedExercises := completedExercises s in
      let newCompleted := newCompleted completedExercises exerciseId in
      let s := setCompletedExercises newCompleted s in
      let s := setSaving true s in
      let totalExercises := length (exercises (planOf allPlans level)) in
      (await s <-
         tryCatch
           (perform Api.post (Js.lit "/activity/exercise/log")
              (JsonBody (logBody level newCompleted totalExercises));
            ret (saved now s))
           (fun _ =>
              let s := setCompletedExercises completedExercises s in
              perform alert (Js.lit "Error") (Js.lit "Failed to save progress");
              ret s);
       ret (setSaving false s))%async
  | _, _ => ret s
  end.

End WithEnv.
End ExercisePlansScreen.

(** ** The pedometer: StepCounterScreen (ProfileScreen.tsx) *)

Module StepCounter.

Inductive StepState := up | down.

(** One accelerometer reading, in units of g. *)
Record Sample := { x : float; y : float; z : float }.

(** [interface StepSession]; dates are millisecond timestamps. *)
Record StepSession := {
  session_startTime : option Z;
  session_endTime : option Z;
  steps : Z;
  distance : float;
  calories : float;
}.

(** The component's state: the [useState] cells and the [useRef] cells.
    [subscribed] stands for [subscriptionRef.current] being set.  The debug
    text, console output and vibration feedback are not modelled. *)
Record Screen := {
  isCounting : bool;
  sessionSteps : Z;
  startTime : option Z;
  duration : Z;
  subscribed : bool;
  lastZ : float;
  stepState : StepState;
  lastStepTime : Z;
}.

Definition stepThreshold : float := 0.08%float.
Definition minStepInterval : Z := 250.

Definition initial : Screen :=
  {| isCounting := false; sessionSteps := 0; startTime := None; duration := 0;
     subscribed := false; lastZ := 0%float; stepState := down; lastStepTime := 0 |}.

Definition setStepState (st : StepState) (s : Screen) : Screen :=
  {| isCounting := isCounting s; sessionSteps := sessionSteps s;
     startTime := startTime s; duration := duration s;
     subscribed := subscribed s; lastZ := lastZ s;
     stepState := st; lastStepTime := lastStepTime s |}.

Definition setLastStepTime (t : Z) (s : Screen) : Screen :=
  {| isCounting := isCounting s; sessionSteps := sessionSteps s;
     startTime := startTime s; duration := duration s;
     subscribed := subscribed s; lastZ := lastZ s;
     stepState := stepState s; lastStepTime := t |}.

Definition setLastZ (a : float) (s : Screen) : Screen :=
  {| isCounting := isCounting s; sessionSteps := sessionSteps s;
     startTime := startTime s; duration := duration s;
     subscribed := subscribed s; lastZ := a;
     stepState := stepState s; lastStepTime := lastStepTime s |}.

(** [setSessionSteps(prev => prev + 1)] *)
Definition addStep (s : Screen) : Screen :=
  {| isCounting := isCounting s; sessionSteps := sessionSteps s + 1;
     startTime := startTime s; duration := duration s;
     subscribed := subscribed s; lastZ := lastZ s;
     stepState := stepState s; lastStepTime := lastStepTime s |}.

Definition isUp (st : StepState) : bool :=
  match st with up => true | down => false end.
Definition isDown (st : StepState) : bool :=
  match st with down => true | up => false end.

(** [magnitude - 1.0] of the listener. *)
Definition acceleration (data : Sample) : float :=
  let magnitude :=
    PrimFloat.sqrt (x data * x data + y data * y data + z data * z data)%float in
  (magnitude - 1.0)%float.

(** The callback given to [Accelerometer.addListener]; [now] is the value
    [Date.now()] returns during the call. *)
Definition listener (now : Z) (data : Sample) (s : Screen) : Screen :=
  let acceleration := acceleration data in
  let timeSinceLastStep := now - lastStepTime s in
  let s :=
    if Num.gt acceleration stepThreshold && isDown (stepState s) then
      setStepState up s
    else if Num.lt acceleration (- stepThreshold)%float && isUp (stepState s) then
      let s :=
        if timeSinceLastStep >? minStepInterval
        then addStep (setLastStepTime now s)
        else s in
      setStepState down s
    else s in
  setLastZ acceleration s.

(** [startCounting]: [date] is the value of [new Date()], [now] the value
    of the [Date.now()] that follows it. *)
Definition startCounting (date now : Z) (s : Screen) : Screen :=
  {| isCounting := true; sessionSteps := 0; startTime := Some date;
     duration := 0; subscribed := true; lastZ := 0%float;
     stepState := down; lastStepTime := now |}.

(** The samples delivered while the subscription stands, each with the
    clock value read by the listener. *)
Definition run (stream : list (Z * Sample)) (s : Screen) : Screen :=
  fold_left (fun acc e => listener (fst e) (snd e) acc) stream s.

Definition resetSession (s : Screen) : Screen :=
  {| isCounting := isCounting s; sessionSteps := 0; startTime := None;
     duration := 0; subscribed := subscribed s; lastZ := 0%float;
     stepState := down; lastStepTime := 0 |}.

(** [formatDuration]: [hh:mm:ss]. *)
Definition formatDuration (seconds : Z) : jsstring :=
  let hrs := seconds / 3600 in
  let mins := Z.rem seconds 3600 / 60 in
  let secs := Z.rem seconds 60 in
  Js.padStart 2 48%N (Js.ofZ hrs) ++ Js.lit ":" ++
  Js.padStart 2 48%N (Js.ofZ mins) ++ Js.lit ":" ++
  Js.padStart 2 48%N (Js.ofZ secs).

(** The dialogs [stopCounting] opens.  The second one carries the four
    lines of its message and what its Save button hands to
    [saveSession]; the session is built when the button is pressed, at
    the time given to [onSave].  Its Discard button runs [resetSession]. *)
Inductive Dialog :=
| NoStepsRecorded
| SessionComplete (stepsLine distanceLine caloriesLine durationLine : jsstring)
                  (onSave : Z -> StepSession).

Section WithRuntime.
Context `{Runtime}.

Definition stopCounting (s : Screen) : Screen * Dialog :=
  let stopped :=
    {| isCounting := false; sessionSteps := sessionSteps s;
       startTime := startTime s; duration := duration s;
       subscribed := false; lastZ := lastZ s;
       stepState := stepState s; lastStepTime := lastStepTime s |} in
  if sessionSteps s =? 0 then (resetSession stopped, NoStepsRecorded)
  else
    let distance := (Num.ofZ (sessionSteps s) * 0.762 / 1000)%float in
    let calories := (Num.ofZ (sessionSteps s) * 0.04)%float in
    (stopped,
     SessionComplete
       (toLocaleString (sessionSteps s))
       (toFixed distance 2)
       (toFixed calories 0)
       (formatDuration (duration s))
       (fun pressed =>
          {| session_startTime := startTime s;
             session_endTime := Some pressed;
             steps := sessionSteps s;
             distance := parseFloat (toFixed distance 2);
             calories := parseFloat (toFixed calories 2) |})).



End WithRuntime.

End StepCounter.

(** ** StepCounterScreen: saving a session *)

(** [Date.prototype.toISOString], left abstract. *)
Class Dates := {
  toISOString : Z -> jsstring;
}.

Module StepCounterSaving.
Import StepCounter.

(** The dialogs of [saveSession].  The success dialog names the steps,
    distance and calories; the failure dialog carries the message chosen
    from the status and the session its Retry button saves again.  The
    buttons Great! and Discard run [resetSession]. *)
Inductive SaveDialog :=
| SessionSaved (steps : Z) (distance calories : float)
| SaveFailed (errorMessage : jsstring) (retry : StepSession).

Definition expiredMessage : jsstring :=
  Js.lit "Your session has expired. Please log in again.".
Definition notLoggedInMessage : jsstring :=
  Js.lit "You are not logged in. Please log in to save your steps.".
Definition connectionMessage : jsstring :=
  Js.lit "Could not connect to the server. Check your internet connection.".

(** The message [saveSession] picks from [error?.response?.status]. *)
Definition errorMessage (error : Exn) : jsstring :=
  if decide (Api.statusOf error = Some 403) then expiredMessage
  else if decide (Api.statusOf error = Some 401) then notLoggedInMessage
  else connectionMessage.

Section WithEnv.
Context `{Dates} `{Backend}.

(** The object literal posted to ['/health/steps'].  [startTime] of the
    session is a [Date]; calling [toISOString] on a missing one throws. *)
Definition sessionBody (session : StepSession) (duration : Z) : Async json :=
  match session_startTime session with
  | None => throw (ThrownError (Js.lit "Cannot read properties of null"))
  | Some started =>
      ret (JObj [(Js.lit "steps", JNum (Num.ofZ (steps session)));
                 (Js.lit "distance", JNum (distance session));
                 (Js.lit "calories", JNum (calories session));
                 (Js.lit "startTime", JStr (toISOString started));
                 (Js.lit "endTime",
                   match session_endTime session with
                   | Some ended => JStr (toISOString ended)
                   | None => JUndefined
                   end);
                 (Js.lit "duration", JNum (Num.ofZ duration))])
  end.

(** [saveSession]: the result is the final value of [isSaving] and the
    dialog shown. *)
Definition saveSession (session : StepSession) (s : Screen)
    : Async (bool * SaveDialog) :=
  let isSaving := true in
  (await dialog <-
     tryCatch
       (await body <- sessionBody session (duration s);
        perform Api.post (Js.lit "/health/steps") (JsonBody body);
        ret (SessionSaved (steps session) (distance session) (calories session)))
       (fun error => ret (SaveFailed (errorMessage error) session));
   let isSaving := false in
   ret (isSaving, dialog))%async.

End WithEnv.
End StepCounterSaving.

(** ** The other verbs of the shared client *)

Module ApiVerbs.
Section WithBackend.
Context `{Backend}.

Definition get (path : jsstring) : Async Response :=
  Api.request {| method := GET; url := path; data := NoBody;
                 headers := Api.defaultHeaders |}.

Definition put (path : jsstring) (body : Body) : Async Response :=
  Api.request {| method := PUT; url := path; data := body;
                 headers := Api.defaultHeaders |}.

(** [put(path, body, { headers })]: the headers of the call go over the
    instance defaults. *)
Definition putWith (path : jsstring) (body : Body)
    (given : gmap jsstring jsstring) : Async Response :=
  Api.request {| method := PUT; url := path; data := body;
                 headers := given ∪ Api.defaultHeaders |}.

Definition delete (path : jsstring) : Async Response :=
  Api.request {| method := DELETE; url := path; data := NoBody;
                 headers := Api.defaultHeaders |}.

End WithBackend.
End ApiVerbs.

(** ** services/authService.ts, the remaining calls *)

Module AuthServiceMore.
Section WithEnv.
Context `{Runtime} `{Backend}.

(** [try { return (await m).data } catch (e) { throw new Error(handleApiError(e)) }] *)
Definition rethrowing (m : Async Response) : Async json :=
  tryCatch
    (await response <- m; ret (payload response))%async
    (fun error => throw (ThrownError (Api.handleApiError error))).

Definition resendOTP (email : jsstring) : Async json :=
  rethrowing (Api.post (Js.lit "/auth/resend-otp")
                (JsonBody (JObj [(Js.lit "email", JStr email)]))).

Definition getCurrentUser : Async json :=
  rethrowing (ApiVerbs.get (Js.lit "/auth/user")).

Definition updateProfile (formData : list (jsstring * jsstring)) : Async json :=
  rethrowing
    (ApiVerbs.putWith (Js.lit "/auth/update-profile") (FormData formData)
       {[ Api.ContentType := Js.lit "multipart/form-data" ]}).

Definition changePassword (currentPassword newPassword : jsstring) : Async json :=
  rethrowing
    (ApiVerbs.put (Js.lit "/api/auth/change-password")
       (JsonBody (JObj [(Js.lit "currentPassword", JStr currentPassword);
                        (Js.lit "newPassword", JStr newPassword)]))).

Definition deleteProfilePicture : Async json :=
  rethrowing (ApiVerbs.delete (Js.lit "/api/auth/delete-profile-picture")).

End WithEnv.
End AuthServiceMore.

(** ** context/AuthContext.tsx, the remaining operations *)

(** [JSON.parse], left abstract; [None] stands for the [SyntaxError] it
    throws. *)
Class Parsing := {
  JSON_parse : jsstring -> option json;
}.

Module AuthContextMore.

(** [AsyncStorage.setItem] *)
Definition setItem (key value : jsstring) : Async unit :=
  modify (fun w => setStorage (<[key := value]> (storage w)) w).

(** [AsyncStorage.multiGet]: the values under the keys, [null] as [None]. *)
Definition multiGet (keys : list jsstring) : Async (list (option jsstring)) :=
  fun w => (Resolved (List.map (fun k => storage w !! k) keys), w).

Definition setUser (u : json) (w : World) : World :=
  setAuth {| user := u; token := token (auth w) |} w.

Definition setToken (t : json) (w : World) : World :=
  setAuth {| user := user (auth w); token := t |} w.

Section WithEnv.
Context `{Runtime} `{Parsing} `{Backend}.

(** [loadUserFromStorage]; the result is the value [isLoading] ends with.
    The token is set before the stored user is parsed. *)
Definition loadUserFromStorage : Async bool :=
  (perform
     tryCatch
       (await values <- multiGet [STORAGE_KEYS.TOKEN; STORAGE_KEYS.USER];
        match values with
        | [Some tokenValue; Some userValue] =>
            if Js.truthy tokenValue && Js.truthy userValue then
              perform modify (setToken (JStr tokenValue));
              match JSON_parse userValue with
              | Some parsed => modify (setUser parsed)
              | None => throw (ThrownError (Js.lit "JSON Parse error"))
              end
            else ret tt
        | _ => ret tt
        end)
       (fun _ => ret tt);
   ret false)%async.

(** [updateUser]; the write to the storage is not awaited.
    [JSON.stringify(undefined)] is [undefined], not a string: the store
    refuses it, and nobody waits for that promise. *)
Definition updateUser (updatedUser : json) : Async unit :=
  (perform modify (setUser updatedUser);
   match updatedUser with
   | JUndefined => ret tt
   | _ => setItem STORAGE_KEYS.USER (JSON_stringify updatedUser)
   end)%async.

Definition refreshUser : Async unit :=
  fun w =>
    if negb (Json.truthy (token (auth w))) then (Resolved tt, w)
    else
      tryCatch
        (await response <- AuthServiceMore.getCurrentUser;
         await updatedUser <- member (Js.lit "user") response;
         updateUser updatedUser)%async
        (fun _ => ret tt) w.

Definition resendOTP (email : jsstring) : Async unit :=
  (perform AuthServiceMore.resendOTP email; ret tt)%async.

End WithEnv.
End AuthContextMore.

(** ** config/api.ts: the second axios client *)

Module ConfigApi.

Definition authToken : jsstring := Js.lit "authToken".

(** Request interceptor: the token is read from the key ['authToken']. *)
Definition requestInterceptor (config : Request) : Async Request :=
  (await token <- AsyncStorage.getItem authToken;
   let config :=
     match token with
     | Some t =>
         if Js.truthy t
         then Api.setHeaders
                (<[Api.Authorization := Js.lit "Bearer " ++ t]> (headers config)) config
         else config
     | None => config
     end in
   ret config)%async.

(** Response interceptor: the error is logged and passed on. *)
Definition responseRejected (error : Exn) : Async Response := throw error.

Section WithBackend.
Context `{Backend}.

Definition request (config : Request) : Async Response :=
  fun w =>
    match bind (requestInterceptor config) Api.dispatch w with
    | (Resolved r, w') => (Resolved r, w')
    | (Rejected e, w') => responseRejected e w'
    end.

End WithBackend.
End ConfigApi.

(** ** The code input of OTPScreen and ForgotPasswordScreen *)

Module OtpInput.

(** [array[i] = v] on a JavaScript array.  An index past the end extends
    the array; the holes in between read as [undefined], which a cell
    shows and [join] writes as the empty string. *)
Definition assign (i : nat) (v : jsstring) (l : list jsstring) : list jsstring :=
  if (i <? length l)%nat then <[i := v]> l
  else l ++ replicate (i - length l) [] ++ [v].

(** [value.replace(/[^0-9]/g, '')] *)
Definition digitsOnly (value : jsstring) : jsstring :=
  List.filter Js.isAsciiDigit value.

(** [pastedOtp.forEach((char, i) => { if (i + index < OTP_LENGTH) newOtp[i + index] = char })],
    from the position [i] on. *)
Fixpoint forEach (pastedOtp : list Js.char) (i index : nat)
    (newOtp : list jsstring) : list jsstring :=
  match pastedOtp with
  | [] => newOtp
  | char :: rest =>
      let newOtp :=
        if (i + index <? APP_CONFIG.OTP_LENGTH)%nat
        then assign (i + index) [char] newOtp
        else newOtp in
      forEach rest (S i) index newOtp
  end.

(** [handleOtpChange]: the new value of [otp].  Moving the focus is not
    modelled. *)
Definition handleOtpChange (value : jsstring) (index : nat)
    (otp : list jsstring) : list jsstring :=
  if (1 <? length value)%nat then
    let pastedOtp := take APP_CONFIG.OTP_LENGTH value in
    forEach pastedOtp 0 index otp
  else assign index value otp.

(** [onChangeText] of the cell at [index]. *)
Definition onChangeText (value : jsstring) (index : nat)
    (otp : list jsstring) : list jsstring :=
  handleOtpChange (digitsOnly value) index otp.

End OtpInput.

(** ** OTPScreen: the countdown and the resend link *)

Module OTPResend.
Import OTPScreen.

Record Resend := {
  countdown : Z;
  canResend : bool;
  resendLoading : bool;
}.

Definition initial : Resend :=
  {| countdown := 60; canResend := false; resendLoading := false |}.

Definition setCountdown (n : Z) (r : Resend) : Resend :=
  {| countdown := n; canResend := canResend r; resendLoading := resendLoading r |}.

Definition setCanResend (b : bool) (r : Resend) : Resend :=
  {| countdown := countdown r; canResend := b; resendLoading := resendLoading r |}.

Definition setResendLoading (b : bool) (r : Resend) : Resend :=
  {| countdown := countdown r; canResend := canResend r; resendLoading := b |}.

(** The countdown effect arms a one-second timer in this state. *)
Definition timerArmed (r : Resend) : bool :=
  (0 <? countdown r) && negb (canResend r).

(** The effect's other branch, run after a render with a new [countdown]
    or [canResend]. *)
Definition effect (r : Resend) : Resend :=
  if timerArmed r then r
  else if countdown r =? 0 then setCanResend true r
  else r.

(** A second passes: an armed timer fires, [countdown] goes down by one
    and the effect runs again. *)
Definition second (r : Resend) : Resend :=
  if timerArmed r then effect (setCountdown (countdown r - 1) r) else r.

Section WithEnv.
Context `{Runtime} `{Backend}.

Definition handleResend (s : Screen) (r : Resend) : Async (Screen * Resend) :=
  if negb (canResend r) then ret (s, r)
  else
    let r := setResendLoading true r in
    (await state <-
       tryCatch
         (perform AuthContextMore.resendOTP (email s);
          perform alert (Js.lit "Success") (Js.lit "A new OTP has been sent to your email");
          let r := setCanResend false r in
          let r := setCountdown 60 r in
          let s := setOtp emptyOtp s in
          ret (s, effect r))
         (fun error =>
            perform alert (Js.lit "Error")
              (orElse (messageOf error) (Js.lit "Failed to resend OTP. Please try again."));
            ret (s, r));
     ret (state.1, setResendLoading false state.2))%async.

End WithEnv.
End OTPResend.

(** ** screens/auth/ForgotPasswordScreen.tsx *)

Module ForgotPasswordScreen.

(** [type Step = 'email' | 'otp' | 'newPassword'] *)
Inductive Step := EmailStep | OtpStep | NewPasswordStep.

Record Screen := {
  step : Step;
  email : jsstring;
  otp : list jsstring;
  verifiedOtp : jsstring;
  newPassword : jsstring;
  confirmPassword : jsstring;
  loading : bool;
  countdown : Z;
  canResend : bool;
  errors : gmap jsstring jsstring;
}.

Definition initial : Screen :=
  {| step := EmailStep; email := []; otp := OTPScreen.emptyOtp; verifiedOtp := [];
     newPassword := []; confirmPassword := []; loading := false;
     countdown := 60; canResend := false; errors := ∅ |}.

Definition setStep (v : Step) (s : Screen) : Screen :=
  {| step := v; email := email s; otp := otp s; verifiedOtp := verifiedOtp s;
     newPassword := newPassword s; confirmPassword := confirmPassword s;
     loading := loading s; countdown := countdown s; canResend := canResend s;
     errors := errors s |}.

Definition setEmail (v : jsstring) (s : Screen) : Screen :=
  {| step := step s; email := v; otp := otp s; verifiedOtp := verifiedOtp s;
     newPassword := newPassword s; confirmPassword := confirmPassword s;
     loading := loading s; countdown := countdown s; canResend := canResend s;
     errors := errors s |}.

Definition setOtp (v : list jsstring) (s : Screen) : Screen :=
  {| step := step s; email := email s; otp := v; verifiedOtp := verifiedOtp s;
     newPassword := newPassword s; confirmPassword := confirmPassword s;
     loading := loading s; countdown := countdown s; canResend := canResend s;
     errors := errors s |}.

Definition setVerifiedOtp (v : jsstring) (s : Screen) : Screen :=
  {| step := step s; email := email s; otp := otp s; verifiedOtp := v;
     newPassword := newPassword s; confirmPassword := confirmPassword s;
     loading := loading s; countdown := countdown s; canResend := canResend s;
     errors := errors s |}.

Definition setNewPassword (v : jsstring) (s : Screen) : Screen :=
  {| step := step s; email := email s; otp := otp s; verifiedOtp := verifiedOtp s;
     newPassword := v; confirmPassword := confirmPassword s;
     loading := loading s; countdown := countdown s; canResend := canResend s;
     errors := errors s |}.

Definition setConfirmPassword (v : jsstring) (s : Screen) : Screen :=
  {| step := step s; email := email s; otp := otp s; verifiedOtp := verifiedOtp s;
     newPassword := newPassword s; confirmPassword := v;
     loading := loading s; countdown := countdown s; canResend := canResend s;
     errors := errors s |}.

Definition setLoading (v : bool) (s : Screen) : Screen :=
  {| step := step s; email := email s; otp := otp s; verifiedOtp := verifiedOtp s;
     newPassword := newPassword s; confirmPassword := confirmPassword s;
     loading := v; countdown := countdown s; canResend := canResend s;
     errors := errors s |}.

Definition setCountdown (v : Z) (s : Screen) : Screen :=
  {| step := step s; email := email s; otp := otp s; verifiedOtp := verifiedOtp s;
     newPassword := newPassword s; confirmPassword := confirmPassword s;
     loading := loading s; countdown := v; canResend := canResend s;
     errors := errors s |}.

Definition setCanResend (v : bool) (s : Screen) : Screen :=
  {| step := step s; email := email s; otp := otp s; verifiedOtp := verifiedOtp s;
     newPassword := newPassword s; confirmPassword := confirmPassword s;
     loading := loading s; countdown := countdown s; canResend := v;
     errors := errors s |}.

Definition setErrors (v : gmap jsstring jsstring) (s : Screen) : Screen :=
  {| step := step s; email := email s; otp := otp s; verifiedOtp := verifiedOtp s;
     newPassword := newPassword s; confirmPassword := confirmPassword s;
     loading := loading s; countdown := countdown s; canResend := canResend s;
     errors := v |}.

Definition isOtpStep (v : Step) : bool :=
  match v with OtpStep => true | _ => false end.

(** The countdown effect arms a one-second timer in this state. *)
Definition timerArmed (s : Screen) : bool :=
  isOtpStep (step s) && (0 <? countdown s) && negb (canResend s).

(** The effect's other branch, run after a render with a new [countdown],
    [canResend] or [step]. *)
Definition effect (s : Screen) : Screen :=
  if timerArmed s then s
  else if countdown s =? 0 then setCanResend true s
  else s.

(** A second passes: an armed timer fires, [countdown] goes down by one
    and the effect runs again. *)
Definition second (s : Screen) : Screen :=
  if timerArmed s then effect (setCountdown (countdown s - 1) s) else s.

(** The two [if] blocks of [handleResetPassword]. *)
Definition checkNewPassword (s : Screen) (e : gmap jsstring jsstring) :=
  if negb (Js.truthy (newPassword s))
  then <[Js.lit "newPassword" := Js.lit "Password is required"]> e
  else if (length (newPassword s) <? 6)%nat
  then <[Js.lit "newPassword" := Js.lit "Password must be at least 6 characters"]> e
  else e.

Definition checkConfirmPassword (s : Screen) (e : gmap jsstring jsstring) :=
  if negb (Js.truthy (confirmPassword s))
  then <[Js.lit "confirmPassword" := Js.lit "Please confirm your password"]> e
  else if negb (bool_decide (newPassword s = confirmPassword s))
  then <[Js.lit "confirmPassword" := Js.lit "Passwords do not match"]> e
  else e.

Definition newErrors (s : Screen) : gmap jsstring jsstring :=
  let e : gmap jsstring jsstring := ∅ in
  let e := checkNewPassword s e in
  let e := checkConfirmPassword s e in
  e.

(** The back arrow; at the first step it leaves the screen, which is not
    modelled. *)
Definition back (s : Screen) : Screen :=
  match step s with
  | EmailStep => s
  | OtpStep => setStep EmailStep s
  | NewPasswordStep => setStep OtpStep s
  end.

Section WithEnv.
Context `{Runtime} `{Backend}.

(** [email.trim().toLowerCase()] *)
Definition address (s : Screen) : jsstring := toLowerCase (Js.trim (email s)).

Definition handleSendOtp (s : Screen) : Async Screen :=
  if negb (Js.truthy (Js.trim (email s)))
  then ret (setErrors {[ Js.lit "email" := Js.lit "Email is required" ]} s)
  else if negb (Regex.test SignupScreen.emailPattern (email s))
  then ret (setErrors {[ Js.lit "email" := Js.lit "Invalid email format" ]} s)
  else
    let s := setLoading true s in
    let s := setErrors ∅ s in
    (await s <-
       tryCatch
         (perform Api.post (Js.lit "/auth/forgot-password")
            (JsonBody (JObj [(Js.lit "email", JStr (address s))]));
          let s := setStep OtpStep s in
          let s := setCountdown 60 s in
          let s := setCanResend false s in
          ret s)
         (fun error =>
            perform alert (Js.lit "Error") (Api.handleApiError error);
            ret s);
     ret (setLoading false s))%async.

Definition handleOtpChange (value : jsstring) (index : nat) (s : Screen) : Screen :=
  setOtp (OtpInput.handleOtpChange value index (otp s)) s.

Definition handleVerifyOtp (s : Screen) : Async Screen :=
  let otpCode := concat (otp s) in
  if negb (length otpCode =? APP_CONFIG.OTP_LENGTH)%nat
  then
    (perform alert (Js.lit "Error") (Js.lit "Please enter the complete OTP code");
     ret s)%async
  else
    let s := setLoading true s in
    (await s <-
       tryCatch
         (perform Api.post (Js.lit "/auth/verify-reset-otp")
            (JsonBody (JObj [(Js.lit "email", JStr (address s));
                             (Js.lit "otp", JStr otpCode)]));
          let s := setVerifiedOtp otpCode s in
          let s := setStep NewPasswordStep s in
          ret s)
         (fun error =>
            perform alert (Js.lit "Error") (Api.handleApiError error);
            ret (setOtp OTPScreen.emptyOtp s));
     ret (setLoading false s))%async.

(** [handleResetPassword]; [web] is [Platform.OS === 'web'].  On the web
    the texts go through [window.alert], which has no title, and the
    navigation to the login follows at once; elsewhere the navigation is
    behind the OK button of the dialog. *)
Definition handleResetPassword (web : bool) (s : Screen) : Async Screen :=
  if loading s then ret s
  else
    let newErrors := newErrors s in
    if (0 <? size newErrors)%nat then ret (setErrors newErrors s)
    else
      let s := setLoading true s in
      let s := setErrors ∅ s in
      (perform
         tryCatch
           (perform Api.post (Js.lit "/auth/reset-password")
              (JsonBody (JObj [(Js.lit "email", JStr (address s));
                               (Js.lit "otp", JStr (verifiedOtp s));
                               (Js.lit "newPassword", JStr (newPassword s))]));
            if web then
              perform alert []
                (Js.lit "Password reset successful! Please login with your new password.");
              modify (pushUi (Navigate (Js.lit "Login") JUndefined))
            else
              alert (Js.lit "Password Reset Successful")
                (Js.lit "Your password has been reset. Please login with your new password."))
           (fun error =>
              if web then alert [] (Api.handleApiError error)
              else alert (Js.lit "Error") (Api.handleApiError error));
       ret (setLoading false s))%async.

Definition handleResendOtp (s : Screen) : Async Screen :=
  if negb (canResend s) then ret s
  else
    let s := setLoading true s in
    (await s <-
       tryCatch
         (perform Api.post (Js.lit "/auth/forgot-password")
            (JsonBody (JObj [(Js.lit "email", JStr (address s))]));
          perform alert (Js.lit "Success") (Js.lit "A new OTP has been sent to your email");
          let s := setCanResend false s in
          let s := setCountdown 60 s in
          let s := setOtp OTPScreen.emptyOtp s in
          ret s)
         (fun error =>
            perform alert (Js.lit "Error") (Api.handleApiError error);
            ret s);
     ret (setLoading false s))%async.

(** *** The handlers in two halves

    An [async] handler runs up to its [await] when the button is
    pressed, and from there on when the reply arrives.  In between the
    screen is rendered and takes events; the state setters of the second
    half work on the state of that moment, with the values the handler
    read when it began. *)

(** The request of [apiClient.post] goes out; the outcome is the one the
    adapter settles the promise with. *)
Definition send (path : jsstring) (body : Body) : Async (Outcome Response) :=
  fun w =>
    match Api.requestInterceptor
            {| method := POST; url := path; data := body;
               headers := Api.defaultHeaders |} w with
    | (Resolved config, w1) =>
        let (outcome, w2) := Api.dispatch config w1 in (Resolved outcome, w2)
    | (Rejected e, w1) => (Resolved (Rejected e), w1)
    end.

(** The outcome reaches the handler through the response interceptor. *)
Definition receive (outcome : Outcome Response) : Async Response :=
  match outcome with
  | Resolved r => Api.responseFulfilled r
  | Rejected e => Api.responseRejected e
  end.

(** A handler waiting at its [await], with what it holds from its first
    half. *)
Inductive Awaiting :=
| SendOtpAwaits (outcome : Outcome Response)
| VerifyOtpAwaits (otpCode : jsstring) (outcome : Outcome Response)
| ResetPasswordAwaits (outcome : Outcome Response)
| ResendOtpAwaits (outcome : Outcome Response).

Definition beginSendOtp (s : Screen) : Async (Screen * option Awaiting) :=
  if negb (Js.truthy (Js.trim (email s)))
  then ret (setErrors {[ Js.lit "email" := Js.lit "Email is required" ]} s, None)
  else if negb (Regex.test SignupScreen.emailPattern (email s))
  then ret (setErrors {[ Js.lit "email" := Js.lit "Invalid email format" ]} s, None)
  else
    let s := setLoading true s in
    let s := setErrors ∅ s in
    (await outcome <- send (Js.lit "/auth/forgot-password")
                        (JsonBody (JObj [(Js.lit "email", JStr (address s))]));
     ret (s, Some (SendOtpAwaits outcome)))%async.

Definition beginVerifyOtp (s : Screen) : Async (Screen * option Awaiting) :=
  let otpCode := concat (otp s) in
  if negb (length otpCode =? APP_CONFIG.OTP_LENGTH)%nat
  then
    (perform alert (Js.lit "Error") (Js.lit "Please enter the complete OTP code");
     ret (s, None))%async
  else
    let s := setLoading true s in
    (await outcome <- send (Js.lit "/auth/verify-reset-otp")
                        (JsonBody (JObj [(Js.lit "email", JStr (address s));
                                         (Js.lit "otp", JStr otpCode)]));
     ret (s, Some (VerifyOtpAwaits otpCode outcome)))%async.

Definition beginResetPassword (s : Screen) : Async (Screen * option Awaiting) :=
  if loading s then ret (s, None)
  else
    let newErrors := newErrors s in
    if (0 <? size newErrors)%nat then ret (setErrors newErrors s, None)
    else
      let s := setLoading true s in
      let s := setErrors ∅ s in
      (await outcome <- send (Js.lit "/auth/reset-password")
                          (JsonBody (JObj [(Js.lit "email", JStr (address s));
                                           (Js.lit "otp", JStr (verifiedOtp s));
                                           (Js.lit "newPassword", JStr (newPassword s))]));
       ret (s, Some (ResetPasswordAwaits outcome)))%async.

Definition beginResendOtp (s : Screen) : Async (Screen * option Awaiting) :=
  if negb (canResend s) then ret (s, None)
  else
    let s := setLoading true s in
    (await outcome <- send (Js.lit "/auth/forgot-password")
                        (JsonBody (JObj [(Js.lit "email", JStr (address s))]));
     ret (s, Some (ResendOtpAwaits outcome)))%async.

(** The second half of each handler, on the screen [s] of the moment the
    reply arrives. *)
Definition resume (web : bool) (a : Awaiting) (s : Screen) : Async Screen :=
  match a with
  | SendOtpAwaits outcome =>
      (await s <-
         tryCatch
           (perform receive outcome;
            let s := setStep OtpStep s in
            let s := setCountdown 60 s in
            let s := setCanResend false s in
            ret s)
           (fun error =>
              perform alert (Js.lit "Error") (Api.handleApiError error);
              ret s);
       ret (setLoading false s))%async
  | VerifyOtpAwaits otpCode outcome =>
      (await s <-
         tryCatch
           (perform receive outcome;
            let s := setVerifiedOtp otpCode s in
            let s := setStep NewPasswordStep s in
            ret s)
           (fun error =>
              perform alert (Js.lit "Error") (Api.handleApiError error);
              ret (setOtp OTPScreen.emptyOtp s));
       ret (setLoading false s))%async
  | ResetPasswordAwaits outcome =>
      (perform
         tryCatch
           (perform receive outcome;
            if web then
              perform alert []
                (Js.lit "Password reset successful! Please login with your new password.");
              modify (pushUi (Navigate (Js.lit "Login") JUndefined))
            else
              alert (Js.lit "Password Reset Successful")
                (Js.lit "Your password has been reset. Please login with your new password."))
           (fun error =>
              if web then alert [] (Api.handleApiError error)
              else alert (Js.lit "Error") (Api.handleApiError error));
       ret (setLoading false s))%async
  | ResendOtpAwaits outcome =>
      (await s <-
         tryCatch
           (perform receive outcome;
            perform alert (Js.lit "Success") (Js.lit "A new OTP has been sent to your email");
            let s := setCanResend false s in
            let s := setCountdown 60 s in
            let s := setOtp OTPScreen.emptyOtp s in
            ret s)
           (fun error =>
              perform alert (Js.lit "Error") (Api.handleApiError error);
              ret s);
       ret (setLoading false s))%async
  end.

(** A handler whose reply comes before anything else happens. *)
Definition atOnce (web : bool) (begun : Async (Screen * option Awaiting))
    : Async Screen :=
  (await half <- begun;
   match half.2 with
   | Some a => resume web a half.1
   | None => ret half.1
   end)%async.

(** *** The screen in use *)

(** The screen and the handlers that wait for a reply. *)
Record Session := {
  screen : Screen;
  awaiting : list Awaiting;
}.

Definition opened : Session := {| screen := initial; awaiting := [] |}.

Definition shows (s : Screen) (t : Session) : Session :=
  {| screen := s; awaiting := awaiting t |}.

(** What the user, the clock and the network can do to the screen;
    [Reply k] is the reply to the [k]-th of the waiting handlers. *)
Inductive Event :=
| TypeEmail (value : jsstring)
| PressSend
| TypeCode (value : jsstring) (index : nat)
| PressVerify
| PressResend
| TypeNewPassword (value : jsstring)
| TypeConfirmPassword (value : jsstring)
| PressReset
| PressBack
| Second
| Reply (k : nat).

(** The first half of a handler ran; the handler waits if it sent a
    request. *)
Definition begun (t : Session) (half : Async (Screen * option Awaiting))
    : Async Session :=
  (await half <- half;
   ret {| screen := half.1;
          awaiting := match half.2 with
                      | Some a => awaiting t ++ [a]
                      | None => awaiting t
                      end |})%async.

(** The handler behind an event on the screen as it is rendered: each
    step shows its own inputs and button only, the cells are those of
    [otp], and the resend link is there when [canResend] holds and
    [loading] does not.  The back arrow and the inputs are there whether
    a request is pending or not; so are the buttons, as far as this
    screen says.  An event on something that is not rendered does
    nothing. *)
Definition handler (web : bool) (e : Event) (t : Session) : Async Session :=
  let s := screen t in
  match e, step s with
  | TypeEmail value, EmailStep => ret (shows (setEmail value s) t)
  | PressSend, EmailStep => begun t (beginSendOtp s)
  | TypeCode value index, OtpStep =>
      if (index <? length (otp s))%nat
      then ret (shows (handleOtpChange (OtpInput.digitsOnly value) index s) t)
      else ret t
  | PressVerify, OtpStep => begun t (beginVerifyOtp s)
  | PressResend, OtpStep =>
      if canResend s && negb (loading s) then begun t (beginResendOtp s) else ret t
  | TypeNewPassword value, NewPasswordStep => ret (shows (setNewPassword value s) t)
  | TypeConfirmPassword value, NewPasswordStep =>
      ret (shows (setConfirmPassword value s) t)
  | PressReset, NewPasswordStep => begun t (beginResetPassword s)
  | PressBack, _ => ret (shows (back s) t)
  | Second, _ => ret (shows (second s) t)
  | Reply k, _ =>
      match awaiting t !! k with
      | Some a =>
          (await s <- resume web a s;
           ret {| screen := s; awaiting := delete k (awaiting t) |})%async
      | None => ret t
      end
  | _, _ => ret t
  end.

(** One event: its handler, then the countdown effect of the render that
    follows. *)
Definition fire (web : bool) (e : Event) (t : Session) : Async Session :=
  (await t <- handler web e t; ret (shows (effect (screen t)) t))%async.

(** The events of a session in order. *)
Fixpoint play (web : bool) (events : list Event) (t : Session) : Async Session :=
  match events with
  | [] => ret t
  | e :: rest => bind (fire web e t) (play web rest)
  end.

End WithEnv.
End ForgotPasswordScreen.

(** ** screens/main/ProfileScreen.tsx *)

Module ProfileScreen.

Record ProfileData := {
  firstName : jsstring;
  lastName : jsstring;
  email : jsstring;
  profileImageUrl : json;
}.

Record PasswordData := {
  currentPassword : jsstring;
  newPassword : jsstring;
  confirmPassword : jsstring;
}.

(** The state cells the handlers below read or write. *)
Record Screen := {
  profileData : ProfileData;
  passwordData : PasswordData;
  showPasswordFields : bool;
  updating : bool;
}.

Definition setUpdating (b : bool) (s : Screen) : Screen :=
  {| profileData := profileData s; passwordData := passwordData s;
     showPasswordFields := showPasswordFields s; updating := b |}.

Definition setPasswordData (p : PasswordData) (s : Screen) : Screen :=
  {| profileData := profileData s; passwordData := p;
     showPasswordFields := showPasswordFields s; updating := updating s |}.

Definition setShowPasswordFields (b : bool) (s : Screen) : Screen :=
  {| profileData := profileData s; passwordData := passwordData s;
     showPasswordFields := b; updating := updating s |}.

Definition emptyPasswordData : PasswordData :=
  {| currentPassword := []; newPassword := []; confirmPassword := [] |}.

(** [error.response?.data?.message] of a caught value. *)
Definition served (error : Exn) : json :=
  match error with
  | ThrownAxios e =>
      match error_response e with
      | Some r => Json.get (Js.lit "message") (payload r)
      | None => JUndefined
      end
  | ThrownError _ => JUndefined
  end.

Section WithEnv.
Context `{Runtime} `{Backend}.

(** [Alert.alert('Error', error.response?.data?.message || fallback)]; the
    dialog shows the value as a string. *)
Definition alertFailure (error : Exn) (fallback : jsstring) : Async unit :=
  alert (Js.lit "Error") (toString (Json.or (served error) (JStr fallback))).

(** The form data of [updateProfile]. *)
Definition profileForm (p : ProfileData) : list (jsstring * jsstring) :=
  [(Js.lit "firstName", Js.trim (firstName p));
   (Js.lit "lastName", Js.trim (lastName p));
   (Js.lit "email", Js.trim (email p))].

Definition updateProfile (s : Screen) : Async Screen :=
  let profileData := profileData s in
  if negb (Js.truthy (Js.trim (firstName profileData)))
     || negb (Js.truthy (Js.trim (lastName profileData)))
     || negb (Js.truthy (Js.trim (email profileData)))
  then (perform alert (Js.lit "Error") (Js.lit "Please fill in all fields"); ret s)%async
  else
    let s := setUpdating true s in
    (perform
       tryCatch
         (await response <-
            ApiVerbs.putWith (Js.lit "/api/auth/update-profile")
              (FormData (profileForm profileData))
              {[ Api.ContentType := Js.lit "multipart/form-data" ]};
          await updated <- member (Js.lit "user") (payload response);
          if Json.truthy updated
          then
            perform AuthContextMore.refreshUser;
            alert (Js.lit "Success") (Js.lit "Profile updated successfully")
          else ret tt)
         (fun error => alertFailure error (Js.lit "Failed to update profile"));
     ret (setUpdating false s))%async.

Definition changePassword (s : Screen) : Async Screen :=
  let passwordData := passwordData s in
  if negb (Js.truthy (currentPassword passwordData))
     || negb (Js.truthy (newPassword passwordData))
     || negb (Js.truthy (confirmPassword passwordData))
  then
    (perform alert (Js.lit "Error") (Js.lit "Please fill in all password fields");
     ret s)%async
  else if negb (bool_decide (newPassword passwordData = confirmPassword passwordData))
  then (perform alert (Js.lit "Error") (Js.lit "New passwords do not match"); ret s)%async
  else if (length (newPassword passwordData) <? 8)%nat
  then
    (perform alert (Js.lit "Error")
       (Js.lit "New password must be at least 8 characters long");
     ret s)%async
  else
    let s := setUpdating true s in
    (await s <-
       tryCatch
         (perform ApiVerbs.put (Js.lit "/api/auth/change-password")
            (JsonBody
               (JObj [(Js.lit "currentPassword", JStr (currentPassword passwordData));
                      (Js.lit "newPassword", JStr (newPassword passwordData))]));
          perform alert (Js.lit "Success") (Js.lit "Password changed successfully");
          let s := setPasswordData emptyPasswordData s in
          let s := setShowPasswordFields false s in
          ret s)
         (fun error =>
            perform alertFailure error (Js.lit "Failed to change password");
            ret s);
     ret (setUpdating false s))%async.

(** The Delete button of the dialog [deleteProfilePicture] opens. *)
Definition deleteProfilePicture_onPress (s : Screen) : Async Screen :=
  let s := setUpdating true s in
  (perform
     tryCatch
       (perform ApiVerbs.delete (Js.lit "/api/auth/delete-profile-picture");
        perform AuthContextMore.refreshUser;
        alert (Js.lit "Success") (Js.lit "Profile picture deleted successfully"))
       (fun error => alertFailure error (Js.lit "Failed to delete profile picture"));
   ret (setUpdating false s))%async.

End WithEnv.
End ProfileScreen.

(** ** [Math.round] *)

Module Math.

(** [Math.round(x)]: the integer closest to [x], the one towards +∞ when
    two are equally close; [x] itself when it is an integer, an infinity
    or NaN, and [-0] for a negative [x] that rounds to zero.  The integer
    is computed exactly from the value [±m·2^e] of [x]. *)
Definition round (x : float) : float :=
  match Prim2SF x with
  | S754_finite negative m e =>
      if 0 <=? e then x
      else
        let n := if negative then Z.neg m else Z.pos m in
        let d := 2 ^ (- e) in
        let r := (2 * n + d) / (2 * d) in
        if (r =? 0) && negative then (-0)%float else Num.ofZ r
  | _ => x
  end.

(** [Math.floor(x)]: the largest integer not above [x]; [x] itself when
    it is an integer, a zero, an infinity or NaN. *)
Definition floor (x : float) : float :=
  match Prim2SF x with
  | S754_finite negative m e =>
      if 0 <=? e then x
      else
        let n := if negative then Z.neg m else Z.pos m in
        Num.ofZ (n / 2 ^ (- e))
  | _ => x
  end.

End Math.

(** ** StepCounterScreen: the duration timer *)

Module StepCounterTimer.
Import StepCounter.

Definition setDuration (d : Z) (s : Screen) : Screen :=
  {| isCounting := isCounting s; sessionSteps := sessionSteps s;
     startTime := startTime s; duration := d;
     subscribed := subscribed s; lastZ := lastZ s;
     stepState := stepState s; lastStepTime := lastStepTime s |}.

(** The callback of the one-second interval; [start] is the start time
    the effect that set the interval up was run with, [now] the value of
    [new Date().getTime()].  Both are integers below 2^53 in size, so
    their difference as a number is the number of their difference. *)
Definition onInterval (start now : Z) (s : Screen) : Screen :=
  setDuration (Num.toZ (Math.floor (Num.ofZ (now - start) / 1000)%float)) s.

(** What reaches the component while a session runs: a reading of the
    accelerometer, or the interval firing, each with the clock of that
    moment.  The interval stands while [isCounting] is true and a start
    time is set. *)
Inductive Event :=
| Reading (now : Z) (data : Sample)
| Interval (now : Z).

Definition deliver (e : Event) (s : Screen) : Screen :=
  match e with
  | Reading now data => listener now data s
  | Interval now =>
      match startTime s with
      | Some start => if isCounting s then onInterval start now s else s
      | None => s
      end
  end.

Definition live (events : list Event) (s : Screen) : Screen :=
  fold_left (fun acc e => deliver e acc) events s.

End StepCounterTimer.

(** ** ExercisePlansScreen: choosing a plan and the progress figure *)

Module ExercisePlansProgress.
Import ExercisePlansScreen.

Definition setSelectedPlan (level : option SeverityLevel) (s : Screen) : Screen :=
  {| selectedPlan := level; plans := plans s;
     completedExercises := completedExercises s;
     saving := saving s; lastSaved := lastSaved s;
     showSaveSuccess := showSaveSuccess s |}.

Definition sameLevel (a b : SeverityLevel) : bool :=
  match a, b with
  | Beginning, Beginning | Moderate, Moderate | Severe, Severe => true
  | _, _ => false
  end.

(** What [handleSelectPlan] does at once, and what the Change button of
    its dialog would do when it opens one. *)
Record Selection := {
  now : Screen;
  onChange : option Screen;
}.

Definition handleSelectPlan (level : SeverityLevel) (s : Screen) : Selection :=
  let change := setCompletedExercises [] (setSelectedPlan (Some level) s) in
  match selectedPlan s with
  | Some selected =>
      if negb (sameLevel selected level) && (0 <? length (completedExercises s))%nat
      then {| now := s; onChange := Some change |}
      else {| now := change; onChange := None |}
  | None => {| now := change; onChange := None |}
  end.

(** [getCompletionPercentage] *)
Definition getCompletionPercentage (s : Screen) : float :=
  match selectedPlan s, plans s with
  | Some level, Some allPlans =>
      let total := length (exercises (planOf allPlans level)) in
      if (0 <? total)%nat
      then Math.round
             (Num.ofZ (Z.of_nat (length (completedExercises s)))
              / Num.ofZ (Z.of_nat total) * 100)%float
      else 0%float
  | _, _ => 0%float
  end.

End ExercisePlansProgress.

(** * Properties *)

(** ** Strings *)

(** Checking a property on every integer of a range, by halving. *)

Module Tables.




End Tables.

Module JsFacts.
Import Js.

Lemma truthy_true (s : jsstring) : truthy s = true <-> s ≠ [].
Proof. destruct s; cbn; split; intros; congruence. Qed.

Lemma truthy_false (s : jsstring) : truthy s = false <-> s = [].
Proof. destruct s; cbn; split; intros; congruence. Qed.

Lemma isLineTerminator_isWhiteSpace c :
  isLineTerminator c = true -> isWhiteSpace c = true.
Proof.
  unfold isLineTerminator, isWhiteSpace. intros Hc.
  repeat (apply orb_prop in Hc as [Hc|Hc]);
    apply N.eqb_eq in Hc; subst c; reflexivity.
Qed.

Lemma trimStart_nil s : trimStart s = [] <-> forallb isWhiteSpace s = true.
Proof.
  induction s as [|c t IH]; cbn; [tauto|].
  destruct (isWhiteSpace c); cbn; [exact IH|]. split; intros; congruence.
Qed.

(** Either nothing is left, or what is left starts with a character that
    is not white space. *)
Lemma trimStart_head s :
  trimStart s = []
  \/ exists c t, trimStart s = c :: t /\ isWhiteSpace c = false.
Proof.
  induction s as [|c t IH]; cbn; [by left|].
  destruct (isWhiteSpace c) eqn:E; [exact IH|]. right. eauto.
Qed.

Lemma forallb_trimStart s :
  forallb isWhiteSpace (trimStart s) = forallb isWhiteSpace s.
Proof.
  induction s as [|c t IH]; cbn; [reflexivity|].
  destruct (isWhiteSpace c) eqn:E; cbn; [exact IH|]. by rewrite E.
Qed.

Lemma forallb_rev {A} (p : A -> bool) l : forallb p (rev l) = forallb p l.
Proof.
  induction l as [|a l IH]; [reflexivity|].
  cbn. rewrite forallb_app, IH. cbn. rewrite andb_true_r. apply andb_comm.
Qed.

(** A string trims to the empty string exactly when it is all white space. *)
Lemma trim_nil s : trim s = [] <-> forallb isWhiteSpace s = true.
Proof.
  unfold trim, trimEnd.
  rewrite <- (forallb_trimStart s), <- (forallb_rev _ (trimStart s)).
  rewrite <- trimStart_nil. split; intros E.
  - apply (f_equal (@rev _)) in E. by rewrite rev_involutive in E.
  - by rewrite E.
Qed.

Lemma trim_truthy s :
  truthy (trim s) = true <-> existsb (fun c => negb (isWhiteSpace c)) s = true.
Proof.
  rewrite truthy_true, trim_nil.
  induction s as [|c t IH]; cbn; [split; [congruence|discriminate]|].
  destruct (isWhiteSpace c); cbn; [exact IH|]. split; [reflexivity|discriminate].
Qed.

Lemma trimStart_no_space s : existsb Js.isWhiteSpace s = false -> Js.trimStart s = s.
Proof.
  destruct s as [|ch t]; cbn; [reflexivity|].
  by intros [-> _]%orb_false_elim.
Qed.

Lemma existsb_rev {A} (p : A -> bool) l : existsb p (rev l) = existsb p l.
Proof.
  induction l as [|a l IH]; [reflexivity|].
  cbn. rewrite existsb_app, IH. cbn. rewrite orb_false_r. apply orb_comm.
Qed.

(** Trimming a string without white space changes nothing. *)
Lemma trim_no_space s : existsb Js.isWhiteSpace s = false -> Js.trim s = s.
Proof.
  intros Hs. unfold Js.trim, Js.trimEnd.
  rewrite (trimStart_no_space s Hs), trimStart_no_space, rev_involutive; [done|].
  by rewrite existsb_rev.
Qed.

End JsFacts.

(** ** Regular expressions *)

Module RegexFacts.
Import Regex.

(** [.*] followed by one character of class [c]: some character of [c]
    is reached without passing a line terminator. *)
Fixpoint reach (c : cls) (s : jsstring) : bool :=
  match s with
  | [] => false
  | ch :: t => c ch || (dot ch && reach c t)
  end.

Lemma exec_lookahead a k b s :
  exec (Lookahead a k) b s = exec a b s && exec k b s.
Proof. reflexivity. Qed.

Lemma exec_star c k b s : exec (Star c k) b s = star c (exec k) b s.
Proof. reflexivity. Qed.

Lemma exec_plus c k b s :
  exec (Plus c k) b s =
    match s with ch :: t => c ch && star c (exec k) false t | [] => false end.
Proof. reflexivity. Qed.

Lemma exec_one c b s :
  exec (One c Accept) b s = match s with ch :: _ => c ch | [] => false end.
Proof. destruct s; cbn; [reflexivity|apply andb_true_r]. Qed.

Lemma scan_one c b s : scan (One c Accept) b s = existsb c s.
Proof.
  revert b. induction s as [|ch t IH]; intros b; [reflexivity|].
  cbn [scan existsb]. rewrite exec_one, IH. reflexivity.
Qed.

Lemma star_dot_one c b s : star dot (exec (One c Accept)) b s = reach c s.
Proof.
  revert b. induction s as [|ch t IH]; intros b; [reflexivity|].
  cbn [star reach]. rewrite exec_one, IH. reflexivity.
Qed.

Lemma reach_existsb c s : reach c s = true -> existsb c s = true.
Proof.
  induction s as [|ch t IH]; cbn; [congruence|].
  destruct (c ch); cbn; [reflexivity|]. destruct (dot ch); cbn; [exact IH|congruence].
Qed.

Lemma reach_one_line c s : forallb dot s = true -> reach c s = existsb c s.
Proof.
  induction s as [|ch t IH]; cbn; [reflexivity|].
  intros [Hd Ht]%andb_prop. rewrite Hd, (IH Ht). reflexivity.
Qed.

(** With the start assertion in front, only position 0 can match. *)
Lemma scan_anchored k s : test (AssertStart k) s = exec k true s.
Proof.
  unfold test. assert (Hf : forall t, scan (AssertStart k) false t = false).
  { induction t as [|ch t IH]; cbn; [reflexivity|exact IH]. }
  destruct s as [|ch t]; cbn; [apply orb_false_r|]. rewrite Hf. apply orb_false_r.
Qed.

Definition isNil (s : jsstring) : bool := match s with [] => true | _ :: _ => false end.

(** The repetitions [c*] takes are a prefix of class [c]; the rest of the
    pattern runs on what follows. *)
Lemma star_spec c k s : forall b,
  star c k b s = true <->
    exists pre post, s = pre ++ post /\ forallb c pre = true
                     /\ k (b && isNil pre) post = true.
Proof.
  induction s as [|ch t IH]; intros b; cbn [star].
  - rewrite orb_false_r. split.
    + intros E. exists [], []. by rewrite andb_true_r.
    + intros (pre & post & Hs & _ & E).
      symmetry in Hs. apply app_eq_nil in Hs as [-> ->]. by rewrite andb_true_r in E.
  - rewrite orb_true_iff, andb_true_iff, IH. split.
    + intros [E|(Hc & pre & post & -> & Hp & E)].
      * exists [], (ch :: t). by rewrite andb_true_r.
      * exists (ch :: pre), post. cbn. rewrite Hc, Hp, andb_false_r. done.
    + intros (pre & post & Hs & Hp & E). destruct pre as [|ch' pre].
      * left. cbn in Hs. subst post. by rewrite andb_true_r in E.
      * right. cbn in Hs, Hp. injection Hs as -> ->.
        apply andb_prop in Hp as [Hc Hp]. split; [exact Hc|].
        exists pre, post. rewrite andb_false_r in E. done.
Qed.

Lemma plus_spec c k b s :
  exec (Plus c k) b s = true <->
    exists pre post, pre ≠ [] /\ s = pre ++ post /\ forallb c pre = true
                     /\ exec k false post = true.
Proof.
  rewrite exec_plus. destruct s as [|ch t].
  - split; [discriminate|]. intros (pre & post & Hne & Hs & _).
    symmetry in Hs. apply app_eq_nil in Hs as [-> _]. done.
  - rewrite andb_true_iff, star_spec. split.
    + intros (Hc & pre & post & -> & Hp & E).
      exists (ch :: pre), post. cbn. rewrite Hc, Hp. done.
    + intros (pre & post & Hne & Hs & Hp & E). destruct pre as [|ch' pre]; [done|].
      cbn in Hs, Hp. injection Hs as -> ->. apply andb_prop in Hp as [Hc Hp].
      split; [exact Hc|]. by exists pre, post.
Qed.

Lemma one_spec c k b s :
  exec (One c k) b s = true <->
    exists ch t, s = ch :: t /\ c ch = true /\ exec k false t = true.
Proof.
  destruct s as [|ch t]; cbn [exec].
  - split; [discriminate|]. by intros (? & ? & ? & _).
  - rewrite andb_true_iff. split.
    + intros [Hc E]. by exists ch, t.
    + intros (ch' & t' & Hs & Hc & E). by injection Hs as -> ->.
Qed.

Lemma end_spec b s : exec (AssertEnd Accept) b s = true <-> s = [].
Proof. destruct s; cbn; split; congruence. Qed.

End RegexFacts.

(** ** The pedometer *)

Module StepCounterFacts.
Import StepCounter.

(** The clock value of the last sample of [stream] at which the count went
    up, when there is one. *)
Fixpoint lastCounted (stream : list (Z * Sample)) (s : Screen) : option Z :=
  match stream with
  | [] => None
  | e :: rest =>
      let s' := listener (fst e) (snd e) s in
      match lastCounted rest s' with
      | Some t => Some t
      | None => if sessionSteps s' =? sessionSteps s + 1 then Some (fst e) else None
      end
  end.

Ltac listener_cases s data now :=
  unfold listener;
  destruct (stepState s) eqn:?;
  destruct (Num.gt (acceleration data) stepThreshold) eqn:?;
  destruct (Num.lt (acceleration data) (- stepThreshold)%float) eqn:?;
  destruct (Z.gtb_spec (now - lastStepTime s) minStepInterval);
  cbn [andb isUp isDown setStepState setLastStepTime setLastZ addStep
       stepState sessionSteps lastStepTime lastZ].

Lemma listener_steps now data s :
  sessionSteps (listener now data s) = sessionSteps s
  \/ sessionSteps (listener now data s) = sessionSteps s + 1.
Proof. listener_cases s data now; auto. Qed.

Lemma listener_steps_mono now data s :
  sessionSteps s <= sessionSteps (listener now data s).
Proof. destruct (listener_steps now data s); lia. Qed.

Lemma listener_lastStepTime now data s :
  lastStepTime (listener now data s) =
    if sessionSteps (listener now data s) =? sessionSteps s + 1
    then now else lastStepTime s.
Proof.
  listener_cases s data now;
    repeat match goal with
      | |- context [?a =? ?b] => destruct (Z.eqb_spec a b)
      end; (reflexivity || lia).
Qed.

Lemma run_app pre post s : run (pre ++ post) s = run post (run pre s).
Proof. apply fold_left_app. Qed.

Lemma run_cons e rest s : run (e :: rest) s = run rest (listener (fst e) (snd e) s).
Proof. reflexivity. Qed.

Lemma run_steps_mono stream : forall s, sessionSteps s <= sessionSteps (run stream s).
Proof.
  induction stream as [|e rest IH]; intros s; [cbn; lia|].
  rewrite run_cons. pose proof (listener_steps_mono (fst e) (snd e) s).
  specialize (IH (listener (fst e) (snd e) s)). lia.
Qed.

Lemma run_lastStepTime stream : forall s,
  lastStepTime (run stream s) = default (lastStepTime s) (lastCounted stream s).
Proof.
  induction stream as [|e rest IH]; intros s; [reflexivity|].
  rewrite run_cons, IH. cbn [lastCounted].
  destruct (lastCounted rest _); [reflexivity|].
  rewrite listener_lastStepTime.
  destruct (_ =? _); reflexivity.
Qed.

(** Counted steps are more than [minStepInterval] apart, so the count
    is bounded by the time elapsed: it stays far below 2^53, where
    integer-valued numbers stop being exact. *)
Lemma listener_elapsed now data s t0 :
  (minStepInterval + 1) * sessionSteps s <= lastStepTime s - t0 ->
  (minStepInterval + 1) * sessionSteps (listener now data s)
    <= lastStepTime (listener now data s) - t0.
Proof. intros Hs. listener_cases s data now; unfold minStepInterval in *; lia. Qed.

Lemma run_elapsed stream : forall s t0,
  (minStepInterval + 1) * sessionSteps s <= lastStepTime s - t0 ->
  (minStepInterval + 1) * sessionSteps (run stream s)
    <= lastStepTime (run stream s) - t0.
Proof.
  induction stream as [|e rest IH]; intros s t0 Hs; [exact Hs|].
  rewrite run_cons. apply IH, listener_elapsed, Hs.
Qed.

(** A session that starts at clock [t0] has counted at most
    [(last - t0) / 251] steps when its last counted step came at clock
    [last]. *)
Lemma session_steps_bounded date t0 s0 stream :
  let s := run stream (startCounting date t0 s0) in
  (minStepInterval + 1) * sessionSteps s <= lastStepTime s - t0.
Proof. apply run_elapsed. cbn. lia. Qed.

Lemma lastCounted_clock stream : forall s t,
  lastCounted stream s = Some t -> t ∈ List.map fst stream.
Proof.
  induction stream as [|e rest IH]; intros s t; cbn [lastCounted]; [discriminate|].
  destruct (lastCounted rest _) as [u|] eqn:E.
  - intros [= ->]. cbn [List.map]. apply list_elem_of_further, (IH _ _ E).
  - destruct (_ =? _); [|discriminate]. intros [= <-]. cbn [List.map].
    apply list_elem_of_here.
Qed.

(** Clock values are time values of [Date], at most 8.64e15 in absolute
    value.  Within that range a session never reaches 2^53 steps, so the
    count is always a number that [prev + 1] increments exactly. *)
Lemma session_steps_exact date t0 s0 stream :
  Z.abs t0 <= 8640000000000000 ->
  (forall t, t ∈ List.map fst stream -> Z.abs t <= 8640000000000000) ->
  sessionSteps (run stream (startCounting date t0 s0)) < 2 ^ 53.
Proof.
  intros H0 Hs.
  pose proof (session_steps_bounded date t0 s0 stream) as Hb. cbv zeta in Hb.
  rewrite run_lastStepTime in Hb. cbn [startCounting lastStepTime] in Hb.
  unfold minStepInterval in Hb. change (2 ^ 53) with 9007199254740992.
  destruct (lastCounted stream _) as [t|] eqn:E; cbn [default] in Hb.
  - apply lastCounted_clock, Hs in E. unfold id in Hb. lia.
  - unfold id in Hb. lia.
Qed.

(** C1.  On every sample the listener computes
    [acceleration = sqrt(x*x + y*y + z*z) - 1.0] and moves a two-state
    machine: the state goes from [down] to [up] exactly when the
    acceleration exceeds [+0.08], and from [up] to [down] exactly when it
    is below [-0.08].  The count goes up by one exactly on an
    [up]-to-[down] transition that comes more than 250 ms after
    [lastStepTime]; a falling edge within that period puts the state back
    to [down] and counts nothing.  Along every sample stream of a session
    [lastStepTime] is the clock value of the last counted step (the clock
    value read by [startCounting] while no step has been counted). *)
Theorem step_detection_state_machine
    (date t0 : Z) (s0 : Screen) (stream : list (Z * Sample))
    (now : Z) (data : Sample) :
  let start := startCounting date t0 s0 in
  let s := run stream start in
  let s' := listener now data s in
  let a := (PrimFloat.sqrt (x data * x data + y data * y data + z data * z data) - 1.0)%float in
  let rising := Num.gt a 0.08%float = true in
  let falling := Num.lt a (-0.08)%float = true in
  let since := now - default t0 (lastCounted stream start) in
  lastZ s' = a
  /\ (stepState s = down /\ stepState s' = up <-> stepState s = down /\ rising)
  /\ (stepState s = up /\ stepState s' = down <-> stepState s = up /\ falling)
  /\ (sessionSteps s' = sessionSteps s + 1
        <-> stepState s = up /\ falling /\ since > 250)
  /\ (sessionSteps s' = sessionSteps s
        <-> ~ (stepState s = up /\ falling /\ since > 250))
  /\ (stepState s = up /\ falling /\ since <= 250 ->
        stepState s' = down /\ sessionSteps s' = sessionSteps s
        /\ lastStepTime s' = lastStepTime s)
  /\ (sessionSteps s' = sessionSteps s + 1 -> lastStepTime s' = now).
Proof.
  intros start s s' a rising falling since.
  assert (Hlast : lastStepTime s = default t0 (lastCounted stream start))
    by apply run_lastStepTime.
  subst since. rewrite <- Hlast. clear Hlast.
  subst s' a rising falling. generalize s. clear. intros s.
  change (PrimFloat.sqrt (x data * x data + y data * y data + z data * z data) - 1.0)%float
    with (acceleration data).
  change 0.08%float with stepThreshold.
  change (-0.08)%float with (- stepThreshold)%float.
  listener_cases s data now; unfold minStepInterval in *;
    repeat split; intros;
    repeat match goal with H : _ /\ _ |- _ => destruct H end;
    first [ reflexivity | congruence | lia
          | intros [? _]; congruence
          | intros (_ & ? & _); congruence
          | intros (_ & _ & ?); lia
          | exfalso;
            match goal with
            | H : ~ _ |- _ => apply H; repeat split; (reflexivity || lia)
            end ].
Qed.

(** C3.  [startCounting] puts the count at 0, every call of the listener
    leaves it unchanged or adds exactly 1, and so along every sample
    stream of an active session the count is non-negative and never
    decreases. *)
Theorem session_steps_monotonic
    (date t0 : Z) (s0 : Screen) (pre post : list (Z * Sample))
    (now : Z) (data : Sample) (s : Screen) :
  sessionSteps (startCounting date t0 s0) = 0
  /\ (sessionSteps (listener now data s) = sessionSteps s
      \/ sessionSteps (listener now data s) = sessionSteps s + 1)
  /\ 0 <= sessionSteps (run pre (startCounting date t0 s0))
  /\ sessionSteps (run pre (startCounting date t0 s0))
      <= sessionSteps (run (pre ++ post) (startCounting date t0 s0)).
Proof.
  split; [reflexivity|]. split; [apply listener_steps|]. split.
  - apply (run_steps_mono pre (startCounting date t0 s0)).
  - rewrite run_app. apply run_steps_mono.
Qed.

End StepCounterFacts.

(** ** The figures the pedometer reports *)

Module StepReportFacts.
Import StepCounter Tables.



(** The session limit of the table below: 131 072 steps, some 100 km. *)
Definition limit : positive := 131072.









Section WithRuntime.
Context `{Runtime}.

End WithRuntime.




End StepReportFacts.

(** ** The shared API client *)

Module ApiFacts.
Import Api.

(** Storage with both credential keys removed. *)
Definition clearCredentials (st : gmap jsstring jsstring) : gmap jsstring jsstring :=
  delete STORAGE_KEYS.USER (delete STORAGE_KEYS.TOKEN st).

(** The configuration the request interceptor resolves with, as a
    function of the storage it reads. *)
Definition intercepted (st : gmap jsstring jsstring) (config : Request) : Request :=
  let config1 :=
    match st !! STORAGE_KEYS.TOKEN with
    | Some t =>
        if Js.truthy t
        then setHeaders (<[Authorization := Js.lit "Bearer " ++ t]> (headers config)) config
        else config
    | None => config
    end in
  if isFormData (data config1)
  then setHeaders (delete ContentType (headers config1)) config1
  else config1.

(** The errors axios rejects with. *)
Definition statusError (r : Response) : Exn :=
  ThrownAxios
    {| error_message := Js.lit "Request failed with status code " ++ Js.ofZ (status r);
       error_response := Some r |}.

Definition networkError (m : jsstring) : Exn :=
  ThrownAxios {| error_message := m; error_response := None |}.

Definition is2xx (r : Response) : bool := (200 <=? status r) && (status r <? 300).

Lemma clearCredentials_token st : clearCredentials st !! STORAGE_KEYS.TOKEN = None.
Proof.
  unfold clearCredentials. rewrite lookup_delete_ne by done. apply lookup_delete_eq.
Qed.

Lemma clearCredentials_user st : clearCredentials st !! STORAGE_KEYS.USER = None.
Proof. apply lookup_delete_eq. Qed.

Lemma clearCredentials_other st k :
  k ≠ STORAGE_KEYS.TOKEN -> k ≠ STORAGE_KEYS.USER ->
  clearCredentials st !! k = st !! k.
Proof. intros. unfold clearCredentials. by rewrite !lookup_delete_ne. Qed.

Lemma multiRemove_credentials w :
  AsyncStorage.multiRemove [STORAGE_KEYS.TOKEN; STORAGE_KEYS.USER] w
  = (Resolved tt, setStorage (clearCredentials (storage w)) w).
Proof. reflexivity. Qed.

Lemma responseRejected_eq error w :
  responseRejected error w =
    (Rejected error,
     if decide (statusOf error = Some 401)
     then setStorage (clearCredentials (storage w)) w else w).
Proof. unfold responseRejected, bind. destruct (decide _); reflexivity. Qed.

Lemma requestInterceptor_eq config w :
  requestInterceptor config w = (Resolved (intercepted (storage w) config), w).
Proof. reflexivity. Qed.

Lemma intercepted_authorization st config :
  headers (intercepted st config) !! Authorization =
    match st !! STORAGE_KEYS.TOKEN with
    | Some t =>
        if Js.truthy t then Some (Js.lit "Bearer " ++ t)
        else headers config !! Authorization
    | None => headers config !! Authorization
    end.
Proof.
  unfold intercepted.
  assert (Hd : forall c : Request,
    headers (if isFormData (data c)
             then setHeaders (delete ContentType (headers c)) c else c)
      !! Authorization = headers c !! Authorization).
  { intros c. destruct (isFormData (data c)); [|reflexivity].
    cbn [setHeaders headers]. by rewrite lookup_delete_ne. }
  rewrite Hd. destruct (st !! STORAGE_KEYS.TOKEN) as [t|]; [|reflexivity].
  destruct (Js.truthy t); [|reflexivity].
  cbn [setHeaders headers]. apply lookup_insert_eq.
Qed.

Section WithBackend.
Context `{Backend}.

(** What [request] does, in one equation: the intercepted request goes
    on the wire; a 2xx reply resolves; any other reply and a missing
    reply reject, and the credentials go exactly for status 401. *)
Lemma request_eq config w :
  let sent := intercepted (storage w) config in
  let w1 := pushWire sent w in
  request config w =
    match respond (wire w) sent with
    | Answered r =>
        if is2xx r
        then (Resolved r, w1)
        else (Rejected (statusError r),
              if decide (status r = 401)
              then setStorage (clearCredentials (storage w)) w1 else w1)
    | NoResponse m => (Rejected (networkError m), w1)
    end.
Proof.
  intros sent w1.
  assert (Hi : requestInterceptor config w = (Resolved sent, w)) by reflexivity.
  unfold request, bind. rewrite Hi. unfold dispatch, is2xx. fold w1.
  destruct (respond (wire w) sent) as [r|m]; [|reflexivity].
  destruct ((200 <=? status r) && (status r <? 300)) eqn:E; [reflexivity|].
  rewrite responseRejected_eq.
  cbn [statusOf statusError error_response fmap option_fmap option_map].
  f_equal. destruct (decide (status r = 401)) as [->|Hne].
  - rewrite decide_True by reflexivity. reflexivity.
  - rewrite decide_False by congruence. reflexivity.
Qed.

Lemma request_wire config w :
  wire (request config w).2 = wire w ++ [intercepted (storage w) config].
Proof.
  rewrite request_eq.
  destruct (respond _ _) as [r|m]; [|reflexivity].
  destruct (is2xx r); [reflexivity|]. destruct (decide _); reflexivity.
Qed.

Lemma request_auth config w : auth (request config w).2 = auth w.
Proof.
  rewrite request_eq.
  destruct (respond _ _) as [r|m]; [|reflexivity].
  destruct (is2xx r); [reflexivity|]. destruct (decide _); reflexivity.
Qed.

Lemma request_ui config w : ui (request config w).2 = ui w.
Proof.
  rewrite request_eq.
  destruct (respond _ _) as [r|m]; [|reflexivity].
  destruct (is2xx r); [reflexivity|]. destruct (decide _); reflexivity.
Qed.

(** C4.  The response interceptor passes a successful response through
    and rejects with the error it was given; it removes the two keys
    ['@kneeklinic:token'] and ['@kneeklinic:user'] from the storage
    exactly when the error carries a response of status 401, and leaves
    the storage as it was for every other status and for a network
    error.  So for every request sent through the client the stored
    credentials are cleared exactly when the reply has status 401. *)
Theorem credentials_cleared_exactly_on_401
    (config : Request) (response : Response) (error : Exn) (w : World) :
  responseFulfilled response w = (Resolved response, w)
  /\ (responseRejected error w).1 = Rejected error
  /\ (statusOf error = Some 401 ->
        storage (responseRejected error w).2
        = delete STORAGE_KEYS.USER (delete STORAGE_KEYS.TOKEN (storage w)))
  /\ (statusOf error ≠ Some 401 -> (responseRejected error w).2 = w)
  /\ match respond (wire w) (intercepted (storage w) config) with
     | Answered r =>
         storage (request config w).2 =
           (if decide (status r = 401)
            then delete STORAGE_KEYS.USER (delete STORAGE_KEYS.TOKEN (storage w))
            else storage w)
         /\ (request config w).1 =
              (if is2xx r then Resolved r else Rejected (statusError r))
     | NoResponse m =>
         storage (request config w).2 = storage w
         /\ (request config w).1 = Rejected (networkError m)
     end.
Proof.
  split; [reflexivity|]. rewrite responseRejected_eq.
  split; [reflexivity|]. split; [|split].
  - intros E. rewrite decide_True by exact E. reflexivity.
  - intros E. rewrite decide_False by exact E. reflexivity.
  - rewrite request_eq. destruct (respond _ _) as [r|m]; [|split; reflexivity].
    unfold is2xx. destruct ((200 <=? status r) && (status r <? 300)) eqn:E.
    + split; [|reflexivity]. rewrite decide_False by lia. reflexivity.
    + split; [|reflexivity]. destruct (decide _); reflexivity.
Qed.

(** The [Authorization] header a request leaves with: ['Bearer '] and
    the stored token; none when nothing, or the empty string, is stored. *)
Definition bearer (st : gmap jsstring jsstring) : option jsstring :=
  match st !! STORAGE_KEYS.TOKEN with
  | Some t => if Js.truthy t then Some (Js.lit "Bearer " ++ t) else None
  | None => None
  end.

Lemma request_authorization config w :
  headers config !! Authorization = None ->
  exists sent,
    wire (request config w).2 = wire w ++ [sent]
    /\ headers sent !! Authorization = bearer (storage w).
Proof.
  intros Hc. eexists. split; [apply request_wire|].
  rewrite intercepted_authorization. unfold bearer.
  destruct (storage w !! _) as [t|]; [|exact Hc].
  destruct (Js.truthy t); [reflexivity|exact Hc].
Qed.

(** C6.  Every request sent through the shared client leaves with the
    bearer token of the key ['@kneeklinic:token'].  The request goes on
    the wire once.  When a token is stored under the key (a non-empty
    string: the application treats the empty string as no token, in the
    interceptor as in [isAuthenticated]), the [Authorization] header of
    the request sent is ['Bearer '] followed by that token, whatever
    headers the caller gave.  When no token is stored, the request sent
    has no [Authorization] header: this holds for every configuration
    that names none itself, and so for every [get], [post], [put] and
    [delete] of the client, and for a [put] with headers of the caller's
    that do not include [Authorization]. *)
Theorem bearer_token_attached
    (config : Request) (path : jsstring) (body : Body)
    (given : gmap jsstring jsstring) (w : World) :
  (exists sent,
      requestInterceptor config w = (Resolved sent, w)
      /\ wire (request config w).2 = wire w ++ [sent]
      /\ (forall t, storage w !! STORAGE_KEYS.TOKEN = Some t -> Js.truthy t = true ->
            headers sent !! Authorization = Some (Js.lit "Bearer " ++ t))
      /\ (headers config !! Authorization = None ->
            headers sent !! Authorization = bearer (storage w)))
  /\ (bearer (storage w) = None <->
        storage w !! STORAGE_KEYS.TOKEN = None
        \/ storage w !! STORAGE_KEYS.TOKEN = Some (Js.lit ""))
  /\ Forall (fun call : Async Response =>
        exists sent,
          wire (call w).2 = wire w ++ [sent]
          /\ headers sent !! Authorization = bearer (storage w))
       [ApiVerbs.get path; post path body; ApiVerbs.put path body;
        ApiVerbs.delete path]
  /\ (given !! Authorization = None ->
        exists sent,
          wire (ApiVerbs.putWith path body given w).2 = wire w ++ [sent]
          /\ headers sent !! Authorization = bearer (storage w)).
Proof.
  split; [|split; [|split]].
  - exists (intercepted (storage w) config).
    split; [apply requestInterceptor_eq|]. split; [apply request_wire|].
    unfold bearer. split.
    + intros t Ht Hn. rewrite intercepted_authorization, Ht, Hn. reflexivity.
    + intros Hc. rewrite intercepted_authorization.
      destruct (storage w !! _) as [t|]; [|exact Hc].
      destruct (Js.truthy t); [reflexivity|exact Hc].
  - unfold bearer. destruct (storage w !! _) as [[|c t]|]; cbn.
    + split; [by right|done].
    + split; [done|]. intros [?|?]; discriminate.
    + split; [by left|done].
  - repeat constructor; by apply request_authorization.
  - intros Hg. apply request_authorization. cbn [headers].
    apply lookup_union_None. split; [exact Hg|reflexivity].
Qed.

End WithBackend.

End ApiFacts.

(** ** The auth context *)

Module AuthFacts.
Import Api ApiFacts.

Section WithEnv.
Context `{Runtime} `{Backend}.

Lemma clearAuthData_eq w :
  AuthContext.clearAuthData w =
    (Resolved tt,
     setStorage (clearCredentials (storage w))
       (setAuth {| user := JNull; token := JNull |} w)).
Proof. reflexivity. Qed.

(** [authService.logout] never throws and sends one request. *)
Lemma authService_logout_eq w :
  AuthService.logout w =
    (Resolved tt, (post (Js.lit "/api/auth/logout") NoBody w).2).
Proof.
  unfold AuthService.logout, tryCatch, bind, ret.
  destruct (post _ _ w) as [[r|e] w1]; reflexivity.
Qed.

(** C5.  [logout] always ends with the auth state discarded: whatever
    the backend does with the logout request, also when the request
    fails, [logout] resolves, [user] and [token] are [null],
    [isAuthenticated] is [false] and the keys ['@kneeklinic:token'] and
    ['@kneeklinic:user'] are gone from the storage.  The request it
    sends is the POST to ['/api/auth/logout']. *)
Theorem logout_discards_auth (w : World) :
  (AuthContext.logout w).1 = Resolved tt
  /\ user (auth (AuthContext.logout w).2) = JNull
  /\ token (auth (AuthContext.logout w).2) = JNull
  /\ AuthContext.isAuthenticated (auth (AuthContext.logout w).2) = false
  /\ storage (AuthContext.logout w).2 !! STORAGE_KEYS.TOKEN = None
  /\ storage (AuthContext.logout w).2 !! STORAGE_KEYS.USER = None
  /\ exists sent,
       wire (AuthContext.logout w).2 = wire w ++ [sent]
       /\ method sent = POST
       /\ url sent = Js.lit "/api/auth/logout".
Proof.
  assert (E : AuthContext.logout w =
              (Resolved tt,
               setStorage
                 (clearCredentials
                    (storage (post (Js.lit "/api/auth/logout") NoBody w).2))
                 (setAuth {| user := JNull; token := JNull |}
                    (post (Js.lit "/api/auth/logout") NoBody w).2))).
  { unfold AuthContext.logout, tryFinally, tryCatch.
    rewrite authService_logout_eq, clearAuthData_eq. reflexivity. }
  rewrite E. cbn [fst snd setStorage setAuth auth storage wire user token].
  repeat split.
  - apply clearCredentials_token.
  - apply clearCredentials_user.
  - eexists. split; [apply request_wire|].
    unfold intercepted. cbn [data isFormData].
    destruct (storage w !! _) as [t|]; [destruct (Js.truthy t)|]; split; reflexivity.
Qed.

End WithEnv.

End AuthFacts.

(** ** Requests of the auth service *)

Module AuthServiceFacts.
Import Api ApiFacts.
Section WithEnv.
Context `{Runtime} `{Backend}.

(** The request a [post] puts on the wire. *)
Definition posted (w : World) (path : jsstring) (body : Body) : Request :=
  intercepted (storage w)
    {| method := POST; url := path; data := body; headers := defaultHeaders |}.

Lemma posted_shape w path body :
  method (posted w path body) = POST
  /\ url (posted w path body) = path
  /\ data (posted w path body) = body.
Proof.
  unfold posted, intercepted.
  destruct (storage w !! _) as [t|]; [destruct (Js.truthy t)|];
    cbn [setHeaders data]; destruct (isFormData body); repeat split.
Qed.

Lemma post_wire path body w :
  wire (post path body w).2 = wire w ++ [posted w path body].
Proof. apply request_wire. Qed.

Lemma call_wire path body w :
  wire (AuthService.call path body w).2 = wire w ++ [posted w path (JsonBody body)].
Proof.
  unfold AuthService.call, tryCatch, bind, ret, throw.
  pose proof (post_wire path (JsonBody body) w) as Hw.
  destruct (post path (JsonBody body) w) as [[r|e] w1]; exact Hw.
Qed.

Lemma call_ui path body w : ui (AuthService.call path body w).2 = ui w.
Proof.
  unfold AuthService.call, tryCatch, bind, ret, throw.
  pose proof (request_ui
    {| method := POST; url := path; data := JsonBody body; headers := defaultHeaders |} w) as Hw.
  unfold post.
  destruct (request _ w) as [[r|e] w1]; exact Hw.
Qed.

(** A property read changes nothing in the world. *)
Lemma member_world k v w : (member k v w).2 = w.
Proof. unfold member. destruct (Json.prop k v); reflexivity. Qed.

(** [login] of the service leaves the world as its request leaves it. *)
Lemma login_world credentials w :
  (AuthService.login credentials w).2
  = (post (Js.lit "/auth/login") (JsonBody credentials) w).2.
Proof.
  unfold AuthService.login, tryCatch, bind, member, ret, throw.
  destruct (post _ _ w) as [[r|e] w1]; [|reflexivity].
  destruct (Json.prop (Js.lit "user") (payload r)) as [u|]; [|reflexivity].
  destruct (Json.prop (Js.lit "_id") u); [|reflexivity].
  destruct (Json.prop (Js.lit "email") u); reflexivity.
Qed.
End WithEnv.
End AuthServiceFacts.

(** ** Login, signup and OTP calls of the context *)

Module AuthFlowFacts.
Import Api ApiFacts AuthServiceFacts JsFacts.

Section WithEnv.
Context `{Runtime} `{Backend}.

Lemma saveAuthData_wire u t w :
  wire (AuthContext.saveAuthData u t w).2 = wire w.
Proof.
  unfold AuthContext.saveAuthData, bind, modify, AsyncStorage.multiSet.
  destruct t; reflexivity.
Qed.

Lemma saveAuthData_ui u t w :
  ui (AuthContext.saveAuthData u t w).2 = ui w.
Proof.
  unfold AuthContext.saveAuthData, bind, modify, AsyncStorage.multiSet.
  destruct t; reflexivity.
Qed.

(** [login] and [verifyOTP] of the context send exactly the request of
    the service call, whatever its outcome. *)
Lemma login_wire credentials w :
  wire (AuthContext.login credentials w).2
  = wire w ++ [posted w (Js.lit "/auth/login") (JsonBody credentials)].
Proof.
  unfold AuthContext.login, bind.
  pose proof (login_world credentials w) as Hl.
  rewrite <- (post_wire (Js.lit "/auth/login") (JsonBody credentials) w), <- Hl.
  destruct (AuthService.login credentials w) as [[r|e] w1]; [|reflexivity].
  apply saveAuthData_wire.
Qed.

Lemma verifyOTP_wire data w :
  wire (AuthContext.verifyOTP data w).2
  = wire w ++ [posted w (Js.lit "/auth/verify-otp") (JsonBody data)].
Proof.
  unfold AuthContext.verifyOTP, AuthService.verifyOTP, bind, member, ret, throw.
  pose proof (call_wire (Js.lit "/auth/verify-otp") data w) as Hw.
  destruct (AuthService.call _ _ w) as [[r|e] w1]; [|exact Hw].
  destruct (Json.prop (Js.lit "user") r); [|exact Hw].
  destruct (Json.prop (Js.lit "token") r); [|exact Hw].
  rewrite saveAuthData_wire. exact Hw.
Qed.

Lemma verifyOTP_ui data w : ui (AuthContext.verifyOTP data w).2 = ui w.
Proof.
  unfold AuthContext.verifyOTP, AuthService.verifyOTP, bind, member, ret, throw.
  pose proof (call_ui (Js.lit "/auth/verify-otp") data w) as Hw.
  destruct (AuthService.call _ _ w) as [[r|e] w1]; [|exact Hw].
  destruct (Json.prop (Js.lit "user") r); [|exact Hw].
  destruct (Json.prop (Js.lit "token") r); [|exact Hw].
  rewrite saveAuthData_ui. exact Hw.
Qed.
End WithEnv.
End AuthFlowFacts.

(** ** The signup form *)

Module SignupFacts.
Import Regex RegexFacts JsFacts SignupScreen AuthServiceFacts.

Lemma exec_complexity b s :
  exec complexityPattern b s =
    reach Js.isAsciiLower s && (reach Js.isAsciiUpper s
      && (reach Js.isAsciiDigit s && reach notAlphanumeric s)).
Proof.
  unfold complexityPattern.
  rewrite !exec_lookahead, !exec_star, !star_dot_one.
  cbn [exec]. by rewrite andb_true_r.
Qed.

Definition hasAll (s : jsstring) : bool :=
  existsb Js.isAsciiLower s && (existsb Js.isAsciiUpper s
    && (existsb Js.isAsciiDigit s && existsb notAlphanumeric s)).

Lemma scan_complexity_sound s : forall b,
  scan complexityPattern b s = true -> hasAll s = true.
Proof.
  unfold hasAll.
  induction s as [|ch t IH]; intros b.
  - cbn [scan]. rewrite exec_complexity. cbn. congruence.
  - cbn [scan]. intros [E|E]%orb_prop.
    + rewrite exec_complexity in E.
      apply andb_prop in E as [E1 E]. apply andb_prop in E as [E2 E].
      apply andb_prop in E as [E3 E4].
      by rewrite !reach_existsb.
    + specialize (IH false E).
      apply andb_prop in IH as [E1 IH]. apply andb_prop in IH as [E2 IH].
      apply andb_prop in IH as [E3 E4]. cbn [existsb].
      rewrite E1, E2, E3, E4. by rewrite !orb_true_r.
Qed.

Lemma no_space_one_line s :
  existsb Js.isWhiteSpace s = false -> forallb dot s = true.
Proof.
  induction s as [|ch t IH]; cbn; [reflexivity|].
  intros [E1 E2]%orb_false_elim. rewrite (IH E2), andb_true_r.
  unfold dot. destruct (Js.isLineTerminator ch) eqn:E; [|reflexivity].
  apply isLineTerminator_isWhiteSpace in E. congruence.
Qed.

(** On a password without white space the complexity pattern says what it
    reads: a lowercase letter, an uppercase letter, a digit and a character
    that is none of these, anywhere in the password. *)
Lemma test_complexity s :
  existsb Js.isWhiteSpace s = false ->
  test complexityPattern s = hasAll s.
Proof.
  intros Hs. apply no_space_one_line in Hs.
  destruct (hasAll s) eqn:E.
  - unfold test. destruct s as [|ch t]; [discriminate|].
    cbn [scan]. rewrite exec_complexity, !reach_one_line by exact Hs.
    unfold hasAll in E. by rewrite E.
  - destruct (test complexityPattern s) eqn:E'; [|reflexivity].
    apply scan_complexity_sound in E'. congruence.
Qed.

Lemma test_space s : test spacePattern s = existsb Js.isWhiteSpace s.
Proof. apply scan_one. Qed.

(** A string the email pattern accepts holds a character that is not white
    space. *)
Lemma test_email_not_blank s :
  test emailPattern s = true -> Js.truthy (Js.trim s) = true.
Proof.
  unfold emailPattern. rewrite scan_anchored. intros E.
  apply trim_truthy. destruct s as [|ch t]; [discriminate|].
  rewrite exec_plus in E. apply andb_prop in E as [E _].
  unfold notSpaceOrAt in E. apply negb_true_iff, orb_false_elim in E as [E _].
  cbn [existsb]. by rewrite E.
Qed.

(** What the email pattern accepts: [local@domain.tld], three non-empty
    runs free of white space and of ['@'], the first two separated by
    ['@'] and the last two by a dot. *)
Lemma emailPattern_shape s :
  test emailPattern s = true <->
    exists a b c,
      s = a ++ 64%N :: b ++ 46%N :: c
      /\ a ≠ [] /\ b ≠ [] /\ c ≠ []
      /\ forallb notSpaceOrAt a = true
      /\ forallb notSpaceOrAt b = true
      /\ forallb notSpaceOrAt c = true.
Proof.
  unfold emailPattern. rewrite scan_anchored, plus_spec. split.
  - intros (a & r1 & Ha & -> & Hpa & E).
    apply one_spec in E as (ch & r2 & -> & Hch & E).
    apply N.eqb_eq in Hch as ->.
    apply plus_spec in E as (b & r3 & Hb & -> & Hpb & E).
    apply one_spec in E as (ch & r4 & -> & Hch & E).
    apply N.eqb_eq in Hch as ->.
    apply plus_spec in E as (c & r5 & Hc & -> & Hpc & E).
    apply end_spec in E as ->. rewrite app_nil_r.
    by exists a, b, c.
  - intros (a & b & c & -> & Ha & Hb & Hc & Hpa & Hpb & Hpc).
    exists a, (64%N :: b ++ 46%N :: c). repeat split; try done.
    apply one_spec. exists 64%N, (b ++ 46%N :: c). repeat split.
    apply plus_spec. exists b, (46%N :: c). repeat split; try done.
    apply one_spec. exists 46%N, c. repeat split.
    apply plus_spec. exists c, []. rewrite app_nil_r. repeat split; try done.
Qed.

Lemma notSpaceOrAt_no_space l :
  forallb notSpaceOrAt l = true -> existsb Js.isWhiteSpace l = false.
Proof.
  induction l as [|ch t IH]; cbn; [reflexivity|].
  intros [Hc Ht]%andb_prop. rewrite (IH Ht), orb_false_r.
  unfold notSpaceOrAt in Hc. by apply negb_true_iff, orb_false_elim in Hc as [? _].
Qed.

(** An accepted email holds no white space. *)
Lemma emailPattern_no_space s :
  test emailPattern s = true -> existsb Js.isWhiteSpace s = false.
Proof.
  intros (a & b & c & -> & _ & _ & _ & Ha & Hb & Hc)%emailPattern_shape.
  rewrite existsb_app. cbn [existsb]. rewrite existsb_app. cbn [existsb].
  by rewrite !notSpaceOrAt_no_space.
Qed.

Definition namesOk (s : Screen) : bool :=
  Js.truthy (Js.trim (firstName s)) && Js.truthy (Js.trim (lastName s)).
Definition emailOk (s : Screen) : bool :=
  Js.truthy (Js.trim (email s)) && test emailPattern (email s).
Definition passwordOk (s : Screen) : bool :=
  Js.truthy (password s) && negb (length (password s) <? 8)%nat
  && test complexityPattern (password s) && negb (test spacePattern (password s)).
Definition confirmOk (s : Screen) : bool :=
  Js.truthy (confirmPassword s) && bool_decide (password s = confirmPassword s).

Lemma size_insert_nonzero (k v : jsstring) (e : gmap jsstring jsstring) :
  (size (<[k := v]> e) =? 0)%nat = false.
Proof. apply Nat.eqb_neq. rewrite map_size_empty_iff. apply insert_non_empty. Qed.

Ltac check_cases :=
  repeat match goal with
    | |- context [if negb ?c then _ else _] => destruct c; cbn [negb]
    | |- context [if ?c then _ else _] => destruct c
    end;
  cbn [negb andb]; rewrite ?size_insert_nonzero; reflexivity.

Lemma checkFirstName_size s e :
  (size (checkFirstName s e) =? 0)%nat
  = Js.truthy (Js.trim (firstName s)) && (size e =? 0)%nat.
Proof. unfold checkFirstName. check_cases. Qed.

Lemma checkLastName_size s e :
  (size (checkLastName s e) =? 0)%nat
  = Js.truthy (Js.trim (lastName s)) && (size e =? 0)%nat.
Proof. unfold checkLastName. check_cases. Qed.

Lemma checkEmail_size s e :
  (size (checkEmail s e) =? 0)%nat = emailOk s && (size e =? 0)%nat.
Proof. unfold checkEmail, emailOk. check_cases. Qed.

Lemma checkPassword_size s e :
  (size (checkPassword s e) =? 0)%nat = passwordOk s && (size e =? 0)%nat.
Proof. unfold checkPassword, passwordOk. check_cases. Qed.

Lemma checkConfirmPassword_size s e :
  (size (checkConfirmPassword s e) =? 0)%nat = confirmOk s && (size e =? 0)%nat.
Proof. unfold checkConfirmPassword, confirmOk. check_cases. Qed.

Lemma validateForm_checks s :
  (validateForm s).2 = namesOk s && emailOk s && passwordOk s && confirmOk s.
Proof.
  unfold validateForm, newErrors, namesOk. cbn [snd].
  rewrite checkConfirmPassword_size, checkPassword_size, checkEmail_size,
    checkLastName_size, checkFirstName_size.
  rewrite map_size_empty. cbn [Nat.eqb].
  destruct (Js.truthy _), (Js.truthy _), (emailOk s), (passwordOk s), (confirmOk s);
    reflexivity.
Qed.

Lemma existsb_elem_of {A} (p : A -> bool) (l : list A) :
  existsb p l = true <-> exists x, x ∈ l /\ p x = true.
Proof.
  rewrite existsb_exists. split; intros (x & Hx & Hp); exists x;
    (split; [by apply list_elem_of_In|exact Hp]).
Qed.

Lemma existsb_false_elem_of {A} (p : A -> bool) (l : list A) :
  existsb p l = false <-> forall x, x ∈ l -> p x = false.
Proof.
  split.
  - intros E x Hx. destruct (p x) eqn:Hp; [|reflexivity].
    assert (existsb p l = true) by (apply existsb_elem_of; eauto). congruence.
  - intros Hall. destruct (existsb p l) eqn:E; [|reflexivity].
    apply existsb_elem_of in E as (x & Hx & Hp). rewrite (Hall x Hx) in Hp. discriminate.
Qed.

(** The password rules of [validateForm], read off the two patterns. *)
Lemma passwordOk_spec s :
  passwordOk s = true <->
    password s ≠ [] /\ (8 <= length (password s))%nat
    /\ hasAll (password s) = true
    /\ existsb Js.isWhiteSpace (password s) = false.
Proof.
  unfold passwordOk. rewrite test_space.
  destruct (existsb Js.isWhiteSpace (password s)) eqn:Hs.
  - rewrite andb_false_r. split; [discriminate|]. intros (_ & _ & _ & ?). discriminate.
  - rewrite (test_complexity _ Hs), andb_true_r.
    rewrite !andb_true_iff, truthy_true, negb_true_iff, Nat.ltb_ge. tauto.
Qed.

Section WithEnv.
Context `{Runtime} `{Backend}.

Lemma handleSignup_invalid s w :
  (validateForm s).2 = false ->
  handleSignup s w = (Resolved (validateForm s).1, w).
Proof.
  unfold handleSignup. destruct (validateForm s) as [s' valid]. cbn [fst snd].
  intros ->. reflexivity.
Qed.

Lemma handleSignup_valid s w :
  (validateForm s).2 = true ->
  wire (handleSignup s w).2
  = wire w ++ [posted w (Js.lit "/auth/signup") (JsonBody (signupData s))].
Proof.
  unfold handleSignup.
  assert (Hd : signupData (validateForm s).1 = signupData s) by reflexivity.
  destruct (validateForm s) as [s' valid]. cbn [fst snd] in *.
  intros ->. cbn [negb].
  unfold bind, tryCatch, AuthContext.signup, AuthService.signup, bind, ret, modify, alert.
  rewrite Hd.
  pose proof (call_wire (Js.lit "/auth/signup") (signupData s) w) as Hw.
  destruct (AuthService.call _ _ w) as [[r|e] w1]; exact Hw.
Qed.

(** C7.  [validateForm] returns [true] exactly when: the first and the
    last name are not empty after trimming; the email is not empty and
    matches [/^[^\s@]+@[^\s@]+\.[^\s@]+$/]; the password is not empty,
    has at least 8 characters, holds a lowercase letter, an uppercase
    letter, a digit and a character that is not alphanumeric, and holds
    no white space; and the confirmation is not empty and equals the
    password.  [handleSignup] sends its request to the backend only in
    that case: when a rule fails it returns with the world untouched,
    and when all hold it puts exactly one request on the wire, the
    POST of the signup data to ['/auth/signup']. *)
Theorem signup_submits_only_valid_forms (s : Screen) (w : World) :
  ((validateForm s).2 = true <->
     Js.trim (firstName s) ≠ [] /\ Js.trim (lastName s) ≠ []
     /\ email s ≠ [] /\ Regex.test emailPattern (email s) = true
     /\ password s ≠ [] /\ (8 <= length (password s))%nat
     /\ (exists c, c ∈ password s /\ Js.isAsciiLower c = true)
     /\ (exists c, c ∈ password s /\ Js.isAsciiUpper c = true)
     /\ (exists c, c ∈ password s /\ Js.isAsciiDigit c = true)
     /\ (exists c, c ∈ password s /\
           (Js.isAsciiUpper c || Js.isAsciiLower c || Js.isAsciiDigit c) = false)
     /\ (forall c, c ∈ password s -> Js.isWhiteSpace c = false)
     /\ confirmPassword s ≠ [] /\ confirmPassword s = password s)
  /\ ((validateForm s).2 = false ->
        handleSignup s w = (Resolved (validateForm s).1, w))
  /\ ((validateForm s).2 = true ->
        exists sent,
          wire (handleSignup s w).2 = wire w ++ [sent]
          /\ method sent = POST
          /\ url sent = Js.lit "/auth/signup"
          /\ data sent = JsonBody (signupData s)).
Proof.
  split; [|split].
  - rewrite validateForm_checks. unfold namesOk, emailOk, confirmOk.
    rewrite !andb_true_iff, passwordOk_spec. unfold hasAll.
    rewrite !andb_true_iff, !truthy_true, bool_decide_eq_true.
    rewrite !existsb_elem_of, existsb_false_elem_of.
    unfold notAlphanumeric. setoid_rewrite negb_true_iff.
    pose proof (test_email_not_blank (email s)) as Hblank.
    rewrite truthy_true in Hblank.
    assert (Hne : Js.trim (email s) ≠ [] -> email s ≠ []).
    { intros Ht E. apply Ht. rewrite E. reflexivity. }
    split.
    + intros ((((Hf & Hl) & (He & Hm)) & Hp) & (Hc & Heq)).
      destruct Hp as (? & ? & (? & ? & ? & ?) & ?).
      repeat split; try assumption; auto; congruence.
    + intros (Hf & Hl & He & Hm & Hp & H8 & Hlo & Hup & Hdi & Hna & Hws & Hc & Heq).
      repeat split; try assumption; auto; congruence.
  - apply handleSignup_invalid.
  - intros Hv. eexists. split; [apply (handleSignup_valid s w Hv)|].
    apply posted_shape.
Qed.
End WithEnv.
End SignupFacts.

(** ** OTP verification *)

Module OTPFacts.
Import OTPScreen AuthServiceFacts AuthFlowFacts.

Section WithEnv.
Context `{Runtime} `{Backend}.

(** The object handed to [verifyOTP]. *)
Definition verification (s : Screen) : json :=
  JObj [(Js.lit "email", JStr (email s)); (Js.lit "otp", JStr (concat (otp s)))].

Definition incomplete : UiEvent :=
  Alert (Js.lit "Error") (Js.lit "Please enter the complete OTP code").

Lemma handleVerify_incomplete s w :
  length (concat (otp s)) ≠ APP_CONFIG.OTP_LENGTH ->
  handleVerify s w = (Resolved s, pushUi incomplete w).
Proof.
  intros Hn. unfold handleVerify.
  rewrite (proj2 (Nat.eqb_neq _ _) Hn). reflexivity.
Qed.

Lemma handleVerify_complete s w :
  length (concat (otp s)) = APP_CONFIG.OTP_LENGTH ->
  handleVerify s w =
    match AuthContext.verifyOTP (verification s) w with
    | (Resolved _, w1) => (Resolved (setLoading false (setLoading true s)), w1)
    | (Rejected e, w1) =>
        (Resolved (setLoading false (setOtp emptyOtp (setLoading true s))),
         pushUi (Alert (Js.lit "Verification Failed")
                   (orElse (messageOf e) (Js.lit "Invalid OTP. Please try again."))) w1)
    end.
Proof.
  intros Hn. unfold handleVerify.
  rewrite (proj2 (Nat.eqb_eq _ _) Hn). cbn [negb].
  unfold bind, tryCatch, ret, alert, modify. cbn [email setLoading].
  fold (verification s).
  destruct (AuthContext.verifyOTP (verification s) w) as [[r|e] w1]; reflexivity.
Qed.

(** C8.  [handleVerify] joins the cells of the OTP input.  When the
    joined code does not have the configured length 6 it shows the
    error dialog and sends nothing; when it has, it makes the
    verify-OTP call, one POST to ['/auth/verify-otp'] with the email
    and the code.  So no request goes out exactly when the length
    differs from 6.  When the verification fails, the OTP input is put
    back to six empty cells; when it succeeds the cells stay. *)
Theorem otp_verified_only_when_complete (s : Screen) (w : World) :
  (length (concat (otp s)) ≠ 6%nat ->
     handleVerify s w =
       (Resolved s,
        pushUi (Alert (Js.lit "Error") (Js.lit "Please enter the complete OTP code")) w))
  /\ (length (concat (otp s)) = 6%nat ->
       (exists sent,
          wire (handleVerify s w).2 = wire w ++ [sent]
          /\ method sent = POST
          /\ url sent = Js.lit "/auth/verify-otp"
          /\ data sent = JsonBody
               (JObj [(Js.lit "email", JStr (email s));
                      (Js.lit "otp", JStr (concat (otp s)))]))
       /\ exists s',
            (handleVerify s w).1 = Resolved s'
            /\ match (AuthContext.verifyOTP (verification s) w).1 with
               | Resolved _ => otp s' = otp s
               | Rejected _ => otp s' = [[]; []; []; []; []; []]
               end)
  /\ (wire (handleVerify s w).2 = wire w <-> length (concat (otp s)) ≠ 6%nat).
Proof.
  assert (Hwire : length (concat (otp s)) = 6%nat ->
            wire (handleVerify s w).2
            = wire w ++ [posted w (Js.lit "/auth/verify-otp") (JsonBody (verification s))]).
  { intros Hn. rewrite (handleVerify_complete s w Hn).
    pose proof (verifyOTP_wire (verification s) w) as Hw.
    destruct (AuthContext.verifyOTP _ w) as [[r|e] w1]; exact Hw. }
  split; [|split].
  - intros Hn. apply (handleVerify_incomplete s w Hn).
  - intros Hn. split.
    + eexists. split; [apply (Hwire Hn)|]. apply posted_shape.
    + rewrite (handleVerify_complete s w Hn).
      destruct (AuthContext.verifyOTP _ w) as [[r|e] w1]; eexists; split; reflexivity.
  - split.
    + intros Hw Hn. rewrite (Hwire Hn) in Hw.
      apply (f_equal length) in Hw. rewrite length_app in Hw. cbn in Hw. lia.
    + intros Hn. rewrite (handleVerify_incomplete s w Hn). reflexivity.
Qed.
End WithEnv.
End OTPFacts.

(** ** What the login and signup forms send *)

Module SubmissionFacts.
Import AuthServiceFacts AuthFlowFacts SignupFacts.

Section WithEnv.
Context `{Runtime} `{Backend}.

Lemma handleLogin_wire (s : LoginScreen.Screen) w :
  Js.truthy (Js.trim (LoginScreen.email s)) = true ->
  Js.truthy (Js.trim (LoginScreen.password s)) = true ->
  wire (LoginScreen.handleLogin s w).2
  = wire w ++ [posted w (Js.lit "/auth/login") (JsonBody (LoginScreen.credentials s))].
Proof.
  intros He Hp. unfold LoginScreen.handleLogin. rewrite He, Hp. cbn [negb orb].
  unfold bind, tryCatch, ret, alert, modify.
  pose proof (login_wire (LoginScreen.credentials s) w) as Hw.
  destruct (AuthContext.login _ w) as [[r|e] w1]; exact Hw.
Qed.

(** C9 (as amended).  The forms do normalise what the user entered
    before sending it.  A login that passes the emptiness check sends
    one POST to ['/auth/login'] whose email is the entered email
    trimmed and lower-cased; the password goes unchanged.  A signup of
    a valid form sends the email trimmed and lower-cased and the first
    and last name trimmed; the password and its confirmation go
    unchanged.  (A valid email holds no white space, so for the signup
    the trimming of the email changes nothing and the lower-casing is what
    is left.) *)
Theorem submitted_values_are_normalised
    (login : LoginScreen.Screen) (signup : SignupScreen.Screen) (w : World) :
  (Js.trim (LoginScreen.email login) ≠ [] /\ Js.trim (LoginScreen.password login) ≠ [] ->
     exists sent,
       wire (LoginScreen.handleLogin login w).2 = wire w ++ [sent]
       /\ url sent = Js.lit "/auth/login"
       /\ data sent = JsonBody
            (JObj [(Js.lit "email",
                     JStr (toLowerCase (Js.trim (LoginScreen.email login))));
                   (Js.lit "password", JStr (LoginScreen.password login))]))
  /\ ((SignupScreen.validateForm signup).2 = true ->
       exists sent,
         wire (SignupScreen.handleSignup signup w).2 = wire w ++ [sent]
         /\ url sent = Js.lit "/auth/signup"
         /\ data sent = JsonBody
              (JObj [(Js.lit "email",
                       JStr (toLowerCase (Js.trim (SignupScreen.email signup))));
                     (Js.lit "password", JStr (SignupScreen.password signup));
                     (Js.lit "confirmPassword",
                       JStr (SignupScreen.confirmPassword signup));
                     (Js.lit "firstName",
                       JStr (Js.trim (SignupScreen.firstName signup)));
                     (Js.lit "lastName",
                       JStr (Js.trim (SignupScreen.lastName signup)));
                     (Js.lit "userType", JStr (Js.lit "patient"))]))
  /\ ((SignupScreen.validateForm signup).2 = true ->
       Js.trim (SignupScreen.email signup) = SignupScreen.email signup).
Proof.
  split; [|split].
  - intros [He Hp]. apply JsFacts.truthy_true in He, Hp.
    eexists. split; [apply (handleLogin_wire login w He Hp)|].
    split; apply posted_shape.
  - intros Hv. eexists. split; [apply (handleSignup_valid signup w Hv)|].
    split; apply posted_shape.
  - rewrite validateForm_checks, !andb_true_iff. unfold emailOk.
    rewrite andb_true_iff. intros [[[_ [_ Hm]] _] _].
    by apply JsFacts.trim_no_space, emailPattern_no_space.
Qed.
End WithEnv.
End SubmissionFacts.

(** ** The exercise plans screen *)

Module ExerciseFacts.
Import ExercisePlansScreen Api ApiFacts AuthServiceFacts.

Lemma includes_true l x : includes l x = true <-> x ∈ l.
Proof. apply bool_decide_eq_true. Qed.

(** [newCompleted] flips the membership of the exercise and of no other. *)
Lemma newCompleted_flips completed exerciseId x :
  x ∈ newCompleted completed exerciseId <->
    (x = exerciseId /\ exerciseId ∉ completed) \/ (x ≠ exerciseId /\ x ∈ completed).
Proof.
  unfold newCompleted, includes. case_bool_decide as Hin.
  - rewrite list_elem_of_In, filter_In, <- list_elem_of_In.
    rewrite negb_true_iff, bool_decide_eq_false. split.
    + intros [Hx Hne]. right. done.
    + intros [[-> Hn]|[Hne Hx]]; done.
  - rewrite elem_of_app, list_elem_of_singleton. split.
    + intros [Hx| ->]; [|by left]. right. split; [|done]. intros ->. done.
    + intros [[-> _]|[_ Hx]]; [by right|by left].
Qed.

Section WithBackend.
Context `{Backend}.

Definition body (level : SeverityLevel) (allPlans : Plans)
    (completed : list jsstring) : Body :=
  JsonBody (logBody level completed (length (exercises (planOf allPlans level)))).

Lemma toggleExercise_eq now exerciseId s w level allPlans :
  selectedPlan s = Some level -> plans s = Some allPlans ->
  toggleExercise now exerciseId s w =
    let flipped := newCompleted (completedExercises s) exerciseId in
    let pending := setSaving true (setCompletedExercises flipped s) in
    match post (Js.lit "/activity/exercise/log") (body level allPlans flipped) w with
    | (Resolved _, w1) => (Resolved (setSaving false (saved now pending)), w1)
    | (Rejected _, w1) =>
        (Resolved (setSaving false (setCompletedExercises (completedExercises s) pending)),
         pushUi (Alert (Js.lit "Error") (Js.lit "Failed to save progress")) w1)
    end.
Proof.
  intros Hl Hp. unfold toggleExercise. rewrite Hl, Hp.
  unfold bind, tryCatch, ret, alert, modify, body. cbv zeta.
  destruct (post _ _ w) as [[r|e] w1]; reflexivity.
Qed.

(** C10.  With a plan selected and the plans loaded, [toggleExercise]
    flips the membership of the exercise in [completedExercises] (it
    is appended when absent and every occurrence is removed when
    present, other exercises are untouched) and posts the new list to
    ['/activity/exercise/log'].  When the save succeeds the new list
    stays; when the save request throws, [completedExercises] is again
    exactly what it was before the toggle.  Without a selected plan or
    without plans the handler changes nothing and sends nothing. *)
Theorem toggle_reverts_on_failed_save
    (now : Z) (exerciseId : jsstring) (s : Screen) (w : World) :
  match selectedPlan s, plans s with
  | Some level, Some allPlans =>
      let flipped := newCompleted (completedExercises s) exerciseId in
      (forall x, x ∈ flipped <->
         (x = exerciseId /\ exerciseId ∉ completedExercises s)
         \/ (x ≠ exerciseId /\ x ∈ completedExercises s))
      /\ (exists sent,
            wire (toggleExercise now exerciseId s w).2 = wire w ++ [sent]
            /\ method sent = POST
            /\ url sent = Js.lit "/activity/exercise/log"
            /\ data sent = JsonBody
                 (JObj [(Js.lit "severityLevel", JStr (levelName level));
                        (Js.lit "completedExercises", JArr (List.map JStr flipped));
                        (Js.lit "totalExercises",
                          JNum (Num.ofZ (Z.of_nat
                            (length (exercises (planOf allPlans level))))))]))
      /\ exists s',
           (toggleExercise now exerciseId s w).1 = Resolved s'
           /\ match (post (Js.lit "/activity/exercise/log")
                       (body level allPlans flipped) w).1 with
              | Resolved _ => completedExercises s' = flipped
              | Rejected _ => completedExercises s' = completedExercises s
              end
  | _, _ => toggleExercise now exerciseId s w = (Resolved s, w)
  end.
Proof.
  destruct (selectedPlan s) as [level|] eqn:Hl;
    [|unfold toggleExercise; rewrite Hl; reflexivity].
  destruct (plans s) as [allPlans|] eqn:Hp;
    [|unfold toggleExercise; rewrite Hl, Hp; reflexivity].
  intros flipped. split; [intros x; apply newCompleted_flips|].
  rewrite (toggleExercise_eq now exerciseId s w level allPlans Hl Hp).
  cbv zeta. fold flipped.
  pose proof (post_wire (Js.lit "/activity/exercise/log")
                (body level allPlans flipped) w) as Hw.
  destruct (post _ _ w) as [[r|e] w1]; cbn [fst snd] in *.
  - split; [eexists; split; [exact Hw|apply posted_shape]|].
    eexists. split; reflexivity.
  - split; [eexists; split; [exact Hw|apply posted_shape]|].
    eexists. split; reflexivity.
Qed.
End WithBackend.
End ExerciseFacts.

(** ** Concrete scenarios

    The models run.  The examples below evaluate them on small inputs; the
    two lemmas at the end are the inputs on which claims C2 and C9 fail as
    they are worded. *)

Module Scenarios.

(** A runtime for strings that stay within ASCII; its number formatters
    are not looked at by the scenarios below. *)
Definition asciiRuntime : Runtime :=
  {| toFixed := fun _ _ => [];
     parseFloat := fun _ => 0%float;
     toLocaleString := Js.ofZ;
     toLowerCaseUnicode := fun s => s;
     stringOfValue := fun _ => [];
     JSON_stringify := fun _ => [] |}.

(** Backends: one that answers every request with the same status and
    body, and one that never answers. *)
Definition replying (code : Z) (body : json) : Backend :=
  {| respond := fun _ _ => Answered {| status := code; payload := body |} |}.

Definition offline : Backend :=
  {| respond := fun _ _ => NoResponse (Js.lit "Network Error") |}.

(** A backend that answers every request with status 200 and a session
    whose token is the empty string. *)
Definition emptyTokenBackend : Backend :=
  replying 200 (JObj [(Js.lit "user", JObj []); (Js.lit "token", JStr [])]).

Definition freshWorld : World :=
  {| storage := ∅; auth := {| user := JNull; token := JNull |};
     wire := []; ui := [] |}.

Definition signedIn : World :=
  {| storage := {[ STORAGE_KEYS.TOKEN := Js.lit "t0k3n";
                   STORAGE_KEYS.USER := Js.lit "{}";
                   STORAGE_KEYS.HAS_ONBOARDED := Js.lit "true" ]};
     auth := {| user := JObj []; token := JStr (Js.lit "t0k3n") |};
     wire := []; ui := [] |}.

(** What is left in the storage under the three keys of the app. *)
Definition stored (w : World) : list (option jsstring) :=
  [storage w !! STORAGE_KEYS.TOKEN; storage w !! STORAGE_KEYS.USER;
   storage w !! STORAGE_KEYS.HAS_ONBOARDED].

(** *** The pedometer on a short walk *)

Definition still : StepCounter.Sample :=
  {| StepCounter.x := 0; StepCounter.y := 0; StepCounter.z := 1 |}%float.
Definition swingUp : StepCounter.Sample :=
  {| StepCounter.x := 0; StepCounter.y := 0; StepCounter.z := 1.2 |}%float.
Definition swingDown : StepCounter.Sample :=
  {| StepCounter.x := 0; StepCounter.y := 0; StepCounter.z := 0.8 |}%float.

(** Counting starts at clock 1000.  The first falling edge comes 100 ms
    later and is not counted; the second comes at 1400 and is; the third,
    100 ms after that one, is not; the fourth, at 1800, is. *)
Definition walk : list (Z * StepCounter.Sample) :=
  [(1050, swingUp); (1100, swingDown); (1150, still);
   (1300, swingUp); (1400, swingDown);
   (1450, swingUp); (1500, swingDown);
   (1700, swingUp); (1750, still); (1800, swingDown)].

Definition countAfter (n : nat) : Z :=
  StepCounter.sessionSteps
    (StepCounter.run (firstn n walk)
       (StepCounter.startCounting 1000 1000 StepCounter.initial)).

Example walk_counts :
  List.map countAfter (seq 0 11) = [0; 0; 0; 0; 0; 1; 1; 1; 1; 1; 2].
Proof. vm_compute. reflexivity. Qed.

Example walk_last_step :
  StepCounter.lastStepTime
    (StepCounter.run walk (StepCounter.startCounting 1000 1000 StepCounter.initial))
  = 1800.
Proof. vm_compute. reflexivity. Qed.

Example duration_text : StepCounter.formatDuration 3725 = Js.lit "01:02:05".
Proof. vm_compute. reflexivity. Qed.

(** *** The API client *)

Example unauthorized_clears_credentials :
  stored (@Api.post (replying 401 JNull) (Js.lit "/health/steps") NoBody signedIn).2
  = [None; None; Some (Js.lit "true")].
Proof. vm_compute. reflexivity. Qed.

Example server_error_keeps_credentials :
  stored (@Api.post (replying 500 JNull) (Js.lit "/health/steps") NoBody signedIn).2
  = stored signedIn.
Proof. vm_compute. reflexivity. Qed.

Example network_error_keeps_credentials :
  stored (@Api.post offline (Js.lit "/health/steps") NoBody signedIn).2
  = stored signedIn.
Proof. vm_compute. reflexivity. Qed.

Example token_goes_out_as_bearer :
  List.map (fun r => headers r !! Api.Authorization)
    (wire (@Api.post offline (Js.lit "/health/steps") NoBody signedIn).2)
  = [Some (Js.lit "Bearer t0k3n")].
Proof. vm_compute. reflexivity. Qed.

Example logout_while_offline :
  let after := @AuthContext.logout offline signedIn in
  after.1 = Resolved tt
  /\ auth after.2 = {| user := JNull; token := JNull |}
  /\ stored after.2 = [None; None; Some (Js.lit "true")]
  /\ List.map url (wire after.2) = [Js.lit "/api/auth/logout"].
Proof. vm_compute. repeat split. Qed.

(** *** The signup form *)

Definition form (password : jsstring) : SignupScreen.Screen :=
  {| SignupScreen.firstName := Js.lit " Al ";
     SignupScreen.lastName := Js.lit "Bo";
     SignupScreen.email := Js.lit "Al@Ex.com";
     SignupScreen.password := password;
     SignupScreen.confirmPassword := password;
     SignupScreen.loading := false;
     SignupScreen.errors := ∅ |}.

Example valid_form : (SignupScreen.validateForm (form (Js.lit "Passw0rd!"))).2 = true.
Proof. vm_compute. reflexivity. Qed.

Example short_password : (SignupScreen.validateForm (form (Js.lit "Pw0!"))).2 = false.
Proof. vm_compute. reflexivity. Qed.

(** A line feed (code unit 10) inside the password: whichever side of it the
    special character stands on, the form is refused, by the complexity rule
    or by the white space rule. *)
Example password_with_line_feed :
  SignupScreen.newErrors (form (Js.lit "Passw0rd" ++ [10%N] ++ Js.lit "!"))
    !! Js.lit "password"
  = Some (Js.lit "Password cannot contain spaces")
  /\ SignupScreen.newErrors (form (Js.lit "!" ++ [10%N] ++ Js.lit "Passw0rd"))
       !! Js.lit "password"
     = Some (Js.lit
         "Password must include uppercase, lowercase, number, and special character").
Proof. vm_compute. split; reflexivity. Qed.

Example signup_request :
  List.map data
    (wire (@SignupScreen.handleSignup asciiRuntime (replying 200 JNull)
             (form (Js.lit "Passw0rd!")) freshWorld).2)
  = [JsonBody
       (JObj [(Js.lit "email", JStr (Js.lit "al@ex.com"));
              (Js.lit "password", JStr (Js.lit "Passw0rd!"));
              (Js.lit "confirmPassword", JStr (Js.lit "Passw0rd!"));
              (Js.lit "firstName", JStr (Js.lit "Al"));
              (Js.lit "lastName", JStr (Js.lit "Bo"));
              (Js.lit "userType", JStr (Js.lit "patient"))])].
Proof. vm_compute. reflexivity. Qed.

Example invalid_form_sends_nothing :
  (@SignupScreen.handleSignup asciiRuntime (replying 200 JNull)
     (form (Js.lit "Pw0!")) freshWorld).2
  = freshWorld.
Proof. vm_compute. reflexivity. Qed.

(** *** OTP verification *)

Definition cells (l : list string) : list jsstring := List.map Js.lit l.

Definition otpScreen (l : list string) : OTPScreen.Screen :=
  {| OTPScreen.email := Js.lit "al@ex.com"; OTPScreen.otp := cells l;
     OTPScreen.loading := false |}.

Definition rejectedCode : Outcome OTPScreen.Screen * World :=
  @OTPScreen.handleVerify asciiRuntime
    (replying 400 (JObj [(Js.lit "message", JStr (Js.lit "Invalid OTP"))]))
    (otpScreen ["1"; "2"; "3"; "4"; "5"; "6"]) freshWorld.

Example rejected_code_resets_cells :
  rejectedCode.1 = Resolved (otpScreen [""; ""; ""; ""; ""; ""])
  /\ List.map url (wire rejectedCode.2) = [Js.lit "/auth/verify-otp"]
  /\ ui rejectedCode.2 = [Alert (Js.lit "Verification Failed") (Js.lit "Invalid OTP")].
Proof. vm_compute. repeat split. Qed.

Example incomplete_code_stays_local :
  @OTPScreen.handleVerify asciiRuntime (replying 200 JNull)
    (otpScreen ["1"; "2"; ""; "4"; "5"; "6"]) freshWorld
  = (Resolved (otpScreen ["1"; "2"; ""; "4"; "5"; "6"]),
     pushUi (Alert (Js.lit "Error") (Js.lit "Please enter the complete OTP code"))
       freshWorld).
Proof. vm_compute. reflexivity. Qed.

(** *** Exercise toggles *)

Definition somePlans : ExercisePlansScreen.Plans :=
  let plan :=
    {| ExercisePlansScreen.exercises :=
         [{| ExercisePlansScreen.id := Js.lit "e1";
             ExercisePlansScreen.name := Js.lit "Heel slide";
             ExercisePlansScreen.duration := Js.lit "5 min";
             ExercisePlansScreen.description := Js.lit "Slide the heel" |};
          {| ExercisePlansScreen.id := Js.lit "e2";
             ExercisePlansScreen.name := Js.lit "Quad set";
             ExercisePlansScreen.duration := Js.lit "5 min";
             ExercisePlansScreen.description := Js.lit "Tighten the thigh" |}] |} in
  {| ExercisePlansScreen.beginning := plan;
     ExercisePlansScreen.moderate := plan;
     ExercisePlansScreen.severe := plan |}.

Definition exerciseScreen (completed : list string) : ExercisePlansScreen.Screen :=
  {| ExercisePlansScreen.selectedPlan := Some ExercisePlansScreen.Moderate;
     ExercisePlansScreen.plans := Some somePlans;
     ExercisePlansScreen.completedExercises := cells completed;
     ExercisePlansScreen.saving := false;
     ExercisePlansScreen.lastSaved := None;
     ExercisePlansScreen.showSaveSuccess := false |}.

(** The completed list after one run of the handler. *)
Definition toggled (B : Backend) (exerciseId : string) (completed : list string)
    : option (list jsstring) :=
  match (@ExercisePlansScreen.toggleExercise B 5 (Js.lit exerciseId)
           (exerciseScreen completed) freshWorld).1 with
  | Resolved s => Some (ExercisePlansScreen.completedExercises s)
  | Rejected _ => None
  end.

Example toggle_adds : toggled (replying 200 JNull) "e2" ["e1"] = Some (cells ["e1"; "e2"]).
Proof. vm_compute. reflexivity. Qed.

Example toggle_removes :
  toggled (replying 200 JNull) "e1" ["e1"; "e2"; "e1"] = Some (cells ["e2"]).
Proof. vm_compute. reflexivity. Qed.

Example failed_toggle_reverts : toggled offline "e2" ["e1"] = Some (cells ["e1"]).
Proof. vm_compute. reflexivity. Qed.

(** *** Where two claims fail as worded *)

Definition entered : LoginScreen.Screen :=
  {| LoginScreen.email := Js.lit " Al@Ex.com ";
     LoginScreen.password := Js.lit "Passw0rd!";
     LoginScreen.loading := false |}.

(** The world after a login against [emptyTokenBackend]. *)
Definition afterLogin : World :=
  (@LoginScreen.handleLogin asciiRuntime emptyTokenBackend entered freshWorld).2.


(** C9, counterexample.  The user enters [" Al@Ex.com "]; the body of the
    login request holds ["al@ex.com"]. *)
Lemma login_email_is_not_sent_as_entered :
  List.map data (wire afterLogin)
  = [JsonBody (JObj [(Js.lit "email", JStr (Js.lit "al@ex.com"));
                     (Js.lit "password", JStr (Js.lit "Passw0rd!"))])]
  /\ Js.lit "al@ex.com" ≠ LoginScreen.email entered.
Proof. split; [vm_compute; reflexivity|discriminate]. Qed.

End Scenarios.

(** * Further properties *)

(** ** The pedometer: what a stream can and cannot count *)

Module StepStreamFacts.
Import StepCounter StepCounterFacts.

(** A sample is a rising (falling) one when its acceleration is above
    [+0.08] (below [-0.08]). *)
Definition rising (e : Z * Sample) : bool := Num.gt (acceleration e.2) stepThreshold.
Definition falling (e : Z * Sample) : bool :=
  Num.lt (acceleration e.2) (- stepThreshold)%float.

Lemma listener_no_rising now data s :
  Num.gt (acceleration data) stepThreshold = false ->
  stepState s = down ->
  stepState (listener now data s) = down
  /\ sessionSteps (listener now data s) = sessionSteps s
  /\ lastStepTime (listener now data s) = lastStepTime s.
Proof.
  intros Hr Hd. unfold listener. rewrite Hr, Hd.
  cbn [andb isUp isDown]. rewrite andb_false_r. cbn. rewrite Hd. done.
Qed.

Lemma listener_no_falling now data s :
  Num.lt (acceleration data) (- stepThreshold)%float = false ->
  sessionSteps (listener now data s) = sessionSteps s
  /\ lastStepTime (listener now data s) = lastStepTime s.
Proof.
  intros Hf. unfold listener. rewrite Hf. cbn [andb].
  destruct (Num.gt _ _ && _); done.
Qed.

Lemma run_no_rising stream : forall s,
  existsb rising stream = false -> stepState s = down ->
  stepState (run stream s) = down
  /\ sessionSteps (run stream s) = sessionSteps s
  /\ lastStepTime (run stream s) = lastStepTime s.
Proof.
  induction stream as [|e rest IH]; intros s Hq Hd; [done|].
  cbn [existsb] in Hq. apply orb_false_elim in Hq as [He Hq].
  rewrite run_cons.
  destruct (listener_no_rising e.1 e.2 s He Hd) as (Hd' & Hs' & Hl').
  destruct (IH _ Hq Hd') as (? & ? & ?). repeat split; congruence.
Qed.

Lemma run_no_falling stream : forall s,
  existsb falling stream = false ->
  sessionSteps (run stream s) = sessionSteps s
  /\ lastStepTime (run stream s) = lastStepTime s.
Proof.
  induction stream as [|e rest IH]; intros s Hq; [done|].
  cbn [existsb] in Hq. apply orb_false_elim in Hq as [He Hq].
  rewrite run_cons.
  destruct (listener_no_falling e.1 e.2 s He) as (Hs' & Hl').
  destruct (IH (listener e.1 e.2 s) Hq) as (? & ?). split; congruence.
Qed.

(** X1.  A step needs a swing in both directions: a session whose
    stream holds no sample above [+0.08], or no sample below [-0.08],
    counts nothing, whatever the clock does (a phone at rest, or one only
    pushed one way, stays at 0 steps). *)
Theorem one_sided_stream_counts_nothing
    (date t0 : Z) (s0 : Screen) (stream : list (Z * Sample)) :
  existsb rising stream = false \/ existsb falling stream = false ->
  sessionSteps (run stream (startCounting date t0 s0)) = 0
  /\ lastStepTime (run stream (startCounting date t0 s0)) = t0.
Proof.
  intros [Hq|Hq].
  - destruct (run_no_rising stream (startCounting date t0 s0) Hq) as (_ & Hs & Hl);
      [reflexivity|]. split; assumption.
  - destruct (run_no_falling stream (startCounting date t0 s0) Hq) as (Hs & Hl).
    split; assumption.
Qed.

Ltac listener_states s data now :=
  listener_cases s data now;
  repeat match goal with H : stepState s = _ |- _ => rewrite ?H; clear H end;
  cbn [isUp isDown].

(** The state after a sample, as a weight: a machine that is [up] is half
    a step ahead. *)
Definition weight (s : Screen) : Z :=
  2 * sessionSteps s + (if isUp (stepState s) then 1 else 0).

Lemma listener_weight now data s : weight (listener now data s) <= weight s + 1.
Proof.
  unfold weight. listener_states s data now; lia.
Qed.

Lemma run_weight stream : forall s,
  weight (run stream s) <= weight s + Z.of_nat (length stream).
Proof.
  induction stream as [|e rest IH]; intros s; [cbn; lia|].
  rewrite run_cons. specialize (IH (listener e.1 e.2 s)).
  pose proof (listener_weight e.1 e.2 s). cbn [length]. lia.
Qed.

(** X2.  Every counted step takes at least two samples, one that lifts the
    state and one that drops it: after [n] samples the count is at most
    [n / 2]. *)
Theorem steps_at_most_half_the_samples
    (date t0 : Z) (s0 : Screen) (stream : list (Z * Sample)) :
  2 * sessionSteps (run stream (startCounting date t0 s0))
  <= Z.of_nat (length stream).
Proof.
  pose proof (run_weight stream (startCounting date t0 s0)) as Hw.
  unfold weight in Hw. cbn [startCounting sessionSteps stepState isUp] in Hw.
  destruct (isUp _); lia.
Qed.

(** X3.  Counted steps are more than 250 ms apart on the listener's clock,
    and the first one comes more than 250 ms after the start: when no
    clock value of the stream is past [deadline], at most
    [(deadline - t0) / 251] steps are counted. *)
Theorem steps_bounded_by_elapsed_time
    (date t0 deadline : Z) (s0 : Screen) (stream : list (Z * Sample)) :
  t0 <= deadline ->
  Forall (fun e : Z * Sample => e.1 <= deadline) stream ->
  251 * sessionSteps (run stream (startCounting date t0 s0)) <= deadline - t0.
Proof.
  intros H0 Hs.
  pose proof (session_steps_bounded date t0 s0 stream) as Hb. cbv zeta in Hb.
  rewrite run_lastStepTime in Hb. cbn [startCounting lastStepTime] in Hb.
  unfold minStepInterval in Hb.
  destruct (lastCounted stream _) as [t|] eqn:E; cbn [default] in Hb; unfold id in Hb.
  - apply lastCounted_clock in E. apply list_elem_of_fmap in E as (e & -> & He).
    rewrite Forall_forall in Hs. specialize (Hs e He). cbn in Hs. lia.
  - lia.
Qed.

(** A stream that pushes the phone up and holds it there. *)
Definition pushUp : list (Z * Sample) :=
  [(1050, Scenarios.still); (1400, Scenarios.swingUp); (1800, Scenarios.still)].

Lemma one_sided_stream_counts_nothing_on_pushUp :
  sessionSteps (run pushUp (startCounting 1000 1000 initial)) = 0
  /\ lastStepTime (run pushUp (startCounting 1000 1000 initial)) = 1000.
Proof.
  apply one_sided_stream_counts_nothing. right. vm_compute. reflexivity.
Defined.

Lemma steps_bounded_on_walk :
  251 * sessionSteps (run Scenarios.walk (startCounting 1000 1000 initial))
  <= 1800 - 1000.
Proof.
  apply steps_bounded_by_elapsed_time; [lia|].
  unfold Scenarios.walk. repeat constructor; cbn; lia.
Defined.

End StepStreamFacts.

(** ** The duration text *)

Module DurationFacts.
Import StepCounter.

(** Two decimal digits, as code units. *)
Definition twoDigits (n : Z) : jsstring :=
  [Z.to_N (48 + n / 10); Z.to_N (48 + n mod 10)].

Lemma padStart_twoDigits n :
  0 <= n < 100 -> Js.padStart 2 48%N (Js.ofZ n) = twoDigits n.
Proof.
  intros Hn.
  assert (Hall : forallb (fun k => bool_decide
            (Js.padStart 2 48%N (Js.ofZ (Z.of_nat k)) = twoDigits (Z.of_nat k)))
            (seq 0 100) = true) by (vm_compute; reflexivity).
  rewrite forallb_forall in Hall.
  specialize (Hall (Z.to_nat n)). rewrite Z2Nat.id in Hall by lia.
  apply (bool_decide_unpack _), Is_true_true, Hall, in_seq. lia.
Qed.

Lemma digits_inj a b :
  0 <= a < 100 -> 0 <= b < 100 ->
  Z.to_N (48 + a / 10) = Z.to_N (48 + b / 10) ->
  Z.to_N (48 + a mod 10) = Z.to_N (48 + b mod 10) ->
  a = b.
Proof.
  intros Ha Hb H1 H2.
  assert (0 <= a / 10 < 10) by (split; [apply Z.div_pos|apply Z.div_lt_upper_bound]; lia).
  assert (0 <= b / 10 < 10) by (split; [apply Z.div_pos|apply Z.div_lt_upper_bound]; lia).
  pose proof (Z.mod_pos_bound a 10 ltac:(lia)).
  pose proof (Z.mod_pos_bound b 10 ltac:(lia)).
  apply Z2N.inj in H1, H2; try lia.
  rewrite (Z.div_mod a 10), (Z.div_mod b 10) by lia. lia.
Qed.

(** X4.  For a duration below 100 hours [formatDuration] gives the text
    [hh:mm:ss]: two digits each for the hours, the minutes below 60 and
    the seconds below 60 that add up to the duration.  The text has 8
    characters and different durations give different texts. *)
Theorem formatDuration_is_hh_mm_ss (seconds other : Z) :
  0 <= seconds < 360000 ->
  0 <= other < 360000 ->
  let h := seconds / 3600 in
  let m := seconds mod 3600 / 60 in
  let c := seconds mod 60 in
  formatDuration seconds = twoDigits h ++ Js.lit ":" ++ twoDigits m ++ Js.lit ":" ++ twoDigits c
  /\ 0 <= h < 100 /\ 0 <= m < 60 /\ 0 <= c < 60
  /\ seconds = 3600 * h + 60 * m + c
  /\ length (formatDuration seconds) = 8%nat
  /\ (formatDuration seconds = formatDuration other -> seconds = other).
Proof.
  assert (Hfields : forall x, 0 <= x < 360000 ->
            0 <= x / 3600 < 100 /\ 0 <= x mod 3600 / 60 < 60 /\ 0 <= x mod 60 < 60
            /\ x = 3600 * (x / 3600) + 60 * (x mod 3600 / 60) + x mod 60).
  { intros x Hx.
    pose proof (Z.mod_pos_bound x 3600 ltac:(lia)).
    pose proof (Z.mod_pos_bound x 60 ltac:(lia)).
    pose proof (Z.mod_pos_bound (x mod 3600) 60 ltac:(lia)).
    assert (0 <= x / 3600 < 100)
      by (split; [apply Z.div_pos|apply Z.div_lt_upper_bound]; lia).
    assert (0 <= x mod 3600 / 60 < 60)
      by (split; [apply Z.div_pos|apply Z.div_lt_upper_bound]; lia).
    assert (x mod 60 = (x mod 3600) mod 60).
    { rewrite (Z.div_mod x 3600) at 1 by lia.
      replace (3600 * (x / 3600) + x mod 3600)
        with (x mod 3600 + 60 * (x / 3600) * 60) by lia.
      apply Z.mod_add. lia. }
    pose proof (Z.div_mod x 3600 ltac:(lia)).
    pose proof (Z.div_mod (x mod 3600) 60 ltac:(lia)).
    repeat split; lia. }
  assert (Hfmt : forall x, 0 <= x < 360000 ->
            formatDuration x
            = twoDigits (x / 3600) ++ Js.lit ":" ++ twoDigits (x mod 3600 / 60)
              ++ Js.lit ":" ++ twoDigits (x mod 60)).
  { intros x Hx. destruct (Hfields x Hx) as (? & ? & ? & _).
    unfold formatDuration. rewrite !Z.rem_mod_nonneg by lia.
    rewrite !padStart_twoDigits by lia. reflexivity. }
  intros Hs Ho h m c.
  destruct (Hfields seconds Hs) as (Hh & Hm & Hc & Hsum).
  repeat split; try (subst h m c; lia).
  - apply (Hfmt seconds Hs).
  - rewrite (Hfmt seconds Hs). reflexivity.
  - rewrite (Hfmt seconds Hs), (Hfmt other Ho).
    destruct (Hfields other Ho) as (Hh' & Hm' & Hc' & Hsum').
    unfold twoDigits. cbn. intros [= E1 E2 E3 E4 E5 E6].
    apply digits_inj in E2; [|lia|lia|exact E1].
    apply digits_inj in E4; [|lia|lia|exact E3].
    apply digits_inj in E6; [|lia|lia|exact E5].
    lia.
Qed.

Lemma formatDuration_of_3725 :
  formatDuration 3725
  = twoDigits 1 ++ Js.lit ":" ++ twoDigits 2 ++ Js.lit ":" ++ twoDigits 5
  /\ 0 <= 1 < 100 /\ 0 <= 2 < 60 /\ 0 <= 5 < 60
  /\ 3725 = 3600 * 1 + 60 * 2 + 5
  /\ length (formatDuration 3725) = 8%nat
  /\ (formatDuration 3725 = formatDuration 59 -> 3725 = 59).
Proof. apply (formatDuration_is_hh_mm_ss 3725 59); lia. Defined.

End DurationFacts.


(** ** Saving a step session *)

Module StepSaveFacts.
Import StepCounter StepCounterSaving Api ApiFacts AuthServiceFacts.

Section WithEnv.
Context `{Dates} `{Backend}.

(** The body posted for a session that has a start time. *)
Definition bodyOf (session : StepSession) (started duration : Z) : json :=
  JObj [(Js.lit "steps", JNum (Num.ofZ (steps session)));
        (Js.lit "distance", JNum (distance session));
        (Js.lit "calories", JNum (calories session));
        (Js.lit "startTime", JStr (toISOString started));
        (Js.lit "endTime",
          match session_endTime session with
          | Some ended => JStr (toISOString ended)
          | None => JUndefined
          end);
        (Js.lit "duration", JNum (Num.ofZ duration))].

Lemma saveSession_eq session s w :
  saveSession session s w =
    match session_startTime session with
    | None => (Resolved (false, SaveFailed connectionMessage session), w)
    | Some started =>
        match post (Js.lit "/health/steps")
                (JsonBody (bodyOf session started (duration s))) w with
        | (Resolved _, w1) =>
            (Resolved (false, SessionSaved (steps session) (distance session)
                                (calories session)), w1)
        | (Rejected e, w1) => (Resolved (false, SaveFailed (errorMessage e) session), w1)
        end
    end.
Proof.
  unfold saveSession, sessionBody, bind, tryCatch, ret, throw.
  destruct (session_startTime session) as [started|]; [|reflexivity].
  fold (bodyOf session started (duration s)).
  destruct (post _ _ w) as [[r|e] w1]; reflexivity.
Qed.

(** X5.  [saveSession] never throws and always ends with [isSaving] false.
    For a session with a start time it sends exactly one request, the POST
    to ['/health/steps'] carrying the session's steps, distance and
    calories; a 2xx reply gives the saved dialog, and any failure gives the
    failure dialog whose Retry saves the very same session again, with the
    message chosen by the reply: status 403 the expired-session text,
    status 401 the not-logged-in text, everything else (other statuses, no
    reply) the connection text.  A session without start time fails before
    anything is sent. *)
Theorem saveSession_outcomes (session : StepSession) (s : Screen) (w : World) :
  exists dialog,
    (saveSession session s w).1 = Resolved (false, dialog)
    /\ match session_startTime session with
       | None =>
           (saveSession session s w).2 = w
           /\ dialog = SaveFailed connectionMessage session
       | Some started =>
           exists sent,
             wire (saveSession session s w).2 = wire w ++ [sent]
             /\ method sent = POST
             /\ url sent = Js.lit "/health/steps"
             /\ data sent = JsonBody (bodyOf session started (duration s))
             /\ dialog =
                  match respond (wire w) sent with
                  | Answered r =>
                      if is2xx r
                      then SessionSaved (steps session) (distance session) (calories session)
                      else SaveFailed
                             (if decide (status r = 403) then expiredMessage
                              else if decide (status r = 401) then notLoggedInMessage
                              else connectionMessage) session
                  | NoResponse _ => SaveFailed connectionMessage session
                  end
       end.
Proof.
  rewrite saveSession_eq.
  destruct (session_startTime session) as [started|]; [|eexists; repeat split].
  unfold post. rewrite request_eq. cbv zeta.
  set (sent := intercepted (storage w) _).
  assert (Hshape : method sent = POST /\ url sent = Js.lit "/health/steps"
                   /\ data sent = JsonBody (bodyOf session started (duration s)))
    by apply posted_shape.
  destruct Hshape as (Hm & Hu & Hd).
  destruct (respond (wire w) sent) as [r|m] eqn:Er.
  - destruct (is2xx r) eqn:E2.
    + eexists. split; [reflexivity|]. exists sent. rewrite Er, E2.
      repeat split; assumption.
    + eexists. split; [reflexivity|]. exists sent. rewrite Er, E2.
      split; [destruct (decide _); reflexivity|].
      repeat split; try assumption.
      unfold errorMessage, statusError.
      cbn [statusOf error_response fmap option_fmap option_map].
      destruct (decide (status r = 403)) as [E|E].
      * rewrite decide_True by congruence. reflexivity.
      * rewrite (decide_False (P := Some (status r) = Some 403)) by congruence.
        destruct (decide (status r = 401)) as [E'|E'].
        -- rewrite decide_True by congruence. reflexivity.
        -- rewrite decide_False by congruence. reflexivity.
  - eexists. split; [reflexivity|]. exists sent. rewrite Er.
    repeat split; assumption.
Qed.

End WithEnv.
End StepSaveFacts.

(** ** What the shared client leaves alone *)

Module ClientFrameFacts.
Import Api ApiFacts AuthServiceFacts.

(** X6.  The request interceptor changes headers only, and only two of
    them: the method, the url and the body go out as the caller gave them,
    as does every header other than [Authorization] and [Content-Type].
    [Content-Type] is removed exactly for a [FormData] body and otherwise
    kept.  The storage is read, never written. *)
Theorem request_interceptor_touches_two_headers (config : Request) (w : World) :
  exists sent,
    requestInterceptor config w = (Resolved sent, w)
    /\ method sent = method config
    /\ url sent = url config
    /\ data sent = data config
    /\ (forall k, k ≠ Authorization -> k ≠ ContentType ->
          headers sent !! k = headers config !! k)
    /\ headers sent !! ContentType =
         (if isFormData (data config) then None else headers config !! ContentType).
Proof.
  exists (intercepted (storage w) config).
  split; [apply requestInterceptor_eq|].
  unfold intercepted.
  destruct (storage w !! STORAGE_KEYS.TOKEN) as [t|]; [destruct (Js.truthy t)|];
    cbn [setHeaders data headers method url];
    destruct (isFormData (data config)) eqn:Ef;
    cbn [setHeaders data headers method url];
    repeat split; try reflexivity;
    try (intros k Ha Hc);
    rewrite ?lookup_delete_eq, ?lookup_delete_ne, ?lookup_insert_ne by done;
    reflexivity.
Qed.

Section WithBackend.
Context `{Backend}.

Lemma request_storage_other config w k :
  k ≠ STORAGE_KEYS.TOKEN -> k ≠ STORAGE_KEYS.USER ->
  storage (request config w).2 !! k = storage w !! k.
Proof.
  intros Ht Hu. rewrite request_eq.
  destruct (respond _ _) as [r|m]; [|reflexivity].
  destruct (is2xx r); [reflexivity|]. destruct (decide _); [|reflexivity].
  cbn [snd setStorage storage]. by apply clearCredentials_other.
Qed.

(** X7.  One call of the client puts exactly one request on the wire (it
    never retries), shows nothing to the user, and leaves the auth
    context's [user] and [token] as they are, also on a 401.  In the
    storage it can only remove the two credential keys: whatever is stored
    under any other key stays. *)
Theorem request_frame (config : Request) (w : World) (k : jsstring) :
  length (wire (request config w).2) = S (length (wire w))
  /\ ui (request config w).2 = ui w
  /\ auth (request config w).2 = auth w
  /\ (k ≠ STORAGE_KEYS.TOKEN -> k ≠ STORAGE_KEYS.USER ->
        storage (request config w).2 !! k = storage w !! k)
  /\ (forall v, storage (request config w).2 !! k = Some v -> storage w !! k = Some v).
Proof.
  split; [rewrite request_wire, length_app; cbn; lia|].
  split; [apply request_ui|]. split; [apply request_auth|].
  split; [apply request_storage_other|].
  intros v. rewrite request_eq.
  destruct (respond _ _) as [r|m]; [|done].
  destruct (is2xx r); [done|]. destruct (decide _); [|done].
  cbn [snd setStorage storage]. unfold clearCredentials.
  intros Hv. apply lookup_delete_Some in Hv as [_ Hv].
  by apply lookup_delete_Some in Hv as [_ Hv].
Qed.

(** X8.  Once a reply has status 401, the next request of the client goes
    out without an [Authorization] header (unless its caller supplies
    one): the token that was stored is gone. *)
Theorem after_401_next_request_carries_no_token
    (first next : Request) (w : World) (r : Response) :
  respond (wire w) (intercepted (storage w) first) = Answered r ->
  status r = 401 ->
  exists sent,
    wire (request next (request first w).2).2
    = wire (request first w).2 ++ [sent]
    /\ headers sent !! Authorization = headers next !! Authorization.
Proof.
  intros Hr Hs. eexists. split; [apply request_wire|].
  rewrite intercepted_authorization.
  assert (Hgone : storage (request first w).2 !! STORAGE_KEYS.TOKEN = None).
  { rewrite request_eq, Hr. unfold is2xx. rewrite Hs. cbn [andb Z.leb Z.ltb Z.compare].
    change (401 <? 300) with false. rewrite andb_false_r.
    rewrite decide_True by reflexivity. apply clearCredentials_token. }
  by rewrite Hgone.
Qed.

End WithBackend.

Definition saveSteps : Request :=
  {| method := POST; url := Js.lit "/health/steps"; data := NoBody;
     headers := defaultHeaders |}.

Definition fetchUser : Request :=
  {| method := GET; url := Js.lit "/auth/user"; data := NoBody;
     headers := defaultHeaders |}.

Lemma after_401_on_signedIn :
  exists sent,
    wire (@request (Scenarios.replying 401 JNull) fetchUser
            (@request (Scenarios.replying 401 JNull) saveSteps Scenarios.signedIn).2).2
    = wire (@request (Scenarios.replying 401 JNull) saveSteps Scenarios.signedIn).2
      ++ [sent]
    /\ headers sent !! Authorization = headers fetchUser !! Authorization.
Proof.
  apply (@after_401_next_request_carries_no_token (Scenarios.replying 401 JNull)
           saveSteps fetchUser Scenarios.signedIn {| status := 401; payload := JNull |});
    reflexivity.
Defined.

End ClientFrameFacts.

(** ** The session: sign-in, restart, refresh *)

Module SessionFacts.
Import Api ApiFacts AuthFacts AuthServiceFacts AuthFlowFacts AuthContextMore.

Definition signedOut : AuthState := {| user := JNull; token := JNull |}.

(** The app is started again: the state cells are back at [null] and the
    provider's effect runs [loadUserFromStorage]. *)
Definition restart `{Runtime} `{Parsing} `{Backend} (w : World) : World :=
  (loadUserFromStorage (setAuth signedOut w)).2.

(** The storage [saveAuthData] leaves. *)
Definition withCredentials (tokenValue userValue : jsstring)
    (st : gmap jsstring jsstring) : gmap jsstring jsstring :=
  <[STORAGE_KEYS.USER := userValue]> (<[STORAGE_KEYS.TOKEN := tokenValue]> st).

Lemma withCredentials_token t u st :
  withCredentials t u st !! STORAGE_KEYS.TOKEN = Some t.
Proof.
  unfold withCredentials. rewrite lookup_insert_ne by done. apply lookup_insert_eq.
Qed.

Lemma withCredentials_user t u st :
  withCredentials t u st !! STORAGE_KEYS.USER = Some u.
Proof. apply lookup_insert_eq. Qed.

Lemma withCredentials_other t u st k :
  k ≠ STORAGE_KEYS.TOKEN -> k ≠ STORAGE_KEYS.USER ->
  withCredentials t u st !! k = st !! k.
Proof. intros. unfold withCredentials. by rewrite !lookup_insert_ne. Qed.

Lemma intercepted_shape st config :
  method (intercepted st config) = method config
  /\ url (intercepted st config) = url config
  /\ data (intercepted st config) = data config.
Proof.
  unfold intercepted.
  destruct (st !! _) as [t|]; [destruct (Js.truthy t)|];
    cbn [setHeaders data]; destruct (isFormData (data config)); repeat split.
Qed.

Section WithEnv.
Context `{Runtime} `{Parsing} `{Backend}.

Lemma saveAuthData_string u t w :
  AuthContext.saveAuthData u (JStr t) w =
    (Resolved tt,
     setStorage (withCredentials t (JSON_stringify u) (storage w))
       (setAuth {| user := u; token := JStr t |} w)).
Proof. reflexivity. Qed.

Lemma loadUserFromStorage_eq w :
  loadUserFromStorage w =
    (Resolved false,
     match storage w !! STORAGE_KEYS.TOKEN, storage w !! STORAGE_KEYS.USER with
     | Some t, Some u =>
         if Js.truthy t && Js.truthy u
         then match JSON_parse u with
              | Some parsed => setUser parsed (setToken (JStr t) w)
              | None => setToken (JStr t) w
              end
         else w
     | _, _ => w
     end).
Proof.
  unfold loadUserFromStorage, bind, tryCatch, multiGet, ret, modify, throw.
  cbn [List.map].
  destruct (storage w !! STORAGE_KEYS.TOKEN) as [t|]; [|reflexivity].
  destruct (storage w !! STORAGE_KEYS.USER) as [u|]; [|reflexivity].
  destruct (Js.truthy t && Js.truthy u); [|reflexivity].
  destruct (JSON_parse u); reflexivity.
Qed.

Lemma loadUserFromStorage_nothing_stored w :
  storage w !! STORAGE_KEYS.TOKEN = None \/ storage w !! STORAGE_KEYS.USER = None ->
  loadUserFromStorage w = (Resolved false, w).
Proof.
  intros Hn. rewrite loadUserFromStorage_eq.
  destruct Hn as [-> | ->]; [reflexivity|].
  destruct (storage w !! STORAGE_KEYS.TOKEN); reflexivity.
Qed.

(** X9.  A session survives a restart of the app.  After [saveAuthData]
    with a non-empty token (and a non-empty serialised user), starting
    the app again ends with [isLoading] false and the same token in the
    context; the user is what [JSON.parse] makes of the stored text.  When
    the stored text does not parse, the token is set all the same and the
    user stays [null]: the context then holds a token without a user and
    [isAuthenticated] is false. *)
Theorem session_survives_restart (u : json) (t : jsstring) (w : World) :
  Js.truthy t = true ->
  Js.truthy (JSON_stringify u) = true ->
  let w1 := (AuthContext.saveAuthData u (JStr t) w).2 in
  (loadUserFromStorage (setAuth signedOut w1)).1 = Resolved false
  /\ token (auth (restart w1)) = JStr t
  /\ user (auth (restart w1)) =
       match JSON_parse (JSON_stringify u) with
       | Some parsed => parsed
       | None => JNull
       end
  /\ (JSON_parse (JSON_stringify u) = None ->
        AuthContext.isAuthenticated (auth (restart w1)) = false)
  /\ storage (restart w1) = storage w1.
Proof.
  intros Ht Hu w1. unfold restart. rewrite loadUserFromStorage_eq.
  subst w1. rewrite saveAuthData_string.
  cbn [fst snd setAuth setStorage storage].
  rewrite withCredentials_token, withCredentials_user, Ht, Hu. cbn [andb].
  destruct (JSON_parse (JSON_stringify u)) as [parsed|];
    cbn [setUser setToken setAuth auth user token storage signedOut];
    repeat split; try reflexivity. discriminate.
Qed.

(** X10.  Nothing is restored after a logout: when the app is started
    again after [logout], whatever the backend answered, the context
    stays without user and token and [isAuthenticated] is false. *)
Theorem restart_after_logout_is_signed_out (w : World) :
  let w1 := (AuthContext.logout w).2 in
  auth (restart w1) = signedOut
  /\ AuthContext.isAuthenticated (auth (restart w1)) = false
  /\ storage (restart w1) = storage w1
  /\ wire (restart w1) = wire w1.
Proof.
  intros w1. unfold restart.
  rewrite loadUserFromStorage_nothing_stored; [repeat split|].
  left. cbn [setAuth storage]. subst w1.
  unfold AuthContext.logout, tryFinally, tryCatch.
  rewrite authService_logout_eq, clearAuthData_eq.
  cbn [snd setStorage storage]. apply clearCredentials_token.
Qed.

(** X11.  A reply with status 401 ends the stored session but not the
    running one: the context's user and token are as before the request
    (so [isAuthenticated] does not change), while a restart of the app
    finds nothing to restore and comes up signed out. *)
Theorem status_401_signs_out_at_restart (config : Request) (w : World) (r : Response) :
  respond (wire w) (intercepted (storage w) config) = Answered r ->
  status r = 401 ->
  let w1 := (request config w).2 in
  auth w1 = auth w
  /\ auth (restart w1) = signedOut
  /\ AuthContext.isAuthenticated (auth (restart w1)) = false.
Proof.
  intros Hr Hs w1. split; [apply request_auth|].
  unfold restart. rewrite loadUserFromStorage_nothing_stored; [split; reflexivity|].
  left. cbn [setAuth storage]. subst w1.
  rewrite request_eq, Hr. unfold is2xx. rewrite Hs.
  change (401 <? 300) with false. rewrite andb_false_r.
  rewrite decide_True by reflexivity. apply clearCredentials_token.
Qed.

(** The request of [getCurrentUser]. *)
Definition fetched (w : World) : Request :=
  intercepted (storage w)
    {| method := GET; url := Js.lit "/auth/user"; data := NoBody;
       headers := defaultHeaders |}.

Lemma getCurrentUser_eq w :
  let w1 := pushWire (fetched w) w in
  AuthServiceMore.getCurrentUser w =
    match respond (wire w) (fetched w) with
    | Answered r =>
        if is2xx r then (Resolved (payload r), w1)
        else (Rejected (ThrownError (handleApiError (statusError r))),
              if decide (status r = 401)
              then setStorage (clearCredentials (storage w)) w1 else w1)
    | NoResponse m => (Rejected (ThrownError (handleApiError (networkError m))), w1)
    end.
Proof.
  intros w1. unfold AuthServiceMore.getCurrentUser, AuthServiceMore.rethrowing,
    ApiVerbs.get, tryCatch, bind.
  rewrite request_eq. fold (fetched w). fold w1.
  destruct (respond _ _) as [r|m]; [|reflexivity].
  destruct (is2xx r); reflexivity.
Qed.

(** X12.  [refreshUser] never throws, shows nothing and never changes the
    context's token.  Without a token in the context it does nothing at
    all.  With one it sends exactly one GET to ['/auth/user'], and what
    follows depends on the reply.  A 2xx reply whose body is an object
    replaces the user in the context by the body's [user] field, and
    stores it under the user key unless it is [undefined]; a 2xx reply
    whose body is [null] changes nothing, because reading [user] of it
    throws inside the [try].  A reply of another status and a missing
    reply leave the user in the context alone; the storage is untouched by
    them too, except that status 401 removes the stored token and user. *)
Theorem refreshUser_outcomes (w : World) :
  (refreshUser w).1 = Resolved tt
  /\ token (auth (refreshUser w).2) = token (auth w)
  /\ ui (refreshUser w).2 = ui w
  /\ if Json.truthy (token (auth w))
     then exists sent,
            wire (refreshUser w).2 = wire w ++ [sent]
            /\ method sent = GET
            /\ url sent = Js.lit "/auth/user"
            /\ data sent = NoBody
            /\ match respond (wire w) sent with
               | Answered r =>
                   if is2xx r
                   then
                     match payload r with
                     | JNull | JUndefined =>
                         user (auth (refreshUser w).2) = user (auth w)
                         /\ storage (refreshUser w).2 = storage w
                     | body =>
                         user (auth (refreshUser w).2) = Json.get (Js.lit "user") body
                         /\ storage (refreshUser w).2 =
                              match Json.get (Js.lit "user") body with
                              | JUndefined => storage w
                              | updated =>
                                  <[STORAGE_KEYS.USER := JSON_stringify updated]> (storage w)
                              end
                     end
                   else user (auth (refreshUser w).2) = user (auth w)
                        /\ storage (refreshUser w).2 =
                             (if decide (status r = 401)
                              then delete STORAGE_KEYS.USER
                                     (delete STORAGE_KEYS.TOKEN (storage w))
                              else storage w)
               | NoResponse _ =>
                   user (auth (refreshUser w).2) = user (auth w)
                   /\ storage (refreshUser w).2 = storage w
               end
     else refreshUser w = (Resolved tt, w).
Proof.
  unfold refreshUser.
  destruct (Json.truthy (token (auth w))) eqn:Et; cbn [negb];
    [|repeat split; reflexivity].
  unfold tryCatch, bind. rewrite getCurrentUser_eq.
  pose proof (intercepted_shape (storage w)
    {| method := GET; url := Js.lit "/auth/user"; data := NoBody;
       headers := defaultHeaders |}) as (Hm & Hu & Hd).
  fold (fetched w) in Hm, Hu, Hd. cbn [method url data] in Hm, Hu, Hd.
  destruct (respond (wire w) (fetched w)) as [r|m] eqn:Er.
  - destruct (is2xx r) eqn:E2.
    + unfold member, updateUser, bind, modify, ret, throw, setItem.
      destruct (payload r) as [| |b|n|str|items|fields] eqn:Ep; cbn [Json.prop];
        try (split; [reflexivity|]; split; [reflexivity|]; split; [reflexivity|];
             exists (fetched w); rewrite Er, E2, ?Ep;
             split; [reflexivity|]; split; [exact Hm|]; split; [exact Hu|];
             split; [exact Hd|]; by split).
      destruct (Json.get (Js.lit "user") (JObj fields)) eqn:Eg;
        (split; [reflexivity|]; split; [reflexivity|]; split; [reflexivity|];
         exists (fetched w); rewrite Er, E2, Ep, Eg;
         split; [reflexivity|]; split; [exact Hm|]; split; [exact Hu|];
         split; [exact Hd|]; by split).
    + split; [reflexivity|]. cbn [snd].
      split; [by destruct (decide _)|]. split; [by destruct (decide _)|].
      exists (fetched w). rewrite Er, E2.
      split; [by destruct (decide _)|]. split; [exact Hm|]. split; [exact Hu|].
      split; [exact Hd|]. by destruct (decide _).
  - repeat split. exists (fetched w). rewrite Er. repeat split; assumption.
Qed.

End WithEnv.

(** A runtime and a parser that agree on the empty object. *)
Definition emptyObjectRuntime : Runtime :=
  {| toFixed := fun _ _ => [];
     parseFloat := fun _ => 0%float;
     toLocaleString := Js.ofZ;
     toLowerCaseUnicode := fun s => s;
     stringOfValue := fun _ => [];
     JSON_stringify := fun _ => Js.lit "{}" |}.

Definition emptyObjectParsing : Parsing :=
  {| JSON_parse := fun s => if decide (s = Js.lit "{}") then Some (JObj []) else None |}.

Lemma session_survives_restart_on_fresh_device :
  token (auth (@restart emptyObjectRuntime emptyObjectParsing Scenarios.offline
                 (@AuthContext.saveAuthData emptyObjectRuntime (JObj [])
                    (JStr (Js.lit "t0k3n")) Scenarios.freshWorld).2))
  = JStr (Js.lit "t0k3n").
Proof.
  exact (proj1 (proj2
    (@session_survives_restart emptyObjectRuntime emptyObjectParsing Scenarios.offline
       (JObj []) (Js.lit "t0k3n") Scenarios.freshWorld eq_refl eq_refl))).
Defined.

Lemma status_401_signs_out_signedIn :
  AuthContext.isAuthenticated
    (auth (@request (Scenarios.replying 401 JNull) ClientFrameFacts.saveSteps
             Scenarios.signedIn).2) = true
  /\ AuthContext.isAuthenticated
       (auth (@restart Scenarios.asciiRuntime emptyObjectParsing
                (Scenarios.replying 401 JNull)
                (@request (Scenarios.replying 401 JNull) ClientFrameFacts.saveSteps
                   Scenarios.signedIn).2)) = false.
Proof.
  split; [reflexivity|].
  exact (proj2 (proj2
    (@status_401_signs_out_at_restart Scenarios.asciiRuntime emptyObjectParsing
       (Scenarios.replying 401 JNull) ClientFrameFacts.saveSteps Scenarios.signedIn
       {| status := 401; payload := JNull |} eq_refl eq_refl))).
Defined.

End SessionFacts.

(** ** What a whole session can write *)

Module SessionFrameFacts.
Import Api ApiFacts AuthFacts AuthServiceFacts AuthFlowFacts AuthContextMore.

(** [m] leaves what is stored under the key [k] as it is. *)
Definition keeps {A} (k : jsstring) (m : Async A) : Prop :=
  forall w, storage (m w).2 !! k = storage w !! k.

Lemma keeps_ret {A} k (a : A) : keeps k (ret a).
Proof. intros w. reflexivity. Qed.

Lemma keeps_throw {A} k e : keeps k (@throw A e).
Proof. intros w. reflexivity. Qed.

Lemma keeps_modify k f :
  (forall w, storage (f w) !! k = storage w !! k) -> keeps k (modify f).
Proof. intros Hf w. apply Hf. Qed.

Lemma keeps_bind {A B} k (m : Async A) (f : A -> Async B) :
  keeps k m -> (forall a, keeps k (f a)) -> keeps k (bind m f).
Proof.
  intros Hm Hf w. unfold bind. specialize (Hm w).
  destruct (m w) as [[a|e] w1]; cbn [snd] in *; [|exact Hm].
  by rewrite Hf.
Qed.

Lemma keeps_tryCatch {A} k (m : Async A) (h : Exn -> Async A) :
  keeps k m -> (forall e, keeps k (h e)) -> keeps k (tryCatch m h).
Proof.
  intros Hm Hh w. unfold tryCatch. specialize (Hm w).
  destruct (m w) as [[a|e] w1]; cbn [snd] in *; [exact Hm|].
  by rewrite Hh.
Qed.

Lemma keeps_tryFinally {A} k (m : Async A) (f : Async unit) :
  keeps k m -> keeps k f -> keeps k (tryFinally m f).
Proof.
  intros Hm Hf w. unfold tryFinally. specialize (Hm w).
  destruct (m w) as [r w1]. specialize (Hf w1).
  destruct (f w1) as [[[]|e] w2]; cbn [snd] in *; congruence.
Qed.

Lemma keeps_ext {A} k (m m' : Async A) :
  (forall w, m w = m' w) -> keeps k m' -> keeps k m.
Proof. intros E Hm w. rewrite E. apply Hm. Qed.

Create HintDb keeps discriminated.
#[local] Hint Resolve keeps_ret keeps_throw : keeps.

(** The operations of a session, in the order the user or the app runs
    them. *)
Inductive Action :=
| Login (credentials : json)
| Signup (data : json)
| VerifyOTP (data : json)
| ResendOTP (email : jsstring)
| Logout
| UpdateUser (updatedUser : json)
| RefreshUser
| LoadUser
| Call (config : Request)
| SecondClientCall (config : Request).

(** The operation with its outcome dropped: a caller that catches. *)
Definition settled {A} (m : Async A) : Async unit :=
  fun w => (Resolved tt, (m w).2).

Lemma keeps_settled {A} k (m : Async A) : keeps k m -> keeps k (settled m).
Proof. intros Hm w. apply Hm. Qed.

Section WithEnv.
Context `{Runtime} `{Parsing} `{Backend}.

Definition act (a : Action) : Async unit :=
  match a with
  | Login credentials => settled (AuthContext.login credentials)
  | Signup data => settled (AuthContext.signup data)
  | VerifyOTP data => settled (AuthContext.verifyOTP data)
  | ResendOTP email => settled (AuthContextMore.resendOTP email)
  | Logout => settled AuthContext.logout
  | UpdateUser updatedUser => updateUser updatedUser
  | RefreshUser => refreshUser
  | LoadUser => settled loadUserFromStorage
  | Call config => settled (request config)
  | SecondClientCall config => settled (ConfigApi.request config)
  end.

Definition after (actions : list Action) (w : World) : World :=
  fold_left (fun w a => (act a w).2) actions w.

Variable k : jsstring.
Hypothesis not_token : k ≠ STORAGE_KEYS.TOKEN.
Hypothesis not_user : k ≠ STORAGE_KEYS.USER.

Lemma keeps_request config : keeps k (request config).
Proof. intros w. by apply ClientFrameFacts.request_storage_other. Qed.

Lemma keeps_rethrowing m : keeps k m -> keeps k (AuthServiceMore.rethrowing m).
Proof.
  intros Hm. unfold AuthServiceMore.rethrowing.
  apply keeps_tryCatch; [apply keeps_bind|]; auto with keeps.
Qed.

Lemma keeps_call path body : keeps k (AuthService.call path body).
Proof.
  unfold AuthService.call, post.
  apply keeps_tryCatch; [apply keeps_bind|]; auto using keeps_request with keeps.
Qed.

Lemma keeps_saveAuthData u t : keeps k (AuthContext.saveAuthData u t).
Proof.
  intros w. destruct t; try reflexivity.
  rewrite (SessionFacts.saveAuthData_string u s w). cbn [snd setStorage storage].
  by apply SessionFacts.withCredentials_other.
Qed.

Lemma keeps_clearAuthData : keeps k AuthContext.clearAuthData.
Proof.
  intros w. rewrite clearAuthData_eq. cbn [snd setStorage storage setAuth].
  by apply clearCredentials_other.
Qed.

Lemma keeps_updateUser u : keeps k (updateUser u).
Proof.
  intros w. destruct u; cbn; by rewrite ?lookup_insert_ne.
Qed.

Lemma keeps_dispatch config : keeps k (dispatch config).
Proof.
  intros w. unfold dispatch.
  destruct (respond _ _) as [r|m]; [|reflexivity].
  destruct (_ && _); reflexivity.
Qed.

Lemma keeps_member key v : keeps k (member key v).
Proof. intros w. by rewrite member_world. Qed.

Lemma keeps_act a : keeps k (act a).
Proof.
  destruct a; cbn [act]; try apply keeps_settled.
  - unfold AuthContext.login, AuthService.login, post.
    apply keeps_bind; [|auto using keeps_saveAuthData].
    apply keeps_tryCatch; [|auto with keeps].
    repeat (apply keeps_bind; [|intros ?]);
      auto using keeps_request, keeps_member with keeps.
  - unfold AuthContext.signup, AuthService.signup.
    apply keeps_bind; auto using keeps_call with keeps.
  - unfold AuthContext.verifyOTP, AuthService.verifyOTP.
    apply keeps_bind; [apply keeps_call|intros response].
    apply keeps_bind; [apply keeps_member|intros userData].
    apply keeps_bind; [apply keeps_member|intros tokenValue].
    apply keeps_saveAuthData.
  - unfold resendOTP, AuthServiceMore.resendOTP, post.
    apply keeps_bind; auto using keeps_rethrowing, keeps_request with keeps.
  - unfold AuthContext.logout, AuthService.logout, post.
    apply keeps_tryFinally; [|apply keeps_clearAuthData].
    apply keeps_tryCatch; [|auto with keeps].
    apply keeps_tryCatch; [|auto with keeps].
    apply keeps_bind; auto using keeps_request with keeps.
  - apply keeps_updateUser.
  - intros w. unfold refreshUser.
    destruct (negb _); [reflexivity|].
    apply keeps_tryCatch; [|auto with keeps].
    unfold AuthServiceMore.getCurrentUser, ApiVerbs.get.
    apply keeps_bind; [auto using keeps_rethrowing, keeps_request|intros response].
    apply keeps_bind; [apply keeps_member|intros updated].
    apply keeps_updateUser.
  - intros w. by rewrite SessionFacts.loadUserFromStorage_eq;
      repeat case_match.
  - apply keeps_request.
  - change (keeps k (tryCatch (bind (ConfigApi.requestInterceptor config) dispatch)
                       ConfigApi.responseRejected)).
    apply keeps_tryCatch; [|intros e; apply keeps_throw].
    apply keeps_bind; [|apply keeps_dispatch].
    intros w. reflexivity.
Qed.

Lemma keeps_after actions w : storage (after actions w) !! k = storage w !! k.
Proof.
  revert w. induction actions as [|a actions IH]; intros w; [reflexivity|].
  cbn [after fold_left]. fold (after actions (act a w).2).
  rewrite IH. apply keeps_act.
Qed.

End WithEnv.

Section Frame.
Context `{Runtime} `{Parsing} `{Backend}.

(** X13.  Whatever the user does in a session (logging in, signing up,
    verifying or resending a code, logging out, updating or refreshing
    the user, restarting the app, any request through either client) and
    whatever the backend answers, the storage changes under the two
    credential keys only: every other key holds at the end what it held
    at the start. *)
Theorem session_writes_credential_keys_only
    (actions : list Action) (w : World) (k : jsstring) :
  k ≠ STORAGE_KEYS.TOKEN -> k ≠ STORAGE_KEYS.USER ->
  storage (after actions w) !! k = storage w !! k.
Proof.
  intros Ht Hu. revert w.
  induction actions as [|a actions IH]; intros w; [reflexivity|].
  change (after (a :: actions) w) with (after actions (act a w).2).
  rewrite IH. by apply keeps_act.
Qed.

(** X14.  The second axios client (config/api.ts) reads its token from
    the key ['authToken'], which no operation of the session writes.  On a
    device where that key is not set, a request through it goes out
    exactly as its caller made it, so without a bearer token, however many
    logins came before. *)
Theorem second_client_sends_no_token
    (actions : list Action) (w : World) (config : Request) :
  storage w !! ConfigApi.authToken = None ->
  wire (ConfigApi.request config (after actions w)).2
  = wire (after actions w) ++ [config].
Proof.
  intros Hn.
  assert (Hk : storage (after actions w) !! ConfigApi.authToken = None).
  { rewrite keeps_after; done. }
  unfold ConfigApi.request, bind, ConfigApi.requestInterceptor,
    AsyncStorage.getItem, ret, ConfigApi.responseRejected, throw.
  unfold bind. cbv beta iota. rewrite Hk. unfold dispatch.
  destruct (respond _ _) as [r|m]; [|reflexivity].
  destruct (_ && _); reflexivity.
Qed.

End Frame.

Lemma onboarding_flag_survives_login_and_logout :
  storage (@after Scenarios.asciiRuntime SessionFacts.emptyObjectParsing
             (Scenarios.replying 200
                (JObj [(Js.lit "user", JObj []); (Js.lit "token", JStr (Js.lit "abc"))]))
             [Login (JObj []); Logout] Scenarios.signedIn)
    !! STORAGE_KEYS.HAS_ONBOARDED
  = Some (Js.lit "true").
Proof.
  rewrite (@session_writes_credential_keys_only
             Scenarios.asciiRuntime SessionFacts.emptyObjectParsing _
             [Login (JObj []); Logout] Scenarios.signedIn STORAGE_KEYS.HAS_ONBOARDED);
    [reflexivity|discriminate|discriminate].
Defined.

Lemma second_client_after_login :
  exists w1,
    w1 = @after Scenarios.asciiRuntime SessionFacts.emptyObjectParsing
           (Scenarios.replying 200
              (JObj [(Js.lit "user", JObj []); (Js.lit "token", JStr (Js.lit "abc"))]))
           [Login (JObj [])] Scenarios.freshWorld
    /\ storage w1 !! STORAGE_KEYS.TOKEN = Some (Js.lit "abc")
    /\ wire (@ConfigApi.request
               (Scenarios.replying 200
                  (JObj [(Js.lit "user", JObj []); (Js.lit "token", JStr (Js.lit "abc"))]))
               ClientFrameFacts.fetchUser w1).2
       = wire w1 ++ [ClientFrameFacts.fetchUser].
Proof.
  eexists. split; [reflexivity|]. split; [reflexivity|].
  apply (@second_client_sends_no_token
           Scenarios.asciiRuntime SessionFacts.emptyObjectParsing _
           [Login (JObj [])] Scenarios.freshWorld ClientFrameFacts.fetchUser).
  reflexivity.
Defined.

End SessionFrameFacts.

(** ** Signing in *)

Module SignInFacts.
Import Api ApiFacts AuthFacts AuthServiceFacts AuthFlowFacts AuthContextMore JsFacts.

Section WithEnv.
Context `{Runtime} `{Backend}.

(** The world after a rejected reply: the request is on the wire and the
    credentials are gone for a 401. *)
Definition refused (r : Response) (w1 : World) (w : World) : World :=
  if decide (status r = 401)
  then setStorage (clearCredentials (storage w)) w1 else w1.

(** A service call in one equation. *)
Lemma call_eq path body w :
  let sent := posted w path (JsonBody body) in
  let w1 := pushWire sent w in
  AuthService.call path body w =
    match respond (wire w) sent with
    | Answered r =>
        if is2xx r then (Resolved (payload r), w1)
        else (Rejected (ThrownError (handleApiError (statusError r))), refused r w1 w)
    | NoResponse m => (Rejected (ThrownError (handleApiError (networkError m))), w1)
    end.
Proof.
  intros sent w1. unfold AuthService.call, post, tryCatch, bind.
  rewrite request_eq. fold (posted w path (JsonBody body)). fold sent. fold w1.
  destruct (respond _ _) as [r|m]; [|reflexivity].
  destruct (is2xx r); reflexivity.
Qed.

Lemma refused_auth r w1 w : auth (refused r w1 w) = auth w1.
Proof. unfold refused. destruct (decide _); reflexivity. Qed.

Lemma refused_ui r w1 w : ui (refused r w1 w) = ui w1.
Proof. unfold refused. destruct (decide _); reflexivity. Qed.

Lemma call_auth path body w : auth (AuthService.call path body w).2 = auth w.
Proof.
  rewrite call_eq. destruct (respond _ _) as [r|m]; [|reflexivity].
  destruct (is2xx r); [reflexivity|]. cbn [snd]. by rewrite refused_auth.
Qed.

Lemma call_storage path body w k v :
  storage (AuthService.call path body w).2 !! k = Some v -> storage w !! k = Some v.
Proof.
  rewrite call_eq. destruct (respond _ _) as [r|m]; [|done].
  destruct (is2xx r); [done|]. cbn [snd]. unfold refused.
  destruct (decide _); [|done].
  cbn [setStorage storage]. unfold clearCredentials.
  intros Hv. apply lookup_delete_Some in Hv as [_ Hv].
  by apply lookup_delete_Some in Hv as [_ Hv].
Qed.

(** [login] of the service in one equation: a 2xx reply resolves only
    when its body has a user object to log. *)
Lemma login_eq credentials w :
  let sent := posted w (Js.lit "/auth/login") (JsonBody credentials) in
  let w1 := pushWire sent w in
  AuthService.login credentials w =
    match respond (wire w) sent with
    | Answered r =>
        if is2xx r
        then match Json.prop (Js.lit "user") (payload r) with
             | Some JUndefined | Some JNull | None =>
                 (Rejected (ThrownError (handleApiError typeError)), w1)
             | Some _ => (Resolved (payload r), w1)
             end
        else (Rejected (ThrownError (handleApiError (statusError r))), refused r w1 w)
    | NoResponse m => (Rejected (ThrownError (handleApiError (networkError m))), w1)
    end.
Proof.
  intros sent w1. unfold AuthService.login, post, tryCatch, bind.
  rewrite request_eq. fold (posted w (Js.lit "/auth/login") (JsonBody credentials)).
  fold sent. fold w1.
  destruct (respond _ _) as [r|m]; [|reflexivity].
  destruct (is2xx r); [|reflexivity].
  unfold member, ret, throw.
  destruct (Json.prop (Js.lit "user") (payload r)) as [[]|]; reflexivity.
Qed.

(** A login whose 2xx reply has no user object is rejected and saves
    nothing. *)
Lemma login_without_user credentials w r :
  respond (wire w) (posted w (Js.lit "/auth/login") (JsonBody credentials)) = Answered r ->
  is2xx r = true ->
  Json.get (Js.lit "user") (payload r) = JUndefined
  \/ Json.get (Js.lit "user") (payload r) = JNull ->
  exists e, (AuthContext.login credentials w).1 = Rejected e
            /\ auth (AuthContext.login credentials w).2 = auth w
            /\ storage (AuthContext.login credentials w).2 = storage w.
Proof.
  intros Hr H2 Hu. unfold AuthContext.login, bind.
  rewrite login_eq, Hr, H2. unfold Json.prop.
  destruct (payload r); try (eexists; repeat split; reflexivity).
  destruct Hu as [-> | ->]; eexists; repeat split; reflexivity.
Qed.

(** Requests made through the client one after the other. *)
Definition requests (configs : list Request) (w : World) : World :=
  fold_left (fun w config => (request config w).2) configs w.

(** The request at position [k] of the wire was answered with status 401. *)
Definition unauthorized (l : list Request) (k : nat) : Prop :=
  exists req r, l !! k = Some req
                /\ respond (take k l) req = Answered r
                /\ status r = 401.

Lemma unauthorized_app l l' k : unauthorized l k -> unauthorized (l ++ l') k.
Proof.
  intros (req & r & Hk & Hr & Hs).
  pose proof (lookup_lt_Some _ _ _ Hk) as Hlt.
  exists req, r. repeat split; try done.
  - by apply lookup_app_l_Some.
  - by rewrite take_app_le by lia.
Qed.

Lemma requests_snoc configs config w :
  requests (configs ++ [config]) w = (request config (requests configs w)).2.
Proof. unfold requests. by rewrite fold_left_app. Qed.

(** As long as no reply is a 401, the stored token stays and goes out
    with every request. *)
Lemma requests_carry_token configs w t :
  storage w !! STORAGE_KEYS.TOKEN = Some t -> Js.truthy t = true ->
  let n := length (wire w) in
  let w' := requests configs w in
  length (wire w') = (n + length configs)%nat
  /\ (storage w' !! STORAGE_KEYS.TOKEN = Some t
      \/ exists j, (j < length configs)%nat /\ unauthorized (wire w') (n + j))
  /\ forall i sent,
       wire w' !! (n + i)%nat = Some sent ->
       headers sent !! Authorization = Some (Js.lit "Bearer " ++ t)
       \/ exists j, (j < i)%nat /\ unauthorized (wire w') (n + j).
Proof.
  intros Ht Htruthy n. induction configs as [|config configs IH] using rev_ind.
  - cbn. split; [lia|]. split; [by left|].
    intros i sent Hi. apply lookup_lt_Some in Hi. lia.
  - destruct IH as (Hlen & Hst & Hall). intros w'. subst w'.
    rewrite requests_snoc. set (w2 := requests configs w) in *.
    rewrite request_wire, !length_app, Hlen. cbn [length].
    split; [lia|]. split.
    + destruct Hst as [Hst|(j & Hj & Hun)].
      * rewrite request_eq.
        destruct (respond (wire w2) (intercepted (storage w2) config)) as [r|m] eqn:Er;
          [destruct (is2xx r); [by left|]|by left].
        destruct (decide (status r = 401)) as [E|E]; [|by left].
        right. exists (length configs). split; [lia|].
        exists (intercepted (storage w2) config), r.
        rewrite <- Hlen. split; [by rewrite list_lookup_middle|].
        split; [by rewrite take_app_length|done].
      * right. exists j. split; [lia|]. by apply unauthorized_app.
    + intros i sent Hi.
      destruct (decide (i < length configs)%nat) as [Hlt|Hge].
      * rewrite lookup_app_l in Hi by lia.
        destruct (Hall i sent Hi) as [Hh|(j & Hj & Hun)]; [by left|].
        right. exists j. split; [done|]. by apply unauthorized_app.
      * rewrite lookup_app_r in Hi by lia.
        destruct (n + i - length (wire w2))%nat eqn:Ei; [|done].
        cbn in Hi. injection Hi as <-.
        assert (i = length configs) as -> by lia.
        destruct Hst as [Hst|(j & Hj & Hun)].
        -- left. rewrite intercepted_authorization, Hst, Htruthy. reflexivity.
        -- right. exists j. split; [done|]. by apply unauthorized_app.
Qed.

(** X15.  After a login that the backend accepts with a user and a
    non-empty token, the context holds that user and token, the token is
    stored, and it goes out with the requests that follow: every request
    made through the shared client afterwards carries ['Bearer '] followed
    by that token, up to and including the first one that is answered with
    status 401. *)
Theorem login_then_requests_carry_token
    (credentials : json) (w : World) (r : Response) (t : jsstring)
    (configs : list Request) :
  respond (wire w) (posted w (Js.lit "/auth/login") (JsonBody credentials)) = Answered r ->
  is2xx r = true ->
  Json.get (Js.lit "user") (payload r) ≠ JUndefined ->
  Json.get (Js.lit "user") (payload r) ≠ JNull ->
  Json.get (Js.lit "token") (payload r) = JStr t ->
  Js.truthy t = true ->
  let w1 := (AuthContext.login credentials w).2 in
  let w2 := requests configs w1 in
  (AuthContext.login credentials w).1 = Resolved tt
  /\ auth w1 = {| user := Json.get (Js.lit "user") (payload r); token := JStr t |}
  /\ storage w1 !! STORAGE_KEYS.TOKEN = Some t
  /\ length (wire w2) = (length (wire w1) + length configs)%nat
  /\ forall i sent,
       wire w2 !! (length (wire w1) + i)%nat = Some sent ->
       headers sent !! Authorization = Some (Js.lit "Bearer " ++ t)
       \/ exists j earlier reply,
            (j < i)%nat
            /\ wire w2 !! (length (wire w1) + j)%nat = Some earlier
            /\ respond (take (length (wire w1) + j) (wire w2)) earlier = Answered reply
            /\ status reply = 401.
Proof.
  intros Hr H2 Hu1 Hu2 Ht Htruthy w1 w2.
  assert (E : AuthContext.login credentials w =
    (Resolved tt,
     setStorage
       (SessionFacts.withCredentials t
          (JSON_stringify (Json.get (Js.lit "user") (payload r))) (storage w))
       (setAuth {| user := Json.get (Js.lit "user") (payload r); token := JStr t |}
          (pushWire (posted w (Js.lit "/auth/login") (JsonBody credentials)) w)))).
  { assert (Hp : Json.prop (Js.lit "user") (payload r)
                 = Some (Json.get (Js.lit "user") (payload r))).
    { destruct (payload r); try discriminate; reflexivity. }
    unfold AuthContext.login, bind. rewrite login_eq, Hr, H2, Hp.
    destruct (Json.get (Js.lit "user") (payload r)) eqn:Eu; try done;
      cbv beta iota; rewrite ?Eu, Ht; reflexivity. }
  assert (Hst : storage w1 !! STORAGE_KEYS.TOKEN = Some t).
  { subst w1. rewrite E. apply SessionFacts.withCredentials_token. }
  destruct (requests_carry_token configs w1 t Hst Htruthy) as (Hlen & _ & Hall).
  fold w2 in Hlen, Hall.
  split; [by rewrite E|]. split; [by subst w1; rewrite E|].
  split; [exact Hst|]. split; [exact Hlen|].
  intros i sent Hi. destruct (Hall i sent Hi) as [Hh|(j & Hj & req & reply & Ha)];
    [by left|].
  right. exists j, req, reply. by split.
Qed.

(** X16.  Signing up and asking for a new code never sign the user in:
    whatever the backend answers, [signup] and [resendOTP] of the context
    leave the context's user and token as they were, show nothing, and
    store nothing (a value found in the storage afterwards was there
    before). *)
Theorem signup_and_resend_never_sign_in
    (data : json) (email : jsstring) (w : World) :
  (auth (AuthContext.signup data w).2 = auth w
   /\ ui (AuthContext.signup data w).2 = ui w
   /\ forall k v, storage (AuthContext.signup data w).2 !! k = Some v ->
                  storage w !! k = Some v)
  /\ (auth (resendOTP email w).2 = auth w
      /\ ui (resendOTP email w).2 = ui w
      /\ forall k v, storage (resendOTP email w).2 !! k = Some v ->
                     storage w !! k = Some v).
Proof.
  assert (Hs : forall w', (AuthContext.signup data w').2
                          = (AuthService.call (Js.lit "/auth/signup") data w').2).
  { intros w'. unfold AuthContext.signup, AuthService.signup, bind.
    destruct (AuthService.call _ _ w') as [[a|e] w1]; reflexivity. }
  assert (Hr : forall w', (resendOTP email w').2
      = (AuthService.call (Js.lit "/auth/resend-otp")
           (JObj [(Js.lit "email", JStr email)]) w').2).
  { intros w'. unfold resendOTP, AuthServiceMore.resendOTP, AuthServiceMore.rethrowing,
      AuthService.call, bind, tryCatch.
    destruct (post _ _ w') as [[a|e] w1]; reflexivity. }
  rewrite Hs, Hr. split; (split; [apply call_auth|split; [apply call_ui|apply call_storage]]).
Qed.

(** The dialog of a failed login. *)
Definition loginFailed (error : Exn) : UiEvent :=
  Alert (Js.lit "Login Failed")
        (orElse (messageOf error) (Js.lit "Invalid email or password")).

Definition blank (s : LoginScreen.Screen) : bool :=
  negb (Js.truthy (Js.trim (LoginScreen.email s)))
  || negb (Js.truthy (Js.trim (LoginScreen.password s))).

Lemma handleLogin_eq s w :
  LoginScreen.handleLogin s w =
    if blank s
    then (Resolved s, pushUi (Alert (Js.lit "Error") (Js.lit "Please fill in all fields")) w)
    else
      match AuthContext.login (LoginScreen.credentials s) w with
      | (Resolved _, w1) =>
          (Resolved (LoginScreen.setLoading false (LoginScreen.setLoading true s)), w1)
      | (Rejected e, w1) =>
          (Resolved (LoginScreen.setLoading false (LoginScreen.setLoading true s)),
           pushUi (loginFailed e) w1)
      end.
Proof.
  unfold LoginScreen.handleLogin, blank.
  destruct (_ || _); [reflexivity|].
  unfold bind, tryCatch, ret, alert, modify.
  destruct (AuthContext.login _ w) as [[a|e] w1]; reflexivity.
Qed.

(** X17.  [handleLogin] never throws and keeps the fields as entered.
    It sends a request exactly when neither the email nor the password is
    blank after trimming, and then ends with [loading] false; with a blank
    field the only effect is the dialog asking to fill in all fields. *)
Theorem login_request_needs_both_fields (s : LoginScreen.Screen) (w : World) :
  (exists s', (LoginScreen.handleLogin s w).1 = Resolved s'
              /\ LoginScreen.email s' = LoginScreen.email s
              /\ LoginScreen.password s' = LoginScreen.password s
              /\ LoginScreen.loading s' =
                   (if blank s then LoginScreen.loading s else false))
  /\ (wire (LoginScreen.handleLogin s w).2 = wire w
      <-> Js.trim (LoginScreen.email s) = [] \/ Js.trim (LoginScreen.password s) = [])
  /\ (Js.trim (LoginScreen.email s) = [] \/ Js.trim (LoginScreen.password s) = [] ->
      LoginScreen.handleLogin s w =
        (Resolved s, pushUi (Alert (Js.lit "Error") (Js.lit "Please fill in all fields")) w)).
Proof.
  assert (Hb : blank s = true
               <-> Js.trim (LoginScreen.email s) = [] \/ Js.trim (LoginScreen.password s) = []).
  { unfold blank. rewrite orb_true_iff, !negb_true_iff, !truthy_false. reflexivity. }
  rewrite handleLogin_eq. destruct (blank s) eqn:Eb.
  - split; [exists s; repeat split|]. split; [|reflexivity].
    split; [intros _; by apply Hb|reflexivity].
  - pose proof (login_wire (LoginScreen.credentials s) w) as Hw.
    assert (Hne : wire w ++ [posted w (Js.lit "/auth/login")
                               (JsonBody (LoginScreen.credentials s))] ≠ wire w).
    { intros E. apply (f_equal length) in E. rewrite length_app in E. cbn in E. lia. }
    destruct (AuthContext.login _ w) as [[a|e] w1]; cbn [fst snd pushUi wire] in *.
    + split; [eexists; repeat split; reflexivity|].
      split; [|intros Hx; apply Hb in Hx; discriminate].
      split; [intros E; congruence|intros Hx; apply Hb in Hx; discriminate].
    + split; [eexists; repeat split; reflexivity|].
      split; [|intros Hx; apply Hb in Hx; discriminate].
      split; [intros E; congruence|intros Hx; apply Hb in Hx; discriminate].
Qed.

(** X18.  When the backend refuses a login with a status outside 2xx and
    a non-empty [message] in the body, the dialog shown is ['Login Failed']
    with exactly that message; the screen's own fallback text is not
    used, the context stays as it was and [loading] ends false. *)
Theorem refused_login_shows_server_message
    (s : LoginScreen.Screen) (w : World) (r : Response) (m : jsstring) :
  blank s = false ->
  respond (wire w)
    (posted w (Js.lit "/auth/login") (JsonBody (LoginScreen.credentials s))) = Answered r ->
  is2xx r = false ->
  Json.get (Js.lit "message") (payload r) = JStr m ->
  m ≠ [] ->
  (LoginScreen.handleLogin s w).1
    = Resolved (LoginScreen.setLoading false (LoginScreen.setLoading true s))
  /\ ui (LoginScreen.handleLogin s w).2 = ui w ++ [Alert (Js.lit "Login Failed") m]
  /\ auth (LoginScreen.handleLogin s w).2 = auth w.
Proof.
  intros Hb Hr H2 Hm Hne. apply truthy_true in Hne.
  rewrite handleLogin_eq, Hb.
  unfold AuthContext.login, bind.
  rewrite login_eq, Hr, H2.
  cbn [fst snd pushUi ui auth]. rewrite refused_ui, refused_auth.
  split; [reflexivity|]. split; [|reflexivity].
  unfold loginFailed, messageOf, handleApiError, statusError.
  cbn [error_response error_message]. rewrite Hm.
  unfold Json.or. cbn [Json.truthy]. rewrite Hne. cbn [Json.truthy]. rewrite Hne.
  cbn [toString]. unfold orElse. rewrite Hne. reflexivity.
Qed.

End WithEnv.

Definition acceptingBackend : Backend :=
  Scenarios.replying 200
    (JObj [(Js.lit "user", JObj []); (Js.lit "token", JStr (Js.lit "abc"))]).

Definition refusingBackend : Backend :=
  Scenarios.replying 400 (JObj [(Js.lit "message", JStr (Js.lit "Wrong password"))]).

Definition loginForm : LoginScreen.Screen :=
  {| LoginScreen.email := Js.lit " Ann@Example.com ";
     LoginScreen.password := Js.lit "secret";
     LoginScreen.loading := false |}.

Definition acceptedReply : Response :=
  {| status := 200;
     payload := JObj [(Js.lit "user", JObj []); (Js.lit "token", JStr (Js.lit "abc"))] |}.

Definition loggedIn : World :=
  (@AuthContext.login Scenarios.asciiRuntime acceptingBackend (JObj [])
     Scenarios.freshWorld).2.

Definition thenFetched : World :=
  @requests acceptingBackend
    [ClientFrameFacts.fetchUser; ClientFrameFacts.saveSteps] loggedIn.

Lemma login_then_fetchUser_carries_token :
  storage loggedIn !! STORAGE_KEYS.TOKEN = Some (Js.lit "abc")
  /\ length (wire thenFetched) = (length (wire loggedIn) + 2)%nat
  /\ List.map (fun sent => headers sent !! Authorization)
       (drop (length (wire loggedIn)) (wire thenFetched))
     = [Some (Js.lit "Bearer abc"); Some (Js.lit "Bearer abc")].
Proof.
  destruct (@login_then_requests_carry_token Scenarios.asciiRuntime acceptingBackend
              (JObj []) Scenarios.freshWorld acceptedReply (Js.lit "abc")
              [ClientFrameFacts.fetchUser; ClientFrameFacts.saveSteps]
              eq_refl eq_refl ltac:(discriminate) ltac:(discriminate) eq_refl eq_refl)
    as (_ & _ & Hstored & Hlength & _).
  split; [exact Hstored|]. split; [exact Hlength|]. vm_compute. reflexivity.
Defined.

Lemma refused_login_on_loginForm :
  ui (@LoginScreen.handleLogin Scenarios.asciiRuntime refusingBackend loginForm
        Scenarios.freshWorld).2
  = [Alert (Js.lit "Login Failed") (Js.lit "Wrong password")].
Proof.
  refine (proj1 (proj2
    (@refused_login_shows_server_message Scenarios.asciiRuntime refusingBackend
       loginForm Scenarios.freshWorld
       {| status := 400;
          payload := JObj [(Js.lit "message", JStr (Js.lit "Wrong password"))] |}
       (Js.lit "Wrong password") eq_refl eq_refl eq_refl eq_refl _))).
  discriminate.
Defined.

End SignInFacts.

(** ** The code input *)

Module OtpInputFacts.
Import OtpInput OTPScreen.

(** A cell is empty or holds one digit. *)
Definition cellOk (c : jsstring) : bool :=
  match c with
  | [] => true
  | [d] => Js.isAsciiDigit d
  | _ => false
  end.

(** The cells after a series of edits, each a text handed to
    [onChangeText] of the cell at an index, starting from the empty
    input. *)
Definition typed (edits : list (jsstring * nat)) : list jsstring :=
  fold_left (fun otp e => onChangeText e.1 e.2 otp) edits emptyOtp.

(** Arithmetic side conditions on the number of cells. *)
Ltac cells :=
  first
    [ lia
    | match goal with
      | H : length ?l = ?n |- (_ < length ?l)%nat =>
          apply Nat.lt_le_trans with n; [lia|apply Nat.eq_le_incl; symmetry; exact H]
      end ].

Lemma assign_in_range i v l :
  (i < length l)%nat -> assign i v l = <[i := v]> l.
Proof. intros Hi. unfold assign. by rewrite (proj2 (Nat.ltb_lt _ _) Hi). Qed.

Lemma digitsOnly_digits value : forallb Js.isAsciiDigit (digitsOnly value) = true.
Proof.
  apply forallb_forall. intros c Hc. by apply filter_In in Hc as [_ Hc].
Qed.

Lemma forallb_insert (i : nat) v (l : list jsstring) :
  cellOk v = true -> forallb cellOk l = true -> forallb cellOk (<[i := v]> l) = true.
Proof.
  intros Hv. revert i. induction l as [|c l IH]; intros i Hl; [done|].
  cbn in Hl. apply andb_true_iff in Hl as [Hc Hl].
  destruct i; cbn; apply andb_true_iff; auto.
Qed.

(** What the paste loop leaves in the cell [j]. *)
Lemma forEach_lookup chars i index otp j :
  length otp = APP_CONFIG.OTP_LENGTH ->
  forEach chars i index otp !! j =
    if ((i + index <=? j) && (j <? i + index + length chars)
        && (j <? APP_CONFIG.OTP_LENGTH))%nat
    then (fun c => [c]) <$> chars !! (j - (i + index))%nat
    else otp !! j.
Proof.
  unfold APP_CONFIG.OTP_LENGTH.
  revert i otp. induction chars as [|c chars IH]; intros i otp Hlen.
  - cbn [forEach length]. destruct (_ && _) eqn:E; [|reflexivity].
    rewrite !andb_true_iff, Nat.leb_le, !Nat.ltb_lt in E. lia.
  - cbn [forEach length]. unfold APP_CONFIG.OTP_LENGTH.
    destruct (i + index <? 6)%nat eqn:Ein.
    + apply Nat.ltb_lt in Ein.
      rewrite assign_in_range by lia.
      rewrite IH by (by rewrite length_insert).
      destruct (decide (j = i + index)%nat) as [->|Hne].
      * replace (S i + index <=? i + index)%nat with false
          by (symmetry; apply Nat.leb_gt; lia).
        cbn [andb]. rewrite list_lookup_insert_eq by cells.
        replace (i + index <=? i + index)%nat with true
          by (symmetry; apply Nat.leb_le; lia).
        replace (i + index <? i + index + S (length chars))%nat with true
          by (symmetry; apply Nat.ltb_lt; lia).
        replace (i + index <? 6)%nat with true
          by (symmetry; apply Nat.ltb_lt; lia).
        cbn [andb]. by rewrite Nat.sub_diag.
      * rewrite list_lookup_insert_ne by lia.
        destruct (decide (i + index < j)%nat) as [Hlt|Hge].
        -- replace (S i + index <=? j)%nat with true
             by (symmetry; apply Nat.leb_le; lia).
           replace (i + index <=? j)%nat with true
             by (symmetry; apply Nat.leb_le; lia).
           replace (j <? i + index + S (length chars))%nat
             with (j <? S i + index + length chars)%nat
             by (f_equal; lia).
           replace (j - (i + index))%nat with (S (j - (S i + index)))%nat by lia.
           reflexivity.
        -- replace (S i + index <=? j)%nat with false
             by (symmetry; apply Nat.leb_gt; lia).
           replace (i + index <=? j)%nat with false
             by (symmetry; apply Nat.leb_gt; lia).
           reflexivity.
    + apply Nat.ltb_ge in Ein. rewrite IH by done.
      destruct (j <? 6)%nat eqn:Ej.
      * apply Nat.ltb_lt in Ej.
        replace (S i + index <=? j)%nat with false
          by (symmetry; apply Nat.leb_gt; lia).
        replace (i + index <=? j)%nat with false
          by (symmetry; apply Nat.leb_gt; lia).
        reflexivity.
      * by rewrite !andb_false_r.
Qed.

Lemma forEach_length chars i index otp :
  length otp = APP_CONFIG.OTP_LENGTH ->
  length (forEach chars i index otp) = APP_CONFIG.OTP_LENGTH.
Proof.
  unfold APP_CONFIG.OTP_LENGTH.
  revert i otp. induction chars as [|c chars IH]; intros i otp Hlen; [done|].
  cbn [forEach]. unfold APP_CONFIG.OTP_LENGTH.
  destruct (i + index <? 6)%nat eqn:Ein; [|by apply IH].
  apply Nat.ltb_lt in Ein. apply IH.
  rewrite assign_in_range by lia. by rewrite length_insert.
Qed.

Lemma forEach_cells chars i index otp :
  length otp = APP_CONFIG.OTP_LENGTH ->
  forallb Js.isAsciiDigit chars = true ->
  forallb cellOk otp = true ->
  forallb cellOk (forEach chars i index otp) = true.
Proof.
  unfold APP_CONFIG.OTP_LENGTH.
  revert i otp. induction chars as [|c chars IH]; intros i otp Hlen Hd Hotp; [done|].
  cbn in Hd. apply andb_true_iff in Hd as [Hc Hd].
  cbn [forEach]. unfold APP_CONFIG.OTP_LENGTH.
  destruct (i + index <? 6)%nat eqn:Ein; [|by apply IH].
  apply Nat.ltb_lt in Ein. rewrite assign_in_range by lia.
  apply IH; [by rewrite length_insert|done|by apply forallb_insert].
Qed.

Lemma onChangeText_wellFormed value index otp :
  (index < APP_CONFIG.OTP_LENGTH)%nat ->
  length otp = APP_CONFIG.OTP_LENGTH -> forallb cellOk otp = true ->
  length (onChangeText value index otp) = APP_CONFIG.OTP_LENGTH
  /\ forallb cellOk (onChangeText value index otp) = true.
Proof.
  unfold APP_CONFIG.OTP_LENGTH.
  intros Hi Hlen Hotp. unfold onChangeText, handleOtpChange.
  pose proof (digitsOnly_digits value) as Hd.
  destruct (1 <? length (digitsOnly value))%nat eqn:El.
  - split; [by apply forEach_length|].
    apply forEach_cells; try done.
    apply forallb_forall. intros c Hc. apply list_elem_of_In, elem_of_take in Hc as (n & Hc & _).
    rewrite forallb_forall in Hd. by apply Hd, list_elem_of_In, list_elem_of_lookup_2 with n.
  - apply Nat.ltb_ge in El. rewrite assign_in_range by lia.
    split; [by rewrite length_insert|]. apply forallb_insert; [|done].
    destruct (digitsOnly value) as [|d [|d' rest]]; cbn in *; [done| |lia].
    by rewrite andb_true_r in Hd.
Qed.

Lemma typed_wellFormed edits :
  Forall (fun e => (e.2 < APP_CONFIG.OTP_LENGTH)%nat) edits ->
  length (typed edits) = APP_CONFIG.OTP_LENGTH /\ forallb cellOk (typed edits) = true.
Proof.
  unfold typed.
  assert (H0 : length emptyOtp = APP_CONFIG.OTP_LENGTH /\ forallb cellOk emptyOtp = true)
    by done.
  revert H0. generalize emptyOtp.
  induction edits as [|e edits IH]; intros otp Hotp Hall; [done|].
  apply Forall_cons in Hall as [He Hall]. cbn [fold_left].
  apply IH; [|done]. destruct Hotp. by apply onChangeText_wellFormed.
Qed.

Lemma cells_joined (l : list jsstring) :
  forallb cellOk l = true ->
  forallb Js.isAsciiDigit (concat l) = true
  /\ (length (concat l) <= length l)%nat
  /\ (length (concat l) = length l -> Forall (fun c => exists d, c = [d]) l).
Proof.
  induction l as [|c l IH]; intros Hl; [by repeat split|].
  cbn in Hl. apply andb_true_iff in Hl as [Hc Hl].
  destruct (IH Hl) as (Hd & Hle & Hall).
  destruct c as [|d [|d' rest]]; [| |done]; cbn [concat app length].
  - split; [done|]. split; [lia|]. intros E. lia.
  - cbn in Hc. split; [by cbn; rewrite Hc|]. split; [lia|].
    intros E. constructor; [by exists d|]. apply Hall. lia.
Qed.

(** X19.  The input keeps its shape.  Whatever texts the cells are given,
    in whatever order, the input still has six cells, each empty or holding
    one decimal digit; so the code [handleVerify] joins is made of digits
    only, and it has the length 6 that lets a request out only when every
    cell holds a digit. *)
Theorem code_input_holds_digits (edits : list (jsstring * nat)) :
  Forall (fun e => (e.2 < 6)%nat) edits ->
  length (typed edits) = 6%nat
  /\ forallb Js.isAsciiDigit (concat (typed edits)) = true
  /\ (length (concat (typed edits)) <= 6)%nat
  /\ (length (concat (typed edits)) = 6%nat ->
        Forall (fun c => exists d, c = [d]) (typed edits))
  /\ forall `{Runtime} `{Backend} (s : Screen) (w : World),
       otp s = typed edits ->
       wire (handleVerify s w).2 ≠ wire w ->
       Forall (fun c => exists d, c = [d]) (otp s).
Proof.
  intros Hall. destruct (typed_wellFormed edits Hall) as [Hl Hc].
  destruct (cells_joined _ Hc) as (Hd & Hle & Hfull).
  change APP_CONFIG.OTP_LENGTH with 6%nat in Hl. rewrite Hl in Hle, Hfull.
  repeat split; try done.
  intros R B s w Hs Hw. rewrite Hs. apply Hfull.
  destruct (decide (length (concat (typed edits)) = 6%nat)) as [|Hne]; [done|].
  exfalso. apply Hw. rewrite OTPFacts.handleVerify_incomplete; [reflexivity|].
  by rewrite Hs.
Qed.

(** X20.  What one edit does to the cells of a six-cell input.  The text
    is first reduced to its decimal digits.  With at most one digit left,
    the cell at the index takes it (a text without a digit empties the
    cell) and no other cell changes.  With more, the digits go into the
    cells from the index on, one each, until the sixth cell; the cells
    before the index and those after the last digit keep their content. *)
Theorem edit_fills_cells_from_index
    (value : jsstring) (index : nat) (otp : list jsstring) (j : nat) :
  length otp = 6%nat ->
  (index < 6)%nat ->
  onChangeText value index otp !! j =
    if (length (digitsOnly value) <=? 1)%nat
    then (if decide (j = index) then Some (digitsOnly value) else otp !! j)
    else if ((index <=? j) && (j <? index + length (digitsOnly value)) && (j <? 6))%nat
         then (fun c => [c]) <$> digitsOnly value !! (j - index)%nat
         else otp !! j.
Proof.
  intros Hlen Hi. unfold onChangeText, handleOtpChange.
  destruct (length (digitsOnly value) <=? 1)%nat eqn:El.
  - apply Nat.leb_le in El.
    replace (1 <? length (digitsOnly value))%nat with false
      by (symmetry; apply Nat.ltb_ge; lia).
    rewrite assign_in_range by lia.
    destruct (decide (j = index)) as [->|Hne].
    + apply list_lookup_insert_eq. cells.
    + by apply list_lookup_insert_ne.
  - apply Nat.leb_gt in El.
    replace (1 <? length (digitsOnly value))%nat with true
      by (symmetry; apply Nat.ltb_lt; lia).
    rewrite forEach_lookup by done. cbn [Nat.add].
    change APP_CONFIG.OTP_LENGTH with 6%nat.
    rewrite length_take.
    destruct (index <=? j)%nat eqn:E1; [|reflexivity]. apply Nat.leb_le in E1.
    destruct (j <? 6)%nat eqn:E3; [|by rewrite !andb_false_r].
    apply Nat.ltb_lt in E3. rewrite !andb_true_r. cbn [andb].
    destruct (j <? index + length (digitsOnly value))%nat eqn:E2.
    + apply Nat.ltb_lt in E2.
      destruct (_ <? _)%nat eqn:E4; [by rewrite lookup_take_lt by lia|].
      apply Nat.ltb_ge in E4. cbv delta [Js.char Js.str] in *. lia.
    + apply Nat.ltb_ge in E2.
      destruct (_ <? _)%nat eqn:E4; [|reflexivity].
      apply Nat.ltb_lt in E4. cbv delta [Js.char Js.str] in *. lia.
Qed.

Lemma code_input_after_a_paste :
  length (typed [(Js.lit "12-34 56", 0%nat); (Js.lit "x", 2%nat)]) = 6%nat.
Proof.
  apply (code_input_holds_digits [(Js.lit "12-34 56", 0%nat); (Js.lit "x", 2%nat)]).
  repeat constructor.
Defined.

Lemma paste_into_third_cell :
  onChangeText (Js.lit "98765") 2 emptyOtp !! 5%nat = Some (Js.lit "6").
Proof.
  rewrite (edit_fills_cells_from_index (Js.lit "98765") 2 emptyOtp 5 eq_refl); [reflexivity|].
  cbn. lia.
Defined.

End OtpInputFacts.

(** ** The resend link of the OTP screen *)

Module OTPResendFacts.
Import OTPScreen OTPResend Api ApiFacts AuthServiceFacts.

(** The state [n] seconds after the screen opened. *)
Definition waited (n : nat) : Resend := Nat.iter n second initial.

Lemma waited_S n : waited (S n) = second (waited n).
Proof. reflexivity. Qed.

Lemma waited_counting n :
  (n < 60)%nat ->
  waited n = {| countdown := 60 - Z.of_nat n; canResend := false; resendLoading := false |}.
Proof.
  induction n as [|n IH]; intros Hn; [reflexivity|].
  rewrite waited_S, IH by lia.
  unfold second, timerArmed, effect, timerArmed.
  cbn [countdown canResend setCountdown negb andb].
  replace (0 <? 60 - Z.of_nat n) with true by (symmetry; apply Z.ltb_lt; lia).
  replace (0 <? 60 - Z.of_nat n - 1) with true by (symmetry; apply Z.ltb_lt; lia).
  cbn [andb]. unfold setCountdown. cbn [canResend resendLoading]. f_equal. lia.
Qed.

Lemma waited_done n :
  (60 <= n)%nat ->
  waited n = {| countdown := 0; canResend := true; resendLoading := false |}.
Proof.
  induction n as [|n IH]; intros Hn; [lia|].
  rewrite waited_S.
  destruct (decide (n = 59%nat)) as [->|Hne].
  - rewrite waited_counting by lia. reflexivity.
  - rewrite IH by lia. reflexivity.
Qed.

Section WithEnv.
Context `{Runtime} `{Backend}.

Definition resent : UiEvent :=
  Alert (Js.lit "Success") (Js.lit "A new OTP has been sent to your email").

Definition resendFailed (error : Exn) : UiEvent :=
  Alert (Js.lit "Error")
        (orElse (messageOf error) (Js.lit "Failed to resend OTP. Please try again.")).

Lemma handleResend_locked s r w :
  canResend r = false -> handleResend s r w = (Resolved (s, r), w).
Proof. intros Hc. unfold handleResend. by rewrite Hc. Qed.

Lemma handleResend_open s r w :
  canResend r = true ->
  handleResend s r w =
    match AuthContextMore.resendOTP (email s) w with
    | (Resolved _, w1) =>
        (Resolved (setOtp emptyOtp s,
                   {| countdown := 60; canResend := false; resendLoading := false |}),
         pushUi resent w1)
    | (Rejected e, w1) =>
        (Resolved (s, setResendLoading false r), pushUi (resendFailed e) w1)
    end.
Proof.
  intros Hc. unfold handleResend. rewrite Hc. cbn [negb].
  unfold bind, tryCatch, ret, alert, modify.
  destruct (AuthContextMore.resendOTP (email s) w) as [[a|e] w1]; reflexivity.
Qed.

Lemma resendOTP_wire address w :
  wire (AuthContextMore.resendOTP address w).2
  = wire w ++ [posted w (Js.lit "/auth/resend-otp")
                 (JsonBody (JObj [(Js.lit "email", JStr address)]))].
Proof.
  unfold AuthContextMore.resendOTP, AuthServiceMore.resendOTP,
    AuthServiceMore.rethrowing, bind, tryCatch, ret, throw.
  pose proof (post_wire (Js.lit "/auth/resend-otp")
                (JsonBody (JObj [(Js.lit "email", JStr address)])) w) as Hw.
  destruct (post _ _ w) as [[r|e] w1]; exact Hw.
Qed.

(** X21.  A new code can be asked for only after the countdown.  [n]
    seconds after the screen opened the countdown shows [60 - n] (0 from
    60 seconds on) and the link is enabled exactly from 60 seconds on.
    Before that [handleResend] does nothing at all.  After that it never
    throws and sends one POST to ['/auth/resend-otp'] with the email; when
    the call succeeds the cells are emptied and the countdown starts again
    from 60 with the link disabled; when it fails the cells and the
    countdown state stay, so the user can try again at once. *)
Theorem resend_unlocks_after_countdown (n : nat) (s : Screen) (w : World) :
  countdown (waited n) = Z.max 0 (60 - Z.of_nat n)
  /\ canResend (waited n) = (60 <=? n)%nat
  /\ if (n <? 60)%nat
     then handleResend s (waited n) w = (Resolved (s, waited n), w)
     else (exists sent,
             wire (handleResend s (waited n) w).2 = wire w ++ [sent]
             /\ method sent = POST
             /\ url sent = Js.lit "/auth/resend-otp"
             /\ data sent = JsonBody (JObj [(Js.lit "email", JStr (email s))]))
          /\ match (AuthContextMore.resendOTP (email s) w).1 with
             | Resolved _ =>
                 (handleResend s (waited n) w).1
                 = Resolved (setOtp emptyOtp s, initial)
             | Rejected _ =>
                 (handleResend s (waited n) w).1 = Resolved (s, waited n)
             end.
Proof.
  destruct (n <? 60)%nat eqn:En.
  - apply Nat.ltb_lt in En. rewrite waited_counting by lia.
    cbn [countdown canResend].
    split; [lia|]. split; [symmetry; apply Nat.leb_gt; lia|].
    by apply handleResend_locked.
  - apply Nat.ltb_ge in En. rewrite waited_done by lia.
    cbn [countdown canResend].
    split; [lia|]. split; [symmetry; apply Nat.leb_le; lia|].
    rewrite handleResend_open by reflexivity.
    pose proof (resendOTP_wire (email s) w) as Hw.
    destruct (AuthContextMore.resendOTP (email s) w) as [[a|e] w1];
      cbn [fst snd pushUi wire] in *.
    + split; [|reflexivity]. eexists. split; [exact Hw|apply posted_shape].
    + split; [|reflexivity]. eexists. split; [exact Hw|apply posted_shape].
Qed.

End WithEnv.
End OTPResendFacts.

(** ** The forgotten-password flow *)

Module ForgotPasswordFacts.
Import ForgotPasswordScreen Api ApiFacts AuthServiceFacts JsFacts.

(** The bodies of the three requests. *)
Definition sendBody (e : jsstring) : Body :=
  JsonBody (JObj [(Js.lit "email", JStr e)]).

Definition verifyBody (e o : jsstring) : Body :=
  JsonBody (JObj [(Js.lit "email", JStr e); (Js.lit "otp", JStr o)]).

Definition resetBody (e o p : jsstring) : Body :=
  JsonBody (JObj [(Js.lit "email", JStr e); (Js.lit "otp", JStr o);
                  (Js.lit "newPassword", JStr p)]).

(** The rules of [handleResetPassword]. *)
Definition passwordsOk (s : Screen) : bool :=
  Js.truthy (newPassword s) && negb (length (newPassword s) <? 6)%nat
  && Js.truthy (confirmPassword s) && bool_decide (newPassword s = confirmPassword s).

Lemma size_insert_positive (k v : jsstring) (e : gmap jsstring jsstring) :
  (0 <? size (<[k := v]> e))%nat = true.
Proof.
  apply Nat.ltb_lt. destruct (size (<[k := v]> e)) eqn:E; [|lia].
  apply map_size_empty_iff in E. by apply insert_non_empty in E.
Qed.

Lemma newErrors_size s : (0 <? size (newErrors s))%nat = negb (passwordsOk s).
Proof.
  unfold newErrors, passwordsOk, checkConfirmPassword, checkNewPassword.
  destruct (Js.truthy (newPassword s)); cbn [negb andb];
    [destruct (length (newPassword s) <? 6)%nat; cbn [negb andb]|];
    (destruct (Js.truthy (confirmPassword s)); cbn [negb andb];
     [destruct (bool_decide _); cbn [negb]|]);
    rewrite ?size_insert_positive; reflexivity.
Qed.

Section WithEnv.
Context `{Runtime} `{Backend}.

(** A [post] in one equation. *)
Lemma post_eq path body w :
  let sent := posted w path body in
  let w1 := pushWire sent w in
  post path body w =
    match respond (wire w) sent with
    | Answered r =>
        if is2xx r then (Resolved r, w1)
        else (Rejected (statusError r),
              if decide (status r = 401)
              then setStorage (clearCredentials (storage w)) w1 else w1)
    | NoResponse m => (Rejected (networkError m), w1)
    end.
Proof. apply request_eq. Qed.

(** Whether the backend accepts the request a [post] would send now. *)
Definition accepts (w : World) (path : jsstring) (body : Body) : bool :=
  match respond (wire w) (posted w path body) with
  | Answered r => is2xx r
  | NoResponse _ => false
  end.

Lemma post_outcome path body w :
  exists w1,
    wire w1 = wire w ++ [posted w path body]
    /\ if accepts w path body
       then exists r, post path body w = (Resolved r, w1)
       else exists e, post path body w = (Rejected e, w1).
Proof.
  rewrite post_eq. unfold accepts.
  destruct (respond _ _) as [r|m]; [destruct (is2xx r)|].
  - eexists. split; [|by eexists]. reflexivity.
  - destruct (decide _); (eexists; split; [|by eexists]; reflexivity).
  - eexists. split; [|by eexists]. reflexivity.
Qed.

Definition failed (error : Exn) : UiEvent :=
  Alert (Js.lit "Error") (handleApiError error).

Lemma handleSendOtp_eq s w :
  handleSendOtp s w =
    if negb (Js.truthy (Js.trim (email s)))
    then (Resolved (setErrors {[ Js.lit "email" := Js.lit "Email is required" ]} s), w)
    else if negb (Regex.test SignupScreen.emailPattern (email s))
    then (Resolved (setErrors {[ Js.lit "email" := Js.lit "Invalid email format" ]} s), w)
    else
      let pending := setErrors ∅ (setLoading true s) in
      match post (Js.lit "/auth/forgot-password") (sendBody (address s)) w with
      | (Resolved _, w1) =>
          (Resolved (setLoading false
                       (setCanResend false (setCountdown 60 (setStep OtpStep pending)))),
           w1)
      | (Rejected e, w1) => (Resolved (setLoading false pending), pushUi (failed e) w1)
      end.
Proof.
  unfold handleSendOtp.
  destruct (negb (Js.truthy _)); [reflexivity|].
  destruct (negb (Regex.test _ _)); [reflexivity|].
  unfold bind, tryCatch, ret, alert, modify, sendBody. cbv zeta.
  change (address (setErrors ∅ (setLoading true s))) with (address s).
  destruct (post _ _ w) as [[r|e] w1]; reflexivity.
Qed.

Lemma handleVerifyOtp_eq s w :
  handleVerifyOtp s w =
    if negb (length (concat (otp s)) =? 6)%nat
    then (Resolved s,
          pushUi (Alert (Js.lit "Error") (Js.lit "Please enter the complete OTP code")) w)
    else
      let pending := setLoading true s in
      match post (Js.lit "/auth/verify-reset-otp")
              (verifyBody (address s) (concat (otp s))) w with
      | (Resolved _, w1) =>
          (Resolved (setLoading false
                       (setStep NewPasswordStep (setVerifiedOtp (concat (otp s)) pending))),
           w1)
      | (Rejected e, w1) =>
          (Resolved (setLoading false (setOtp OTPScreen.emptyOtp pending)),
           pushUi (failed e) w1)
      end.
Proof.
  unfold handleVerifyOtp. change APP_CONFIG.OTP_LENGTH with 6%nat.
  destruct (negb _); [reflexivity|].
  unfold bind, tryCatch, ret, alert, modify, verifyBody. cbv zeta.
  change (address (setLoading true s)) with (address s).
  destruct (post _ _ w) as [[r|e] w1]; reflexivity.
Qed.

(** What [handleResetPassword] shows after the request. *)
Definition resetDone (web : bool) (w : World) : World :=
  if web
  then pushUi (Navigate (Js.lit "Login") JUndefined)
         (pushUi (Alert []
            (Js.lit "Password reset successful! Please login with your new password.")) w)
  else pushUi (Alert (Js.lit "Password Reset Successful")
         (Js.lit "Your password has been reset. Please login with your new password.")) w.

Definition resetFailed (web : bool) (error : Exn) (w : World) : World :=
  if web then pushUi (Alert [] (handleApiError error)) w
  else pushUi (Alert (Js.lit "Error") (handleApiError error)) w.

Lemma handleResetPassword_eq web s w :
  handleResetPassword web s w =
    if loading s then (Resolved s, w)
    else if negb (passwordsOk s) then (Resolved (setErrors (newErrors s) s), w)
    else
      let pending := setErrors ∅ (setLoading true s) in
      match post (Js.lit "/auth/reset-password")
              (resetBody (address s) (verifiedOtp s) (newPassword s)) w with
      | (Resolved _, w1) => (Resolved (setLoading false pending), resetDone web w1)
      | (Rejected e, w1) => (Resolved (setLoading false pending), resetFailed web e w1)
      end.
Proof.
  unfold handleResetPassword. destruct (loading s); [reflexivity|].
  rewrite newErrors_size. destruct (negb (passwordsOk s)); [reflexivity|].
  unfold bind, tryCatch, ret, alert, modify, resetBody, resetDone, resetFailed.
  cbv zeta.
  change (address (setErrors ∅ (setLoading true s))) with (address s).
  cbn [verifiedOtp newPassword setErrors setLoading].
  destruct (post _ _ w) as [[r|e] w1]; destruct web; reflexivity.
Qed.

Lemma handleResendOtp_eq s w :
  handleResendOtp s w =
    if negb (canResend s) then (Resolved s, w)
    else
      let pending := setLoading true s in
      match post (Js.lit "/auth/forgot-password") (sendBody (address s)) w with
      | (Resolved _, w1) =>
          (Resolved (setLoading false
                       (setOtp OTPScreen.emptyOtp
                          (setCountdown 60 (setCanResend false pending)))),
           pushUi (Alert (Js.lit "Success")
                     (Js.lit "A new OTP has been sent to your email")) w1)
      | (Rejected e, w1) => (Resolved (setLoading false pending), pushUi (failed e) w1)
      end.
Proof.
  unfold handleResendOtp. destruct (negb _); [reflexivity|].
  unfold bind, tryCatch, ret, alert, modify, sendBody. cbv zeta.
  change (address (setLoading true s)) with (address s).
  destruct (post _ _ w) as [[r|e] w1]; reflexivity.
Qed.

(** X22.  [handleSendOtp] never throws and asks for a reset code exactly
    when the email, as typed, matches the email pattern (a blank email
    never does).  Otherwise it only sets the error under the field.  The
    request is one POST to ['/auth/forgot-password'] with the email
    lower-cased (trimming changes nothing on an email that matches).  The
    screen moves to the code step, with the countdown at 60 and the resend
    link disabled, exactly when the backend accepts the request; a
    refusal shows a dialog and keeps the step. *)
Theorem reset_code_requested_for_valid_email (s : Screen) (w : World) :
  let ok := Regex.test SignupScreen.emailPattern (email s) in
  (exists s', (handleSendOtp s w).1 = Resolved s'
     /\ email s' = email s
     /\ (ok = false -> step s' = step s /\ errors s' !! Js.lit "email" ≠ None)
     /\ (ok = true ->
           loading s' = false
           /\ if accepts w (Js.lit "/auth/forgot-password") (sendBody (address s))
              then step s' = OtpStep /\ countdown s' = 60 /\ canResend s' = false
              else step s' = step s))
  /\ (ok = false -> (handleSendOtp s w).2 = w)
  /\ (ok = true ->
        address s = toLowerCase (email s)
        /\ exists sent,
             wire (handleSendOtp s w).2 = wire w ++ [sent]
             /\ method sent = POST
             /\ url sent = Js.lit "/auth/forgot-password"
             /\ data sent = JsonBody (JObj [(Js.lit "email", JStr (toLowerCase (email s)))])).
Proof.
  intros ok. subst ok. rewrite handleSendOtp_eq.
  destruct (Regex.test SignupScreen.emailPattern (email s)) eqn:Et.
  - pose proof (SignupFacts.test_email_not_blank _ Et) as Hb. rewrite Hb. cbn [negb].
    assert (Ha : address s = toLowerCase (email s)).
    { unfold address. f_equal.
      by apply trim_no_space, SignupFacts.emailPattern_no_space. }
    cbv zeta.
    destruct (post_outcome (Js.lit "/auth/forgot-password") (sendBody (address s)) w)
      as (w1 & Hw & Ho).
    destruct (accepts w _ _).
    + destruct Ho as [r ->]. cbn [fst snd].
      split.
      { eexists. split; [reflexivity|]. split; [reflexivity|].
        split; [discriminate|]. intros _. repeat split. }
      split; [discriminate|]. intros _. split; [done|].
      eexists. split; [exact Hw|]. rewrite <- Ha. apply posted_shape.
    + destruct Ho as [e ->]. cbn [fst snd pushUi wire].
      split.
      { eexists. split; [reflexivity|]. split; [reflexivity|].
        split; [discriminate|]. intros _. repeat split. }
      split; [discriminate|]. intros _. split; [done|].
      eexists. split; [exact Hw|]. rewrite <- Ha. apply posted_shape.
  - assert (Hs : forall m,
      errors (setErrors {[ Js.lit "email" := m ]} s) !! Js.lit "email" ≠ None).
    { intros m. cbn [errors setErrors]. by rewrite lookup_singleton_eq. }
    destruct (negb (Js.truthy _)); cbn [negb fst snd].
    + split.
      { eexists. split; [reflexivity|]. split; [reflexivity|].
        split; [|discriminate]. intros _. split; [reflexivity|apply Hs]. }
      split; [done|discriminate].
    + split.
      { eexists. split; [reflexivity|]. split; [reflexivity|].
        split; [|discriminate]. intros _. split; [reflexivity|apply Hs]. }
      split; [done|discriminate].
Qed.

(** X23.  [handleResetPassword] never throws.  It sends a request exactly
    when no request is pending ([loading] false), the new password is at
    least 6 characters long and the confirmation equals it; in every other
    case the world is untouched.  The request is one POST to
    ['/auth/reset-password'] with the lower-cased trimmed email, the code
    kept from the verification and the new password as typed; afterwards
    [loading] is false and the field errors are cleared. *)
Theorem reset_password_rules (web : bool) (s : Screen) (w : World) :
  let sends := negb (loading s) && (6 <=? length (newPassword s))%nat
               && bool_decide (newPassword s = confirmPassword s) in
  (exists s', (handleResetPassword web s w).1 = Resolved s'
              /\ step s' = step s /\ email s' = email s
              /\ verifiedOtp s' = verifiedOtp s
              /\ (sends = true -> loading s' = false /\ errors s' = ∅))
  /\ (sends = false -> (handleResetPassword web s w).2 = w)
  /\ (sends = true ->
        exists sent,
          wire (handleResetPassword web s w).2 = wire w ++ [sent]
          /\ method sent = POST
          /\ url sent = Js.lit "/auth/reset-password"
          /\ data sent = JsonBody
               (JObj [(Js.lit "email", JStr (toLowerCase (Js.trim (email s))));
                      (Js.lit "otp", JStr (verifiedOtp s));
                      (Js.lit "newPassword", JStr (newPassword s))])).
Proof.
  intros sends.
  assert (Hs : sends = negb (loading s) && passwordsOk s).
  { subst sends. unfold passwordsOk. rewrite <- andb_assoc. f_equal.
    destruct (bool_decide_reflect (newPassword s = confirmPassword s)) as [E|E];
      [|by rewrite !andb_false_r].
    rewrite <- E, !andb_true_r.
    destruct (Nat.leb_spec 6 (length (newPassword s))) as [Hl|Hl].
    - replace (length (newPassword s) <? 6)%nat with false
        by (symmetry; apply Nat.ltb_ge; lia).
      destruct (newPassword s); [cbn in Hl; lia|reflexivity].
    - replace (length (newPassword s) <? 6)%nat with true
        by (symmetry; apply Nat.ltb_lt; lia).
      by rewrite !andb_false_r. }
  rewrite Hs. clear Hs sends. rewrite handleResetPassword_eq.
  destruct (loading s); cbn [negb andb].
  { split; [exists s; repeat split; discriminate|]. split; [done|discriminate]. }
  destruct (passwordsOk s); cbn [negb].
  - destruct (post_outcome (Js.lit "/auth/reset-password")
                (resetBody (address s) (verifiedOtp s) (newPassword s)) w)
      as (w1 & Hw & Ho).
    assert (Hui : forall e, wire (resetDone web w1) = wire w1
                            /\ wire (resetFailed web e w1) = wire w1).
    { intros e. unfold resetDone, resetFailed. destruct web; split; reflexivity. }
    destruct (accepts w _ _); destruct Ho as [x ->]; cbn [fst snd].
    + split; [eexists; repeat split|]. split; [discriminate|]. intros _.
      eexists. rewrite (proj1 (Hui (ThrownError []))).
      split; [exact Hw|]. apply posted_shape.
    + split; [eexists; repeat split|]. split; [discriminate|]. intros _.
      eexists. rewrite (proj2 (Hui x)).
      split; [exact Hw|]. apply posted_shape.
  - split; [eexists; repeat split; discriminate|]. split; [done|discriminate].
Qed.

(** *** The whole flow *)

(** What [send] leaves behind, and the outcome it hands on. *)
Definition settled (w : World) (req : Request) : Outcome Response :=
  match respond (wire w) req with
  | Answered r => if is2xx r then Resolved r else Rejected (statusError r)
  | NoResponse m => Rejected (networkError m)
  end.

Lemma send_eq path body w :
  send path body w
  = (Resolved (settled w (posted w path body)), pushWire (posted w path body) w).
Proof.
  unfold send, settled. rewrite requestInterceptor_eq. fold (posted w path body).
  unfold dispatch, is2xx.
  destruct (respond _ _) as [r|m]; [|reflexivity].
  destruct (_ && _); reflexivity.
Qed.

Lemma receive_eq outcome w :
  receive outcome w =
    match outcome with
    | Resolved r => (Resolved r, w)
    | Rejected e =>
        (Rejected e,
         if decide (statusOf e = Some 401)
         then setStorage (clearCredentials (storage w)) w else w)
    end.
Proof. destruct outcome as [r|e]; [reflexivity|apply responseRejected_eq]. Qed.

Lemma receive_wire outcome w : wire (receive outcome w).2 = wire w.
Proof.
  rewrite receive_eq. destruct outcome as [r|e]; [reflexivity|].
  by destruct (decide _).
Qed.

(** A [post] is its request sent and the reply received at once. *)
Lemma post_halves path body w :
  post path body w = (await outcome <- send path body; receive outcome)%async w.
Proof.
  unfold bind. rewrite send_eq, receive_eq, post_eq. unfold settled. cbv zeta.
  destruct (respond _ _) as [r|m]; [|reflexivity].
  destruct (is2xx r) eqn:E; [reflexivity|].
  cbn [statusOf statusError error_response fmap option_fmap option_map].
  f_equal. destruct (decide (status r = 401)) as [->|Hne].
  - rewrite decide_True by reflexivity. reflexivity.
  - rewrite decide_False by congruence. reflexivity.
Qed.

(** Each handler is its two halves run one after the other. *)
Lemma handlers_at_once web s w :
  handleSendOtp s w = atOnce web (beginSendOtp s) w
  /\ handleVerifyOtp s w = atOnce web (beginVerifyOtp s) w
  /\ handleResetPassword web s w = atOnce web (beginResetPassword s) w
  /\ handleResendOtp s w = atOnce web (beginResendOtp s) w.
Proof.
  unfold atOnce. repeat split.
  - unfold handleSendOtp, beginSendOtp.
    destruct (negb (Js.truthy _)); [reflexivity|].
    destruct (negb (Regex.test _ _)); [reflexivity|].
    cbv zeta. unfold bind, tryCatch, resume. rewrite post_halves.
    unfold bind, tryCatch, ret. rewrite send_eq. cbn [fst snd].
    by destruct (receive _ _) as [[r|e] w2].
  - unfold handleVerifyOtp, beginVerifyOtp. cbv zeta.
    destruct (negb _); [reflexivity|].
    cbv zeta. unfold bind, tryCatch, resume. rewrite post_halves.
    unfold bind, tryCatch, ret. rewrite send_eq. cbn [fst snd].
    by destruct (receive _ _) as [[r|e] w2].
  - unfold handleResetPassword, beginResetPassword. cbv zeta.
    destruct (loading s); [reflexivity|].
    destruct (0 <? _)%nat; [reflexivity|].
    cbv zeta. unfold bind, tryCatch, resume. rewrite post_halves.
    unfold bind, tryCatch, ret. rewrite send_eq. cbn [fst snd].
    by destruct (receive _ _) as [[r|e] w2].
  - unfold handleResendOtp, beginResendOtp. cbv zeta.
    destruct (negb _); [reflexivity|].
    cbv zeta. unfold bind, tryCatch, resume. rewrite post_halves.
    unfold bind, tryCatch, ret. rewrite send_eq. cbn [fst snd].
    by destruct (receive _ _) as [[r|e] w2].
Qed.

(** The request at position [j] of the wire asked to verify the code [o]
    for the address [e], and the backend accepted it. *)
Definition acceptedAt (l : list Request) (j : nat) (e o : jsstring) : Prop :=
  exists req r,
    l !! j = Some req
    /\ url req = Js.lit "/auth/verify-reset-otp"
    /\ data req = verifyBody e o
    /\ respond (take j l) req = Answered r
    /\ is2xx r = true.

(** The code [o] was verified for some address, from position [n0] on. *)
Definition verifiedCode (n0 : nat) (l : list Request) (limit : nat) (o : jsstring)
    : Prop :=
  exists j e, (n0 <= j < limit)%nat /\ acceptedAt l j e o.

(** From position [n0] on, every request for a new password carries a
    code that an earlier request verified, and a password of 6 characters
    or more. *)
Definition covered (n0 : nat) (l : list Request) : Prop :=
  forall i req,
    (n0 <= i)%nat -> l !! i = Some req -> url req = Js.lit "/auth/reset-password" ->
    exists e o p,
      data req = resetBody e o p
      /\ (6 <= length p)%nat
      /\ verifiedCode n0 l i o.

(** At the last step the screen holds a verified code. *)
Definition verified (n0 : nat) (l : list Request) (s : Screen) : Prop :=
  step s = NewPasswordStep -> verifiedCode n0 l (length l) (verifiedOtp s).

(** A verification that waits with an accepted request holds a verified
    code. *)
Definition promised (n0 : nat) (l : list Request) (waiting : list Awaiting) : Prop :=
  forall o r, VerifyOtpAwaits o (Resolved r) ∈ waiting -> verifiedCode n0 l (length l) o.

Definition invariant (n0 : nat) (t : Session) (w : World) : Prop :=
  (n0 <= length (wire w))%nat
  /\ covered n0 (wire w)
  /\ verified n0 (wire w) (screen t)
  /\ promised n0 (wire w) (awaiting t).

(** What the invariant reads of the screen. *)
Definition view (s : Screen) : Step * jsstring := (step s, verifiedOtp s).

(** The screen reads as before, or is not at the last step. *)
Definition harmless (s s' : Screen) : Prop :=
  view s' = view s \/ step s' ≠ NewPasswordStep.

Lemma acceptedAt_app l l' j e o : acceptedAt l j e o -> acceptedAt (l ++ l') j e o.
Proof.
  intros (req & r & Hj & Hu & Hd & Hr & H2).
  pose proof (lookup_lt_Some _ _ _ Hj) as Hlt.
  exists req, r. repeat split; try done.
  - by apply lookup_app_l_Some.
  - rewrite take_app_le by lia. done.
Qed.

Lemma verifiedCode_app n0 l l' limit limit' o :
  (limit <= limit')%nat ->
  verifiedCode n0 l limit o -> verifiedCode n0 (l ++ l') limit' o.
Proof.
  intros Hle (j & e & Hj & Ha). exists j, e. split; [lia|by apply acceptedAt_app].
Qed.

Lemma verified_app n0 l l' s : verified n0 l s -> verified n0 (l ++ l') s.
Proof.
  intros Hv Hs. eapply verifiedCode_app; [|by apply Hv]. rewrite length_app. lia.
Qed.

Lemma promised_app n0 l l' waiting :
  promised n0 l waiting -> promised n0 (l ++ l') waiting.
Proof.
  intros Hp o r Hin. eapply verifiedCode_app; [|by eapply Hp]. rewrite length_app. lia.
Qed.

Lemma verified_harmless n0 l s s' :
  harmless s s' -> verified n0 l s -> verified n0 l s'.
Proof.
  intros [Hv|Hn] Hs Hstep; [|done].
  unfold view in Hv. injection Hv as Hst Ho. rewrite Ho. apply Hs. congruence.
Qed.

Lemma covered_snoc_other n0 l req :
  covered n0 l -> url req ≠ Js.lit "/auth/reset-password" -> covered n0 (l ++ [req]).
Proof.
  intros Hc Hu i req' Hi Hl Hr.
  destruct (decide (i < length l)%nat) as [Hlt|Hge].
  - rewrite lookup_app_l in Hl by done.
    destruct (Hc i req' Hi Hl Hr) as (e & o & p & Hd & Hp & Hv).
    exists e, o, p. repeat split; try done.
    eapply verifiedCode_app; [|exact Hv]. lia.
  - rewrite lookup_app_r in Hl by lia.
    destruct (i - length l)%nat; [|done]. cbn in Hl. congruence.
Qed.

Lemma covered_snoc_reset n0 l req e o p :
  covered n0 l ->
  data req = resetBody e o p -> (6 <= length p)%nat ->
  verifiedCode n0 l (length l) o ->
  covered n0 (l ++ [req]).
Proof.
  intros Hc Hd Hp Hv i req' Hi Hl Hr.
  destruct (decide (i < length l)%nat) as [Hlt|Hge].
  - rewrite lookup_app_l in Hl by done.
    destruct (Hc i req' Hi Hl Hr) as (e' & o' & p' & Hd' & Hp' & Hv').
    exists e', o', p'. repeat split; try done.
    eapply verifiedCode_app; [|exact Hv']. lia.
  - rewrite lookup_app_r in Hl by lia.
    destruct (i - length l)%nat eqn:Ei; [|done]. cbn in Hl. injection Hl as <-.
    exists e, o, p. repeat split; try done.
    eapply verifiedCode_app; [|exact Hv]. lia.
Qed.

Lemma effect_view s : view (effect s) = view s.
Proof. unfold effect. repeat case_match; reflexivity. Qed.

Lemma second_view s : view (second s) = view s.
Proof.
  unfold second. case_match; [|reflexivity]. by rewrite effect_view.
Qed.

Lemma back_not_final s : step (back s) ≠ NewPasswordStep.
Proof. unfold back. destruct (step s) eqn:E; cbn; congruence. Qed.

(** The screen changes harmlessly and nothing is sent. *)
Lemma invariant_shows n0 t w s' :
  harmless (screen t) s' -> invariant n0 t w -> invariant n0 (shows s' t) w.
Proof.
  intros Hv (Hn & Hc & Hs & Hp). repeat split; try done.
  by apply verified_harmless with (screen t).
Qed.

(** What a first half does: nothing but a harmless change of the screen
    and dialogs; or one request, whose outcome the handler waits with.
    [final] tells the handler of the last step, the only one that asks
    for a new password, from the others. *)
Definition begins (final : bool) (s : Screen) (w : World)
    (half : Async (Screen * option Awaiting)) : Prop :=
  exists s' waits w',
    half w = (Resolved (s', waits), w')
    /\ harmless s s'
    /\ match waits with
       | None => wire w' = wire w
       | Some a =>
           exists req,
             wire w' = wire w ++ [req]
             /\ (if final
                 then exists e p, data req = resetBody e (verifiedOtp s) p
                                  /\ (6 <= length p)%nat
                 else url req ≠ Js.lit "/auth/reset-password")
             /\ forall o r, a = VerifyOtpAwaits o (Resolved r) ->
                  acceptedAt (wire w') (length (wire w)) (address s) o
       end.

Lemma accepted_now w e o r :
  settled w (posted w (Js.lit "/auth/verify-reset-otp") (verifyBody e o)) = Resolved r ->
  acceptedAt (wire w ++ [posted w (Js.lit "/auth/verify-reset-otp") (verifyBody e o)])
    (length (wire w)) e o.
Proof.
  unfold settled. intros Hs.
  set (req := posted w (Js.lit "/auth/verify-reset-otp") (verifyBody e o)) in *.
  destruct (respond (wire w) req) as [r'|m] eqn:Er; [|discriminate].
  destruct (is2xx r') eqn:E2; [|discriminate].
  exists req, r'. split; [by rewrite list_lookup_middle|].
  split; [apply posted_shape|]. split; [apply posted_shape|].
  split; [|done]. by rewrite take_app_length.
Qed.

Lemma beginSendOtp_begins s w : begins false s w (beginSendOtp s).
Proof.
  unfold begins, beginSendOtp.
  destruct (negb (Js.truthy _)); [eexists _, _, _; split; [reflexivity|by split; [left|]]|].
  destruct (negb (Regex.test _ _));
    [eexists _, _, _; split; [reflexivity|by split; [left|]]|].
  cbv zeta. unfold bind, ret. rewrite send_eq.
  eexists _, _, _. split; [reflexivity|]. split; [by left|].
  eexists. split; [reflexivity|]. split; [|discriminate].
  rewrite (proj1 (proj2 (posted_shape _ _ _))). discriminate.
Qed.

Lemma beginResendOtp_begins s w : begins false s w (beginResendOtp s).
Proof.
  unfold begins, beginResendOtp.
  destruct (negb _); [eexists _, _, _; split; [reflexivity|by split; [left|]]|].
  cbv zeta. unfold bind, ret. rewrite send_eq.
  eexists _, _, _. split; [reflexivity|]. split; [by left|].
  eexists. split; [reflexivity|]. split; [|discriminate].
  rewrite (proj1 (proj2 (posted_shape _ _ _))). discriminate.
Qed.

Lemma beginVerifyOtp_begins s w : begins false s w (beginVerifyOtp s).
Proof.
  unfold begins, beginVerifyOtp. cbv zeta.
  destruct (negb _); [eexists _, _, _; split; [reflexivity|by split; [left|]]|].
  unfold bind, ret. rewrite send_eq.
  change (address (setLoading true s)) with (address s).
  fold (verifyBody (address s) (concat (otp s))).
  eexists _, _, _. split; [reflexivity|]. split; [by left|].
  eexists. split; [reflexivity|]. split.
  - rewrite (proj1 (proj2 (posted_shape _ _ _))). discriminate.
  - intros o r E. injection E as <- Hs. cbn [pushWire wire]. by eapply accepted_now.
Qed.

Lemma beginResetPassword_begins s w : begins true s w (beginResetPassword s).
Proof.
  unfold begins, beginResetPassword. cbv zeta.
  destruct (loading s); [eexists _, _, _; split; [reflexivity|by split; [left|]]|].
  rewrite newErrors_size.
  destruct (passwordsOk s) eqn:Eok; cbn [negb];
    [|eexists _, _, _; split; [reflexivity|by split; [left|]]].
  unfold bind, ret. rewrite send_eq.
  change (address (setErrors ∅ (setLoading true s))) with (address s).
  cbn [verifiedOtp newPassword setErrors setLoading].
  fold (resetBody (address s) (verifiedOtp s) (newPassword s)).
  eexists _, _, _. split; [reflexivity|]. split; [by left|].
  eexists. split; [reflexivity|]. split; [|discriminate].
  exists (address s), (newPassword s).
  split; [apply posted_shape|].
  unfold passwordsOk in Eok. rewrite !andb_true_iff, negb_true_iff in Eok.
  destruct Eok as [[[_ Hl] _] _]. by apply Nat.ltb_ge in Hl.
Qed.

(** A second half never throws and sends nothing; it changes the screen
    harmlessly, unless it ends a verification that the backend accepted,
    and then the screen holds the code of that verification. *)
Lemma resume_spec web a s w :
  exists s' w',
    resume web a s w = (Resolved s', w')
    /\ wire w' = wire w
    /\ (harmless s s'
        \/ exists o r, a = VerifyOtpAwaits o (Resolved r) /\ verifiedOtp s' = o).
Proof.
  destruct a as [outcome|otpCode outcome|outcome|outcome];
    unfold resume, bind, tryCatch, ret, alert, modify;
    pose proof (receive_wire outcome w) as Hw;
    pose proof (receive_eq outcome w) as He;
    destruct (receive outcome w) as [[r|e] w1]; cbn [snd] in Hw.
  - eexists _, _. split; [reflexivity|]. split; [done|]. left. right. cbn. congruence.
  - eexists _, _. split; [reflexivity|]. split; [done|]. left. by left.
  - eexists _, _. split; [reflexivity|]. split; [done|]. right.
    destruct outcome as [r'|e']; [|destruct (decide _); discriminate].
    by exists otpCode, r'.
  - eexists _, _. split; [reflexivity|]. split; [done|]. left. by left.
  - destruct web; eexists _, _; (split; [reflexivity|]); (split; [done|]); left; by left.
  - destruct web; eexists _, _; (split; [reflexivity|]); (split; [done|]); left; by left.
  - eexists _, _. split; [reflexivity|]. split; [done|]. left. by left.
  - eexists _, _. split; [reflexivity|]. split; [done|]. left. by left.
Qed.

Lemma begun_invariant final n0 t w half :
  (final = true -> step (screen t) = NewPasswordStep) ->
  begins final (screen t) w half ->
  invariant n0 t w ->
  exists t' w', begun t half w = (Resolved t', w') /\ invariant n0 t' w'.
Proof.
  intros Hfinal (s' & waits & w' & E & Hs' & Hw) (Hn & Hc & Hv & Hp).
  unfold begun, bind, ret. rewrite E. cbn [fst snd].
  eexists _, _. split; [reflexivity|].
  destruct waits as [a|].
  - destruct Hw as (req & Hw & Hreq & Ha). unfold invariant. cbn [screen awaiting].
    rewrite Hw. split; [rewrite length_app; lia|]. split; [|split].
    + destruct final.
      * destruct Hreq as (e & p & Hd & Hlen).
        eapply covered_snoc_reset; [done|exact Hd|exact Hlen|]. by apply Hv, Hfinal.
      * by apply covered_snoc_other.
    + apply verified_harmless with (screen t); [done|]. by apply verified_app.
    + intros o r Hin. apply elem_of_app in Hin as [Hin|Hin].
      * eapply promised_app; [exact Hp|exact Hin].
      * apply list_elem_of_singleton in Hin. symmetry in Hin.
        specialize (Ha o r Hin). rewrite Hw in Ha.
        exists (length (wire w)), (address (screen t)).
        split; [rewrite length_app; cbn; lia|exact Ha].
  - unfold invariant. cbn [screen awaiting]. rewrite Hw.
    repeat split; try done. by apply verified_harmless with (screen t).
Qed.

Lemma reply_invariant web n0 k t w :
  invariant n0 t w ->
  exists t' w',
    match awaiting t !! k with
    | Some a =>
        (await s <- resume web a (screen t);
         ret {| screen := s; awaiting := delete k (awaiting t) |})%async
    | None => ret t
    end w = (Resolved t', w')
    /\ invariant n0 t' w'.
Proof.
  intros Hinv. destruct (awaiting t !! k) as [a|] eqn:Ek; [|by exists t, w].
  destruct (resume_spec web a (screen t) w) as (s' & w' & E & Hw & Hcase).
  unfold bind, ret. rewrite E. eexists _, _. split; [reflexivity|].
  destruct Hinv as (Hn & Hc & Hv & Hp).
  unfold invariant. cbn [screen awaiting]. rewrite Hw.
  split; [done|]. split; [done|]. split.
  - destruct Hcase as [Hh|(o & r & -> & Ho)].
    + by apply verified_harmless with (screen t).
    + intros _. rewrite Ho. apply (Hp o r). by eapply list_elem_of_lookup_2.
  - intros o r Hin. apply (Hp o r). by eapply list_elem_of_delete_inv.
Qed.

Lemma handler_invariant web n0 e t w :
  invariant n0 t w ->
  exists t' w', handler web e t w = (Resolved t', w') /\ invariant n0 t' w'.
Proof.
  intros Hinv.
  assert (Hsame : exists t' w', (Resolved t, w) = (Resolved t' : Outcome Session, w')
                                /\ invariant n0 t' w') by (by exists t, w).
  assert (Hpure : forall s', harmless (screen t) s' ->
            exists t' w', (Resolved (shows s' t), w) = (Resolved t' : Outcome Session, w')
                          /\ invariant n0 t' w').
  { intros s' Hv. eexists _, w. split; [done|]. by apply invariant_shows. }
  unfold handler. cbv zeta.
  destruct e, (step (screen t)) eqn:Estep; try exact Hsame; unfold ret;
    try (apply Hpure; right; apply back_not_final);
    try (apply Hpure; left; apply second_view).
  - (* TypeEmail *) apply Hpure. right. cbn. congruence.
  - (* PressSend *)
    eapply (begun_invariant false); [discriminate|apply beginSendOtp_begins|done].
  - (* TypeCode *)
    destruct (_ <? _)%nat; [|exact Hsame]. apply Hpure. right. cbn. congruence.
  - (* PressVerify *)
    eapply (begun_invariant false); [discriminate|apply beginVerifyOtp_begins|done].
  - (* PressResend *)
    destruct (_ && _); [|exact Hsame].
    eapply (begun_invariant false); [discriminate|apply beginResendOtp_begins|done].
  - (* TypeNewPassword *) apply Hpure. by left.
  - (* TypeConfirmPassword *) apply Hpure. by left.
  - (* PressReset *)
    eapply (begun_invariant true); [done|apply beginResetPassword_begins|done].
  - (* Reply *) apply (reply_invariant web n0 k t w Hinv).
  - apply (reply_invariant web n0 k t w Hinv).
  - apply (reply_invariant web n0 k t w Hinv).
Qed.

Lemma fire_invariant web n0 e t w :
  invariant n0 t w ->
  exists t' w', fire web e t w = (Resolved t', w') /\ invariant n0 t' w'.
Proof.
  intros Hinv. destruct (handler_invariant web n0 e t w Hinv) as (t1 & w1 & E & Hi).
  eexists _, w1. unfold fire, bind, ret. rewrite E. split; [reflexivity|].
  apply invariant_shows; [left; apply effect_view|done].
Qed.

Lemma play_invariant web n0 events t w :
  invariant n0 t w ->
  exists t' w', play web events t w = (Resolved t', w') /\ invariant n0 t' w'.
Proof.
  revert t w. induction events as [|e events IH]; intros t w Hinv.
  - by exists t, w.
  - destruct (fire_invariant web n0 e t w Hinv) as (t1 & w1 & E & Hi).
    destruct (IH t1 w1 Hi) as (t2 & w2 & E2 & Hi2).
    exists t2, w2. cbn [play]. unfold bind. rewrite E. done.
Qed.

(** X24.  A new password is only ever sent with a code the backend has
    verified.  Take any series of events on the screen: typing, the
    buttons, the back arrow, the clock, and the replies to the requests
    that are under way, in any order and with any events in between,
    against any backend.  No handler throws, and every request to
    ['/auth/reset-password'] that went out carries an email, a code and a
    password of 6 characters or more such that an earlier request of the
    same session to ['/auth/verify-reset-otp'] carried that code and was
    answered with a 2xx status.  The email of the two requests need not
    be the same: see [code_verified_for_another_address]. *)
Theorem new_password_needs_a_verified_code
    (web : bool) (events : list Event) (w : World) :
  (exists t', (play web events opened w).1 = Resolved t')
  /\ forall i req,
       (length (wire w) <= i)%nat ->
       wire (play web events opened w).2 !! i = Some req ->
       url req = Js.lit "/auth/reset-password" ->
       exists e o p,
         data req = JsonBody (JObj [(Js.lit "email", JStr e); (Js.lit "otp", JStr o);
                                    (Js.lit "newPassword", JStr p)])
         /\ (6 <= length p)%nat
         /\ exists j verification e' r,
              (length (wire w) <= j < i)%nat
              /\ wire (play web events opened w).2 !! j = Some verification
              /\ url verification = Js.lit "/auth/verify-reset-otp"
              /\ data verification =
                   JsonBody (JObj [(Js.lit "email", JStr e'); (Js.lit "otp", JStr o)])
              /\ respond (take j (wire (play web events opened w).2)) verification
                 = Answered r
              /\ is2xx r = true.
Proof.
  assert (Hstart : invariant (length (wire w)) opened w).
  { split; [done|]. split; [|split; [done|]].
    - intros i req Hi Hl. apply lookup_lt_Some in Hl. lia.
    - intros o r Hin. by apply elem_of_nil in Hin. }
  destruct (play_invariant web (length (wire w)) events opened w Hstart)
    as (t' & w' & E & _ & Hc & _).
  rewrite E. cbn [fst snd]. split; [by exists t'|].
  intros i req Hi Hl Hu.
  destruct (Hc i req Hi Hl Hu) as (e & o & p & Hd & Hp & j & e' & Hj & req' & r & Ha).
  exists e, o, p. split; [exact Hd|]. split; [exact Hp|].
  exists j, req', e', r. split; [exact Hj|]. exact Ha.
Qed.

End WithEnv.

(** The code is verified for one address and the new password is sent
    for another: the user leaves the code step while the verification is
    under way, types another email, and the reply then opens the last
    step. *)
Example code_verified_for_another_address :
  List.map data
    (wire (@play Scenarios.asciiRuntime (Scenarios.replying 200 JNull) false
             [TypeEmail (Js.lit "a@x.io"); PressSend; Reply 0;
              TypeCode (Js.lit "123456") 0; PressVerify;
              PressBack; TypeEmail (Js.lit "b@x.io"); Reply 0;
              TypeNewPassword (Js.lit "secret1"); TypeConfirmPassword (Js.lit "secret1");
              PressReset]
             opened Scenarios.freshWorld).2)
  = [sendBody (Js.lit "a@x.io");
     verifyBody (Js.lit "a@x.io") (Js.lit "123456");
     resetBody (Js.lit "b@x.io") (Js.lit "123456") (Js.lit "secret1")].
Proof. vm_compute. reflexivity. Qed.

End ForgotPasswordFacts.

(** ** The profile screen *)

Module ProfileFacts.
Import ProfileScreen Api ApiFacts JsFacts.

(** The rules of [changePassword]. *)
Definition passwordsOk (p : PasswordData) : bool :=
  Js.truthy (currentPassword p) && Js.truthy (newPassword p)
  && Js.truthy (confirmPassword p)
  && bool_decide (newPassword p = confirmPassword p)
  && (8 <=? length (newPassword p))%nat.

(** The dialog a rule of [changePassword] answers with. *)
Definition objection (p : PasswordData) : UiEvent :=
  Alert (Js.lit "Error")
    (if negb (Js.truthy (currentPassword p)) || negb (Js.truthy (newPassword p))
        || negb (Js.truthy (confirmPassword p))
     then Js.lit "Please fill in all password fields"
     else if negb (bool_decide (newPassword p = confirmPassword p))
     then Js.lit "New passwords do not match"
     else Js.lit "New password must be at least 8 characters long").

Definition passwordBody (p : PasswordData) : Body :=
  JsonBody (JObj [(Js.lit "currentPassword", JStr (currentPassword p));
                  (Js.lit "newPassword", JStr (newPassword p))]).




Section WithEnv.
Context `{Runtime} `{Backend}.

Definition failure (error : Exn) (fallback : jsstring) : UiEvent :=
  Alert (Js.lit "Error") (toString (Json.or (served error) (JStr fallback))).



Lemma changePassword_eq s w :
  changePassword s w =
    if passwordsOk (passwordData s)
    then
      match ApiVerbs.put (Js.lit "/api/auth/change-password")
              (passwordBody (passwordData s)) w with
      | (Resolved _, w1) =>
          (Resolved (setUpdating false
                       (setShowPasswordFields false
                          (setPasswordData emptyPasswordData (setUpdating true s)))),
           pushUi (Alert (Js.lit "Success") (Js.lit "Password changed successfully")) w1)
      | (Rejected e, w1) =>
          (Resolved (setUpdating false (setUpdating true s)),
           pushUi (failure e (Js.lit "Failed to change password")) w1)
      end
    else (Resolved s, pushUi (objection (passwordData s)) w).
Proof.
  unfold changePassword, passwordsOk, objection. cbv zeta.
  destruct (Js.truthy (currentPassword _)); cbn [negb orb andb]; [|reflexivity].
  destruct (Js.truthy (newPassword _)); cbn [negb orb andb]; [|reflexivity].
  destruct (Js.truthy (confirmPassword _)); cbn [negb orb andb]; [|reflexivity].
  destruct (bool_decide _); cbn [negb andb]; [|reflexivity].
  destruct (Nat.leb_spec 8 (length (newPassword (passwordData s)))) as [Hl|Hl].
  - replace (length (newPassword (passwordData s)) <? 8)%nat with false
      by (symmetry; apply Nat.ltb_ge; lia).
    unfold bind, tryCatch, ret, alert, alertFailure, modify, passwordBody, failure.
    destruct (ApiVerbs.put _ _ w) as [[r|e] w1]; reflexivity.
  - replace (length (newPassword (passwordData s)) <? 8)%nat with true
      by (symmetry; apply Nat.ltb_lt; lia).
    reflexivity.
Qed.

(** X25.  [changePassword] never throws, shows exactly one dialog and
    never touches the profile fields.  It sends a request exactly when the
    three password fields are filled in, the new password equals its
    confirmation and has at least 8 characters; otherwise the screen stays
    as it is.  The request is one PUT to ['/api/auth/change-password']
    whose body holds the current and the new password and nothing else.
    When the backend accepts it the three fields are emptied and hidden;
    when it does not, the fields keep what was typed.  Either way
    [updating] ends false. *)
Theorem change_password_rules (s : Screen) (w : World) :
  let ok := passwordsOk (passwordData s) in
  exists s' dialog,
    changePassword s w = (Resolved s', (changePassword s w).2)
    /\ ui (changePassword s w).2 = ui w ++ [dialog]
    /\ profileData s' = profileData s
    /\ (ok = false -> s' = s /\ wire (changePassword s w).2 = wire w)
    /\ (ok = true ->
          updating s' = false
          /\ exists sent,
               wire (changePassword s w).2 = wire w ++ [sent]
               /\ method sent = PUT
               /\ url sent = Js.lit "/api/auth/change-password"
               /\ data sent = JsonBody
                    (JObj [(Js.lit "currentPassword",
                             JStr (currentPassword (passwordData s)));
                           (Js.lit "newPassword", JStr (newPassword (passwordData s)))])
               /\ if match respond (wire w) sent with
                     | Answered r => is2xx r
                     | NoResponse _ => false
                     end
                  then passwordData s' = emptyPasswordData
                       /\ showPasswordFields s' = false
                       /\ dialog = Alert (Js.lit "Success")
                                     (Js.lit "Password changed successfully")
                  else passwordData s' = passwordData s
                       /\ showPasswordFields s' = showPasswordFields s).
Proof.
  intros ok. subst ok. rewrite changePassword_eq.
  destruct (passwordsOk (passwordData s)).
  - unfold ApiVerbs.put. rewrite request_eq.
    set (sent := intercepted (storage w) _).
    assert (Hshape : method sent = PUT
                     /\ url sent = Js.lit "/api/auth/change-password"
                     /\ data sent = passwordBody (passwordData s))
      by apply SessionFacts.intercepted_shape.
    destruct Hshape as (Hm & Hu & Hd).
    destruct (respond (wire w) sent) as [r|m] eqn:Er; [destruct (is2xx r) eqn:E2|].
    + eexists _, _. split; [reflexivity|]. split; [reflexivity|]. split; [reflexivity|].
      split; [discriminate|]. intros _. split; [reflexivity|].
      exists sent. rewrite Er, E2. by repeat split.
    + eexists _, _. split; [reflexivity|]. cbn [snd pushUi ui wire].
      split; [by destruct (decide _)|]. split; [reflexivity|].
      split; [discriminate|]. intros _. split; [reflexivity|].
      exists sent. rewrite Er, E2. split; [by destruct (decide _)|]. by repeat split.
    + eexists _, _. split; [reflexivity|]. split; [reflexivity|]. split; [reflexivity|].
      split; [discriminate|]. intros _. split; [reflexivity|].
      exists sent. rewrite Er. by repeat split.
  - eexists _, _. split; [reflexivity|]. split; [reflexivity|]. split; [reflexivity|].
    split; [done|discriminate].
Qed.





End WithEnv.
End ProfileFacts.

(** ** Progress on the exercise plans screen *)

Module ExerciseProgressFacts.
Import ExercisePlansScreen ExercisePlansProgress ExerciseFacts AuthServiceFacts.

(** The figure for [c] exercises done out of [t]. *)
Definition percent (c t : nat) : float :=
  Math.round (Num.ofZ (Z.of_nat c) / Num.ofZ (Z.of_nat t) * 100)%float.

(** The integer nearest to [100·c/t], the upper one of two. *)
Definition nearest (c t : nat) : Z :=
  (200 * Z.of_nat c + Z.of_nat t) / (2 * Z.of_nat t).

#[local] Instance spec_float_eq_dec : EqDecision spec_float.
Proof. solve_decision. Defined.

Definition agree (c t : nat) : bool :=
  bool_decide (Prim2SF (percent c t) = Prim2SF (Num.ofZ (nearest c t))).

Lemma percent_table :
  forallb (fun t => forallb (fun c => agree c t) (seq 0 (S t))) (seq 1 39) = true.
Proof. vm_compute. reflexivity. Qed.

Lemma percent_nearest c t :
  (0 < t <= 39)%nat -> (c <= t)%nat -> percent c t = Num.ofZ (nearest c t).
Proof.
  intros Ht Hc. apply Prim2SF_inj.
  pose proof percent_table as Htab. rewrite forallb_forall in Htab.
  specialize (Htab t). rewrite forallb_forall in Htab.
  apply (bool_decide_unpack _), Is_true_true, Htab; apply in_seq; lia.
Qed.

Lemma nearest_spec c t :
  (0 < t)%nat -> (c <= t)%nat ->
  0 <= nearest c t <= 100
  /\ 2 * Z.of_nat t * nearest c t <= 200 * Z.of_nat c + Z.of_nat t
       < 2 * Z.of_nat t * (nearest c t + 1)
  /\ ((t < 200)%nat -> nearest c t = 100 <-> c = t)
  /\ ((t < 200)%nat -> nearest c t = 0 <-> c = 0%nat).
Proof.
  intros Ht Hc. unfold nearest.
  set (n := 200 * Z.of_nat c + Z.of_nat t). set (d := 2 * Z.of_nat t).
  assert (Hd : 0 < d) by lia.
  pose proof (Z.div_mod n d ltac:(lia)) as Hdm.
  pose proof (Z.mod_pos_bound n d Hd) as Hm.
  assert (Hlow : 0 <= n / d) by (apply Z.div_pos; lia).
  assert (Hup : n / d <= 100).
  { apply Z.lt_succ_r, Z.div_lt_upper_bound; [lia|]. subst n d. lia. }
  split; [lia|]. split; [nia|]. split.
  - intros H200. split.
    + intros E. rewrite E in Hdm. subst n d. lia.
    + intros ->. subst n d.
      replace (200 * Z.of_nat t + Z.of_nat t) with (100 * (2 * Z.of_nat t) + Z.of_nat t)
        by lia.
      rewrite Z.div_add_l by lia. rewrite Z.div_small by lia. lia.
  - intros H200. split.
    + intros E. rewrite E in Hdm. subst n d. lia.
    + intros ->. subst n d. apply Z.div_small. lia.
Qed.

(** X27.  The progress figure.  Without a selected plan, without plans or
    for an empty plan [getCompletionPercentage] is 0.  For a plan of up to
    39 exercises of which [c] out of [t] are done, the figure the
    floating-point computation [Math.round(c / t * 100)] gives is the
    integer nearest to [100·c/t] (the upper one of two): it lies between 0
    and 100, is 100 exactly when all are done and 0 exactly when none
    is. *)
Theorem completion_percentage_is_nearest_percent (s : Screen) :
  match selectedPlan s, plans s with
  | Some level, Some allPlans =>
      let t := length (exercises (planOf allPlans level)) in
      let c := length (completedExercises s) in
      (t = 0%nat -> getCompletionPercentage s = 0%float)
      /\ ((0 < t <= 39)%nat -> (c <= t)%nat ->
          exists k : Z,
            getCompletionPercentage s = Num.ofZ k
            /\ 0 <= k <= 100
            /\ 2 * Z.of_nat t * k <= 200 * Z.of_nat c + Z.of_nat t
                 < 2 * Z.of_nat t * (k + 1)
            /\ (k = 100 <-> c = t)
            /\ (k = 0 <-> c = 0%nat))
  | _, _ => getCompletionPercentage s = 0%float
  end.
Proof.
  unfold getCompletionPercentage.
  destruct (selectedPlan s) as [level|]; [|reflexivity].
  destruct (plans s) as [allPlans|]; [|reflexivity].
  cbv zeta.
  set (t := length (exercises (planOf allPlans level))).
  set (c := length (completedExercises s)).
  split.
  - intros E. by rewrite E.
  - intros Ht Hc.
    replace (0 <? t)%nat with true by (symmetry; apply Nat.ltb_lt; lia).
    fold (percent c t). rewrite percent_nearest by lia.
    exists (nearest c t). split; [reflexivity|].
    destruct (nearest_spec c t) as (H1 & H2 & H3 & H4); [lia|lia|].
    split; [exact H1|]. split; [exact H2|]. split; [apply H3|apply H4]; lia.
Qed.

(** With 40 exercises the figure is no longer the nearest integer: 23 of
    40 are 57.5 percent, and the computed figure is 57. *)
Example figure_for_23_of_40 : percent 23 40 = 57%float /\ nearest 23 40 = 58.
Proof. split; vm_compute; reflexivity. Qed.

Section WithBackend.
Context `{Backend}.

(** The state after a change of plan. *)
Definition changed (level : SeverityLevel) (s : Screen) : Screen :=
  setCompletedExercises [] (setSelectedPlan (Some level) s).

(** The first exercise toggled after a change of plan is posted alone. *)
Lemma first_toggle level s clock exerciseId w :
  match plans s with
  | Some allPlans =>
      exists sent,
        wire (toggleExercise clock exerciseId (changed level s) w).2 = wire w ++ [sent]
        /\ url sent = Js.lit "/activity/exercise/log"
        /\ data sent = JsonBody
             (logBody level [exerciseId] (length (exercises (planOf allPlans level))))
  | None => toggleExercise clock exerciseId (changed level s) w
            = (Resolved (changed level s), w)
  end.
Proof.
  destruct (plans s) as [allPlans|] eqn:Ep.
  - rewrite (toggleExercise_eq clock exerciseId (changed level s) w level allPlans
               eq_refl Ep).
    cbv zeta.
    pose proof (post_wire (Js.lit "/activity/exercise/log")
                  (body level allPlans (newCompleted [] exerciseId)) w) as Hw.
    destruct (Api.post _ _ w) as [[r|e] w1]; cbn [fst snd pushUi wire] in *;
      (eexists; split; [exact Hw|]; split; apply posted_shape).
  - unfold toggleExercise.
    cbn [selectedPlan plans changed setCompletedExercises setSelectedPlan].
    by rewrite Ep.
Qed.

(** X28.  Choosing a plan.  [handleSelectPlan] asks before changing
    exactly when another plan is selected and at least one exercise is
    done; then nothing changes until the Change button is pressed.  In
    every other case the plan is selected and the list of done exercises
    is emptied at once; this includes choosing the plan that is already
    selected, which clears the progress without asking.  Nothing is sent
    by choosing; the next exercise toggled is posted alone, under the
    chosen plan. *)
Theorem choosing_a_plan_resets_progress
    (level : SeverityLevel) (s : Screen) (clock : Z) (exerciseId : jsstring) (w : World) :
  let chosen := handleSelectPlan level s in
  let change := setCompletedExercises [] (setSelectedPlan (Some level) s) in
  (onChange chosen = Some change /\ now chosen = s
   \/ onChange chosen = None /\ now chosen = change)
  /\ (onChange chosen ≠ None <->
        exists selected, selectedPlan s = Some selected /\ selected ≠ level
                         /\ completedExercises s ≠ [])
  /\ (selectedPlan s = Some level -> completedExercises (now chosen) = [])
  /\ match plans s with
     | Some allPlans =>
         exists sent,
           wire (toggleExercise clock exerciseId change w).2 = wire w ++ [sent]
           /\ url sent = Js.lit "/activity/exercise/log"
           /\ data sent = JsonBody
                (logBody level [exerciseId] (length (exercises (planOf allPlans level))))
     | None => toggleExercise clock exerciseId change w = (Resolved change, w)
     end.
Proof.
  intros chosen change.
  assert (Hsame : forall a b, sameLevel a b = true <-> a = b)
    by (intros [] []; cbn; split; congruence).
  split; [|split; [|split; [|apply first_toggle]]];
    subst chosen; unfold handleSelectPlan; fold change;
    destruct (selectedPlan s) as [selected|] eqn:Es.
  - destruct (sameLevel selected level); cbn [negb andb]; [by right|].
    destruct (completedExercises s); [by right|by left].
  - by right.
  - destruct (sameLevel selected level) eqn:El; cbn [negb andb].
    + apply Hsame in El as ->. split; [done|]. intros (x & [= <-] & Hne & _). done.
    + assert (Hne : selected ≠ level) by (intros E; apply Hsame in E; congruence).
      destruct (completedExercises s) as [|x rest]; cbn [length Nat.ltb Nat.leb onChange].
      * split; [done|]. intros (y & _ & _ & Hd). done.
      * split; [|done]. intros _. by exists selected.
  - split; [done|]. intros (x & [=] & _).
  - intros [= ->]. replace (sameLevel level level) with true
      by (symmetry; by apply Hsame).
    reflexivity.
  - discriminate.
Qed.

End WithBackend.
End ExerciseProgressFacts.

(** ** A session from start to save *)

Module StepSessionFacts.
Import StepCounter StepCounterSaving StepCounterTimer.
Import StepCounterFacts StepSaveFacts Api AuthServiceFacts.

(** The readings among the events, as [run] takes them. *)
Definition readings (events : list Event) : list (Z * Sample) :=
  omap (fun e => match e with
                 | Reading now data => Some (now, data)
                 | Interval _ => None
                 end) events.

(** The clock of the last firing of the interval. *)
Fixpoint lastInterval (events : list Event) : option Z :=
  match events with
  | [] => None
  | e :: rest =>
      match lastInterval rest with
      | Some t => Some t
      | None => match e with Interval t => Some t | Reading _ _ => None end
      end
  end.

(** Whole seconds from [start] to [now], as the interval computes them. *)
Definition elapsed (start now : Z) : Z :=
  Num.toZ (Math.floor (Num.ofZ (now - start) / 1000)%float).

(** What the accelerometer never touches. *)
Lemma listener_frame now data s :
  startTime (listener now data s) = startTime s
  /\ isCounting (listener now data s) = isCounting s
  /\ duration (listener now data s) = duration s
  /\ subscribed (listener now data s) = subscribed s.
Proof.
  unfold listener.
  destruct (Num.gt _ _ && _); [repeat split|].
  destruct (Num.lt _ _ && _); [|repeat split].
  destruct (_ >? _); repeat split.
Qed.

(** The listener does not read the duration. *)
Lemma listener_setDuration now data d s :
  listener now data (setDuration d s) = setDuration d (listener now data s).
Proof.
  unfold listener. cbn [setDuration stepState lastStepTime].
  destruct (Num.gt _ _ && _); [reflexivity|].
  destruct (Num.lt _ _ && _); [|reflexivity].
  destruct (_ >? _); reflexivity.
Qed.

Lemma live_cons e rest s : live (e :: rest) s = live rest (deliver e s).
Proof. reflexivity. Qed.

(** The interval changes the duration and nothing else: a live session
    is the run of its readings, with the duration of the last firing. *)
Lemma live_run events : forall s start,
  startTime s = Some start -> isCounting s = true ->
  live events s =
    setDuration (match lastInterval events with
                 | Some t => elapsed start t
                 | None => duration s
                 end) (run (readings events) s).
Proof.
  induction events as [|e rest IH]; intros s start Hstart Hcount.
  - cbn. by destruct s.
  - rewrite live_cons. destruct e as [now data|now].
    + destruct (listener_frame now data s) as (L1 & L2 & L3 & _).
      cbn [deliver readings omap list_omap]. rewrite run_cons. cbn [fst snd].
      rewrite (IH _ start) by congruence.
      cbn [lastInterval]. rewrite L3. by destruct (lastInterval rest).
    + cbn [deliver readings omap list_omap]. rewrite Hstart, Hcount.
      rewrite (IH _ start) by done.
      cbn [lastInterval]. unfold onInterval. fold (elapsed start now).
      cbn [setDuration duration].
      assert (Hrun : forall stream d a,
        run stream (setDuration d a) = setDuration d (run stream a)).
      { induction stream as [|x stream IHs]; intros d a; [reflexivity|].
        rewrite !run_cons, listener_setDuration. apply IHs. }
      rewrite Hrun. by destruct (lastInterval rest).
Qed.

Lemma run_frame stream : forall s,
  startTime (run stream s) = startTime s
  /\ isCounting (run stream s) = isCounting s
  /\ duration (run stream s) = duration s
  /\ subscribed (run stream s) = subscribed s.
Proof.
  induction stream as [|e stream IH]; intros s; [repeat split|].
  rewrite run_cons.
  destruct (IH (listener e.1 e.2 s)) as (H1 & H2 & H3 & H4).
  destruct (listener_frame e.1 e.2 s) as (L1 & L2 & L3 & L4).
  repeat split; congruence.
Qed.

(** A session of 65.4 seconds: the interval fired at 1.0 s and at 65.0 s,
    and the duration on the screen is 65. *)
Example duration_after_a_minute :
  duration (live [Interval 1001000; Interval 1065000]
              (startCounting 1000000 1000000 initial)) = 65.
Proof. vm_compute. reflexivity. Qed.

Section WithEnv.
Context `{Runtime} `{Dates} `{Backend}.

(** X29.  A session from start to save, with the accelerometer readings
    and the firings of the one-second interval in any order.  The session
    keeps the start time [startCounting] gave it and stays in the
    counting state; its steps are those the readings alone count, and its
    duration is the one the last firing of the interval computed from its
    clock and the start time ([0] when it never fired).  Stopping it with
    no step counted shows the no-steps dialog and puts the counters back
    to zero without a start time.  Stopping it with steps leaves the count
    on the screen, ends the subscription, and offers to save; pressing
    Save sends exactly one POST to ['/health/steps'] with the counted
    steps, the distance and calories parsed back from their two-decimal
    texts, the start time of [startCounting], the time of the press as
    end time, and the duration on the screen: the session handed over
    always has its start time, so the save never fails before the
    request. *)
Theorem counted_session_is_saved_whole
    (date now : Z) (s0 : Screen) (events : list Event) (pressed : Z) (w : World) :
  let s := live events (startCounting date now s0) in
  startTime s = Some date
  /\ isCounting s = true
  /\ sessionSteps s = sessionSteps (run (readings events) (startCounting date now s0))
  /\ duration s = match lastInterval events with
                  | Some t => elapsed date t
                  | None => 0
                  end
  /\ if sessionSteps s =? 0
     then (stopCounting s).2 = NoStepsRecorded
          /\ sessionSteps (stopCounting s).1 = 0
          /\ duration (stopCounting s).1 = 0
          /\ startTime (stopCounting s).1 = None
          /\ isCounting (stopCounting s).1 = false
     else exists stepsLine distanceLine caloriesLine durationLine onSave,
            (stopCounting s).2
            = SessionComplete stepsLine distanceLine caloriesLine durationLine onSave
            /\ durationLine = formatDuration (duration s)
            /\ sessionSteps (stopCounting s).1 = sessionSteps s
            /\ isCounting (stopCounting s).1 = false
            /\ subscribed (stopCounting s).1 = false
            /\ exists sent,
                 wire (saveSession (onSave pressed) (stopCounting s).1 w).2
                 = wire w ++ [sent]
                 /\ method sent = POST
                 /\ url sent = Js.lit "/health/steps"
                 /\ data sent = JsonBody
                      (JObj [(Js.lit "steps", JNum (Num.ofZ (sessionSteps s)));
                             (Js.lit "distance",
                               JNum (parseFloat
                                 (toFixed (Num.ofZ (sessionSteps s) * 0.762 / 1000)%float 2)));
                             (Js.lit "calories",
                               JNum (parseFloat
                                 (toFixed (Num.ofZ (sessionSteps s) * 0.04)%float 2)));
                             (Js.lit "startTime", JStr (toISOString date));
                             (Js.lit "endTime", JStr (toISOString pressed));
                             (Js.lit "duration", JNum (Num.ofZ (duration s)))]).
Proof.
  intros s.
  pose proof (live_run events (startCounting date now s0) date eq_refl eq_refl) as Hlive.
  fold s in Hlive. cbn [startCounting duration] in Hlive.
  destruct (run_frame (readings events) (startCounting date now s0))
    as (Hstart0 & Hcount0 & _ & _).
  cbn [startCounting startTime isCounting] in Hstart0, Hcount0.
  assert (Hstart : startTime s = Some date) by (by rewrite Hlive).
  assert (Hcount : isCounting s = true) by (by rewrite Hlive).
  split; [exact Hstart|]. split; [exact Hcount|].
  split; [by rewrite Hlive|]. split; [by rewrite Hlive|].
  clear Hlive Hstart0 Hcount0.
  unfold stopCounting. destruct (sessionSteps s =? 0) eqn:E0.
  - repeat split.
  - eexists _, _, _, _, _. split; [reflexivity|]. cbn [fst sessionSteps isCounting subscribed].
    split; [reflexivity|]. split; [reflexivity|]. split; [reflexivity|].
    split; [reflexivity|].
    rewrite saveSession_eq. cbn [session_startTime]. rewrite Hstart.
    pose proof (post_wire (Js.lit "/health/steps")) as Hw.
    match goal with |- context [post ?p ?b w] =>
      specialize (Hw b w); destruct (post p b w) as [[r|e] w1] end;
      cbn [snd] in *; (eexists; split; [exact Hw|]; repeat split; apply posted_shape).
Qed.

End WithEnv.
End StepSessionFacts.

(** ** From the signup form to the code screen *)

Module SignupFlowFacts.
Import SignupScreen SignupFacts Api ApiFacts AuthServiceFacts JsFacts.

Section WithEnv.
Context `{Runtime} `{Backend}.

(** The navigation [handleSignup] ends with on success. *)
Definition toCodeScreen (s : Screen) : UiEvent :=
  Navigate (Js.lit "OTP") (JObj [(Js.lit "email", JStr (toLowerCase (email s)))]).

Definition signupFailed (error : Exn) : UiEvent :=
  Alert (Js.lit "Signup Failed")
        (orElse (messageOf error) (Js.lit "Failed to create account. Please try again.")).

Lemma handleSignup_eq s w :
  (validateForm s).2 = true ->
  handleSignup s w =
    match AuthService.call (Js.lit "/auth/signup") (signupData s) w with
    | (Resolved _, w1) =>
        (Resolved (setLoading false (setLoading true (validateForm s).1)),
         pushUi (Navigate (Js.lit "OTP")
                   (JObj [(Js.lit "email", JStr (toLowerCase (Js.trim (email s))))])) w1)
    | (Rejected e, w1) =>
        (Resolved (setLoading false (setLoading true (validateForm s).1)),
         pushUi (signupFailed e) w1)
    end.
Proof.
  unfold handleSignup.
  assert (Hd : signupData (validateForm s).1 = signupData s) by reflexivity.
  destruct (validateForm s) as [s' valid]. cbn [fst snd] in *.
  intros ->. cbn [negb].
  unfold bind, tryCatch, AuthContext.signup, AuthService.signup, bind, ret, modify, alert.
  rewrite Hd.
  destruct (AuthService.call _ _ w) as [[r|e] w1]; reflexivity.
Qed.

(** X30.  After a valid signup form.  [handleSignup] never throws and
    ends with [loading] false and the fields as typed.  It moves on to the
    code screen exactly when the backend accepts the signup request, and
    hands that screen the address it sent: the email lower-cased.  When
    the backend refuses or does not answer, the user stays on the form
    with one dialog, ['Signup Failed'].  In neither case is the user
    signed in. *)
Theorem signup_moves_to_code_screen_on_success (s : Screen) (w : World) :
  (validateForm s).2 = true ->
  exists s' event,
    handleSignup s w = (Resolved s', (handleSignup s w).2)
    /\ loading s' = false
    /\ (firstName s', lastName s', email s', password s', confirmPassword s')
       = (firstName s, lastName s, email s, password s, confirmPassword s)
    /\ ui (handleSignup s w).2 = ui w ++ [event]
    /\ auth (handleSignup s w).2 = auth w
    /\ match respond (wire w) (posted w (Js.lit "/auth/signup") (JsonBody (signupData s))) with
       | Answered r =>
           if is2xx r
           then event = Navigate (Js.lit "OTP")
                          (JObj [(Js.lit "email", JStr (toLowerCase (email s)))])
           else exists text, event = Alert (Js.lit "Signup Failed") text
       | NoResponse _ => exists text, event = Alert (Js.lit "Signup Failed") text
       end.
Proof.
  intros Hv. rewrite (handleSignup_eq s w Hv).
  assert (Ht : Js.trim (email s) = email s).
  { rewrite validateForm_checks, !andb_true_iff in Hv. unfold emailOk in Hv.
    rewrite andb_true_iff in Hv. destruct Hv as [[[_ [_ Hm]] _] _].
    by apply trim_no_space, emailPattern_no_space. }
  rewrite Ht. rewrite SignInFacts.call_eq. cbv zeta.
  destruct (respond _ _) as [r|m]; [destruct (is2xx r)|].
  - eexists _, _. split; [reflexivity|]. by repeat split.
  - eexists _, _. split; [reflexivity|]. cbn [snd pushUi ui auth].
    rewrite SignInFacts.refused_ui, SignInFacts.refused_auth.
    repeat split. by eexists.
  - eexists _, _. split; [reflexivity|]. repeat split. by eexists.
Qed.

End WithEnv.

Definition validForm : Screen := Scenarios.form (Js.lit "Passw0rd!").

Lemma signup_of_valid_form_moves_on :
  ui (@handleSignup Scenarios.asciiRuntime (Scenarios.replying 200 (JObj []))
        validForm Scenarios.freshWorld).2
  = [Navigate (Js.lit "OTP") (JObj [(Js.lit "email", JStr (Js.lit "al@ex.com"))])].
Proof.
  destruct (@signup_moves_to_code_screen_on_success Scenarios.asciiRuntime
              (Scenarios.replying 200 (JObj [])) validForm Scenarios.freshWorld
              ltac:(vm_compute; reflexivity))
    as (s' & event & _ & _ & _ & Hui & _ & Hevent).
  cbn in Hevent. rewrite Hui, Hevent. reflexivity.
Defined.

End SignupFlowFacts.
